(** * Transaction processing system: ingress, relay and applier.

    A shallow embedding of the Go services of the repository
    (api/internal/service, api/internal/handler, api/internal/middleware,
    publisher/internal/publisher, worker/internal/processor,
    worker/internal/consumer and shared/types), with the PostgreSQL tables
    as lists of rows and every SQL statement as a function on them.

    Conventions used throughout:
    - [int64] values are integers of [Z]; the two arithmetic operations the
      code performs on them ([+] and [-] in the applier) wrap around, as Go's
      do, and are written [Int64.add] and [Int64.sub];
    - a [uuid.UUID] is a 128-bit number ([N]); [uuid.New()] is an input of
      the function that calls it;
    - a database statement can fail with a driver error; which statements
      fail in a given call is an input of that call (a function from the
      statement to an optional error text);
    - a SQL transaction works on a copy of the database; [tx.Commit()]
      publishes the copy, the deferred [tx.Rollback()] drops it. *)

From Stdlib Require Import ZArith NArith List String Ascii Bool Lia DecimalString.
Import ListNotations.

Open Scope string_scope.
Open Scope Z_scope.

(** ** Go values *)

Module Int64.

Definition min : Z := - 2 ^ 63.
Definition max : Z := 2 ^ 63 - 1.

Definition in_range (z : Z) : Prop := min <= z <= max.

(** Two's complement reduction of an integer to 64 bits. *)
Definition wrap (z : Z) : Z := (z + 2 ^ 63) mod 2 ^ 64 - 2 ^ 63.

Definition add (a b : Z) : Z := wrap (a + b).
Definition sub (a b : Z) : Z := wrap (a - b).

End Int64.

Module Fmt.

(** The double quote character, for texts that contain it. *)
Definition dquote : string := String "034"%char EmptyString.

(** [fmt.Sprintf("%d", z)]. *)
Definition d (z : Z) : string := NilZero.string_of_int (Z.to_int z).

End Fmt.

(** The outcome of a fallible call: Go's [(value, error)] pair. *)
Inductive result (A : Type) : Type :=
| Ok (a : A)
| Err (e : string).
Arguments Ok {A} a.
Arguments Err {A} e.

(** ** shared/types *)

Module Types.

Definition UUID := N.
Definition uuid_Nil : UUID := 0%N.

Definition TransactionType := string.
Definition TransactionTypeDebit : TransactionType := "DEBIT".
Definition TransactionTypeCredit : TransactionType := "CREDIT".

Inductive TransactionStatus :=
| TransactionStatusPending
| TransactionStatusProcessing
| TransactionStatusProcessed
| TransactionStatusFailed.

Definition AccountStatus := string.
Definition AccountStatusActive : AccountStatus := "ACTIVE".
Definition AccountStatusSuspended : AccountStatus := "SUSPENDED".

(** [json.RawMessage]: uninterpreted bytes. *)
Definition RawMessage := string.

Record Account := {
  acc_ID : UUID;
  acc_CreatedAt : Z;
  acc_UpdatedAt : Z;
  acc_Currency : string;
  acc_BalanceCents : Z;
  acc_Status : AccountStatus
}.

Record Transaction := {
  ID : UUID;
  AccountID : UUID;
  AmountCents : Z;
  Currency : string;
  Type_ : TransactionType;
  Status : TransactionStatus;
  IdempotencyKey : string;
  FailureReason : option string;
  Metadata : option RawMessage;
  CreatedAt : Z;
  UpdatedAt : Z
}.

Record CreateTransactionRequest := {
  req_AccountID : UUID;
  req_AmountCents : Z;
  req_Currency : string;
  req_Type : TransactionType;
  req_IdempotencyKey : string;
  req_Metadata : RawMessage
}.

Record EventEnvelope := {
  EventID : UUID;
  EventType : string;
  OccurredAt : Z;
  TraceID : string;
  env_IdempotencyKey : string;
  AggregateID : UUID;
  Payload : RawMessage
}.

Record TransactionCreatedPayload := {
  p_TransactionID : UUID;
  p_AccountID : UUID;
  p_AmountCents : Z;
  p_Currency : string;
  p_Type : TransactionType;
  p_IdempotencyKey : string;
  p_Metadata : option RawMessage
}.

Definition status_eqb (a b : TransactionStatus) : bool :=
  match a, b with
  | TransactionStatusPending, TransactionStatusPending
  | TransactionStatusProcessing, TransactionStatusProcessing
  | TransactionStatusProcessed, TransactionStatusProcessed
  | TransactionStatusFailed, TransactionStatusFailed => true
  | _, _ => false
  end.

End Types.
Import Types.

(** ** The database

    Four tables.  The constraints are those the statements of the code rely
    on: the primary keys, and [UNIQUE (account_id, idempotency_key)] on
    [transactions]. *)

Module Store.

Record OutboxEvent := {
  ob_id : UUID;
  ob_aggregate_type : string;
  ob_aggregate_id : UUID;
  ob_event_type : string;
  ob_payload : RawMessage;
  ob_status : string;
  ob_created_at : Z;
  ob_published_at : option Z;
  ob_publish_attempts : Z;
  ob_last_error : option string
}.

Record ProcessedEvent := {
  pe_event_id : UUID;
  pe_transaction_id : UUID;
  pe_processed_at : Z
}.

Record DB := {
  accounts : list Account;
  transactions : list Transaction;
  outbox_events : list OutboxEvent;
  processed_events : list ProcessedEvent
}.

Definition with_accounts (db : DB) (l : list Account) : DB :=
  {| accounts := l; transactions := transactions db;
     outbox_events := outbox_events db; processed_events := processed_events db |}.

Definition with_transactions (db : DB) (l : list Transaction) : DB :=
  {| accounts := accounts db; transactions := l;
     outbox_events := outbox_events db; processed_events := processed_events db |}.

Definition with_outbox_events (db : DB) (l : list OutboxEvent) : DB :=
  {| accounts := accounts db; transactions := transactions db;
     outbox_events := l; processed_events := processed_events db |}.

Definition with_processed_events (db : DB) (l : list ProcessedEvent) : DB :=
  {| accounts := accounts db; transactions := transactions db;
     outbox_events := outbox_events db; processed_events := l |}.

(** [UPDATE t SET ... WHERE cond]: every row that satisfies the condition
    is rewritten, the others are kept, the order of rows is unchanged. *)
Definition update_where {A : Type} (cond : A -> bool) (set : A -> A) (rows : list A) : list A :=
  map (fun r => if cond r then set r else r) rows.

Definition set_status (s : TransactionStatus) (reason : option string) (now : Z)
    (t : Transaction) : Transaction :=
  {| ID := ID t; AccountID := AccountID t; AmountCents := AmountCents t;
     Currency := Currency t; Type_ := Type_ t; Status := s;
     IdempotencyKey := IdempotencyKey t; FailureReason := reason;
     Metadata := Metadata t; CreatedAt := CreatedAt t; UpdatedAt := now |}.

Definition set_balance (b : Z) (now : Z) (a : Account) : Account :=
  {| acc_ID := acc_ID a; acc_CreatedAt := acc_CreatedAt a; acc_UpdatedAt := now;
     acc_Currency := acc_Currency a; acc_BalanceCents := b; acc_Status := acc_Status a |}.

(** [SELECT ... FROM transactions WHERE id = $1]. *)
Definition select_transaction (db : DB) (id : UUID) : option Transaction :=
  find (fun t => N.eqb (ID t) id) (transactions db).

(** [SELECT ... FROM accounts WHERE id = $1]. *)
Definition select_account (db : DB) (id : UUID) : option Account :=
  find (fun a => N.eqb (acc_ID a) id) (accounts db).

(** The number of [processed_events] rows of an envelope id. *)
Definition processed_rows (db : DB) (event_id : UUID) : nat :=
  List.length (filter (fun r => N.eqb (pe_event_id r) event_id) (processed_events db)).


End Store.
Import Store.

(** ** worker/internal/processor: the Applier *)

Module Processor.

(** The database calls of [ProcessTransactionCreated], in source order. *)
Inductive Stmt :=
| CheckProcessed      (* SELECT event_id FROM processed_events *)
| BeginTx             (* db.BeginTx *)
| InsertProcessed     (* INSERT INTO processed_events ... ON CONFLICT DO NOTHING *)
| UpdateProcessing    (* UPDATE transactions SET status = 'PROCESSING' *)
| LockAccount         (* SELECT ... FROM accounts ... FOR UPDATE *)
| MarkFailed          (* UPDATE transactions SET status = 'FAILED' *)
| UpdateBalance       (* UPDATE accounts SET balance_cents *)
| MarkProcessed       (* UPDATE transactions SET status = 'PROCESSED' *)
| Commit.             (* tx.Commit *)

(** Which calls fail in one run, and with which driver error. *)
Definition Faults := Stmt -> option string.
Definition no_faults : Faults := fun _ => None.

(** [SELECT event_id FROM processed_events WHERE event_id = $1]. *)
Definition select_processed_event (db : DB) (event_id : UUID) : option UUID :=
  option_map pe_event_id
    (find (fun r => N.eqb (pe_event_id r) event_id) (processed_events db)).

(** [INSERT INTO processed_events (event_id, transaction_id) VALUES ($1, $2)
    ON CONFLICT (event_id) DO NOTHING]; returns the rows affected. *)
Definition insert_processed_event (tx : DB) (event_id transaction_id : UUID) (now : Z)
    : Z * DB :=
  if existsb (fun r => N.eqb (pe_event_id r) event_id) (processed_events tx)
  then (0, tx)
  else (1, with_processed_events tx
             (processed_events tx ++
              [{| pe_event_id := event_id; pe_transaction_id := transaction_id;
                  pe_processed_at := now |}])).

(** [UPDATE transactions SET status = 'PROCESSING', updated_at = NOW()
    WHERE id = $1 AND status = 'PENDING']. *)
Definition update_status_processing (tx : DB) (transaction_id : UUID) (now : Z) : DB :=
  with_transactions tx
    (update_where
       (fun t => N.eqb (ID t) transaction_id && status_eqb (Status t) TransactionStatusPending)
       (fun t => set_status TransactionStatusProcessing (FailureReason t) now t)
       (transactions tx)).

(** [SELECT balance_cents, currency FROM accounts WHERE id = $1 FOR UPDATE]. *)
Definition lock_account (tx : DB) (account_id : UUID) : option (Z * string) :=
  option_map (fun a => (acc_BalanceCents a, acc_Currency a)) (select_account tx account_id).

(** [UPDATE transactions SET status = 'FAILED', failure_reason = $1,
    updated_at = NOW() WHERE id = $2]. *)
Definition mark_failed (tx : DB) (failure_reason : string) (transaction_id : UUID) (now : Z)
    : DB :=
  with_transactions tx
    (update_where (fun t => N.eqb (ID t) transaction_id)
       (set_status TransactionStatusFailed (Some failure_reason) now)
       (transactions tx)).

(** [UPDATE accounts SET balance_cents = $1, updated_at = NOW() WHERE id = $2]. *)
Definition update_balance (tx : DB) (new_balance : Z) (account_id : UUID) (now : Z) : DB :=
  with_accounts tx
    (update_where (fun a => N.eqb (acc_ID a) account_id)
       (set_balance new_balance now) (accounts tx)).

(** [UPDATE transactions SET status = 'PROCESSED', updated_at = NOW()
    WHERE id = $1]. *)
Definition mark_processed (tx : DB) (transaction_id : UUID) (now : Z) : DB :=
  with_transactions tx
    (update_where (fun t => N.eqb (ID t) transaction_id)
       (fun t => set_status TransactionStatusProcessed (FailureReason t) now t)
       (transactions tx)).

(** A [tx.Commit()] whose error the caller drops: the copy is published
    when the commit succeeds, and lost when it does not. *)
Definition commit_unchecked (f : Faults) (db tx : DB) : DB :=
  match f Commit with
  | Some _ => db
  | None => tx
  end.

(** The new balance the applier computes (source lines 133-139). *)
Definition new_balance (payload : TransactionCreatedPayload) (currentBalance : Z) : Z :=
  if String.eqb (p_Type payload) TransactionTypeCredit
  then Int64.add currentBalance (p_AmountCents payload)
  else Int64.sub currentBalance (p_AmountCents payload).

(** The text stored in [failure_reason] on a failed debit. *)
Definition insufficient_balance_reason (currentBalance amount : Z) : string :=
  "insufficient balance: current=" ++ Fmt.d currentBalance ++ ", debit=" ++ Fmt.d amount.

(** The pair [(shouldRetry, error)] returned by the processor, and the
    database it leaves behind. *)
Definition Outcome : Type := (bool * option string) * DB.

Definition retryable (msg cause : string) (db : DB) : Outcome :=
  ((true, Some (msg ++ ": " ++ cause)), db).

Section WithJSON.

(** [json.Unmarshal] into a [TransactionCreatedPayload]. *)
Variable json_Unmarshal : RawMessage -> result TransactionCreatedPayload.

(** A database call that returns "retry" with the wrapped driver error
    when it fails; [db] is the state the deferred rollback restores. *)
Notation "'attempt' s 'of' f 'or' msg 'restoring' db ';' k" :=
  (match f s with
   | Some cause => retryable msg cause db
   | None => k
   end)
  (at level 10, s at level 9, f at level 9, msg at level 9, db at level 9,
   k at level 200, only parsing).

(** Source lines 66-196: the part of [ProcessTransactionCreated] that
    runs inside the SQL transaction, on the copy [tx] of [db]. *)
Definition applyInTransaction (f : Faults) (now : Z) (db : DB)
    (envelope : EventEnvelope) (payload : TransactionCreatedPayload) : Outcome :=
  attempt BeginTx of f or "failed to begin transaction" restoring db;
  let tx := db in
  attempt InsertProcessed of f or "failed to insert processed event" restoring db;
  let '(rowsAffected, tx) :=
    insert_processed_event tx (EventID envelope) (p_TransactionID payload) now in
  if rowsAffected =? 0 then
    (* Another worker processed it - no-op *)
    ((false, None), commit_unchecked f db tx)
  else
  attempt UpdateProcessing of f or "failed to update transaction status" restoring db;
  let tx := update_status_processing tx (p_TransactionID payload) now in
  attempt LockAccount of f or "failed to lock account" restoring db;
  match lock_account tx (p_AccountID payload) with
  | None => ((false, Some "account not found"), db)
  | Some (currentBalance, accountCurrency) =>
    if negb (String.eqb accountCurrency (p_Currency payload)) then
      ((false, Some ("currency mismatch: account=" ++ accountCurrency
                       ++ ", transaction=" ++ p_Currency payload)), db)
    else
    let newBalance := new_balance payload currentBalance in
    if (newBalance <? 0) && String.eqb (p_Type payload) TransactionTypeDebit then
      let failureReason :=
        insufficient_balance_reason currentBalance (p_AmountCents payload) in
      attempt MarkFailed of f or "failed to mark transaction as failed" restoring db;
      let tx := mark_failed tx failureReason (p_TransactionID payload) now in
      ((false, Some ("insufficient balance: " ++ failureReason)),
       commit_unchecked f db tx)
    else
    attempt UpdateBalance of f or "failed to update balance" restoring db;
    let tx := update_balance tx newBalance (p_AccountID payload) now in
    attempt MarkProcessed of f or "failed to mark transaction as processed" restoring db;
    let tx := mark_processed tx (p_TransactionID payload) now in
    attempt Commit of f or "failed to commit transaction" restoring db;
    ((false, None), tx)
  end.

(** [ProcessTransactionCreated]: returns [(shouldRetry, error)]. *)
Definition ProcessTransactionCreated (f : Faults) (now : Z) (db : DB)
    (envelope : EventEnvelope) : Outcome :=
  match json_Unmarshal (Payload envelope) with
  | Err e => ((false, Some ("failed to unmarshal payload: " ++ e)), db)
  | Ok payload =>
    (* Check idempotency: has this event been processed? *)
    attempt CheckProcessed of f or "failed to check idempotency" restoring db;
    match select_processed_event db (EventID envelope) with
    | Some _ => ((false, None), db)
    | None => applyInTransaction f now db envelope payload
    end
  end.

(** One delivery of an envelope: the faults of that run and its clock. *)
Definition Delivery : Type := Faults * Z.

(** [K] deliveries of the same envelope, one after the other. *)
Fixpoint deliver (db : DB) (envelope : EventEnvelope) (ds : list Delivery) : DB :=
  match ds with
  | [] => db
  | (f, now) :: rest =>
    deliver (snd (ProcessTransactionCreated f now db envelope)) envelope rest
  end.

End WithJSON.

(** What a client reads back. *)
Definition status_of (db : DB) (transaction_id : UUID) : option TransactionStatus :=
  option_map Status (select_transaction db transaction_id).

Definition failure_reason_of (db : DB) (transaction_id : UUID) : option (option string) :=
  option_map FailureReason (select_transaction db transaction_id).

Definition balance_of (db : DB) (account_id : UUID) : option Z :=
  option_map acc_BalanceCents (select_account db account_id).

(** The two databases a run of [ProcessTransactionCreated] can commit,
    besides the one it started from: the one of an applied envelope and
    the one of a debit refused for insufficient balance. *)
Definition claimed (db : DB) (envelope : EventEnvelope)
    (payload : TransactionCreatedPayload) (now : Z) : DB :=
  update_status_processing
    (snd (insert_processed_event db (EventID envelope) (p_TransactionID payload) now))
    (p_TransactionID payload) now.

Definition applied (db : DB) (envelope : EventEnvelope)
    (payload : TransactionCreatedPayload) (now : Z) (currentBalance : Z) : DB :=
  mark_processed
    (update_balance (claimed db envelope payload now)
       (new_balance payload currentBalance) (p_AccountID payload) now)
    (p_TransactionID payload) now.

Definition refused (db : DB) (envelope : EventEnvelope)
    (payload : TransactionCreatedPayload) (now : Z) (currentBalance : Z) : DB :=
  mark_failed (claimed db envelope payload now)
    (insufficient_balance_reason currentBalance (p_AmountCents payload))
    (p_TransactionID payload) now.

Section Outcomes.

Variable now : Z.
Variable db : DB.
Variable envelope : EventEnvelope.
Variable payload : TransactionCreatedPayload.

(** What one delivery of an envelope that is not recorded can leave. *)
Inductive committed : Outcome -> Prop :=
| Nothing (r : bool * option string) :
    committed (r, db)
| Applied (currentBalance : Z) :
    lock_account db (p_AccountID payload) = Some (currentBalance, p_Currency payload) ->
    ((new_balance payload currentBalance <? 0)
       && String.eqb (p_Type payload) TransactionTypeDebit) = false ->
    committed ((false, None), applied db envelope payload now currentBalance)
| Refused (currentBalance : Z) :
    lock_account db (p_AccountID payload) = Some (currentBalance, p_Currency payload) ->
    new_balance payload currentBalance < 0 ->
    p_Type payload = TransactionTypeDebit ->
    committed
      ((false, Some ("insufficient balance: "
                       ++ insufficient_balance_reason currentBalance
                            (p_AmountCents payload))),
       refused db envelope payload now currentBalance).

End Outcomes.


End Processor.

(** ** api/internal/service: the Ingress *)

Module Service.

(** The database and encoding calls of [CreateTransaction], in source
    order. *)
Inductive Stmt :=
| BeginTx             (* db.BeginTx *)
| CheckExisting       (* SELECT ... WHERE account_id = $1 AND idempotency_key = $2 *)
| SelectAccount       (* SELECT status FROM accounts *)
| InsertTransaction   (* INSERT INTO transactions ... RETURNING ... *)
| ReRead              (* the same SELECT on the same tx, after a unique violation *)
| InsertOutbox        (* INSERT INTO outbox_events *)
| Commit.             (* tx.Commit *)

Definition Faults := Stmt -> option string.
Definition no_faults : Faults := fun _ => None.

(** The error text the code compares with, source line 139. *)
Definition unique_violation : string :=
  "pq: duplicate key value violates unique constraint "
    ++ Fmt.dquote ++ "transactions_account_id_idempotency_key_key" ++ Fmt.dquote.

Definition transactions_pkey_violation : string :=
  "pq: duplicate key value violates unique constraint "
    ++ Fmt.dquote ++ "transactions_pkey" ++ Fmt.dquote.

Definition outbox_pkey_violation : string :=
  "pq: duplicate key value violates unique constraint "
    ++ Fmt.dquote ++ "outbox_events_pkey" ++ Fmt.dquote.

(** [sql.ErrNoRows]. *)
Definition ErrNoRows : string := "sql: no rows in result set".

(** What PostgreSQL answers to every statement sent on a transaction in
    which a statement has failed, until the transaction is rolled back. *)
Definition aborted_transaction : string :=
  "pq: current transaction is aborted, commands ignored until end of transaction block".

Definition same_key (account_id : UUID) (idempotency_key : string) (t : Transaction) : bool :=
  N.eqb (AccountID t) account_id && String.eqb (IdempotencyKey t) idempotency_key.

(** [SELECT ... FROM transactions WHERE account_id = $1 AND
    idempotency_key = $2 LIMIT 1]. *)
Definition select_by_key (tx : DB) (account_id : UUID) (idempotency_key : string)
    : option Transaction :=
  find (same_key account_id idempotency_key) (transactions tx).

(** [INSERT INTO transactions ... RETURNING ...], under the primary key
    and [UNIQUE (account_id, idempotency_key)]. *)
Definition insert_transaction (f : Faults) (tx : DB) (row : Transaction)
    : result (Transaction * DB) :=
  match f InsertTransaction with
  | Some cause => Err cause
  | None =>
    if existsb (fun t => N.eqb (ID t) (ID row)) (transactions tx) then
      Err transactions_pkey_violation
    else if existsb (same_key (AccountID row) (IdempotencyKey row)) (transactions tx) then
      Err unique_violation
    else Ok (row, with_transactions tx (transactions tx ++ [row]))
  end.

(** [INSERT INTO outbox_events ...], under the primary key. *)
Definition insert_outbox (f : Faults) (tx : DB) (row : OutboxEvent) : result DB :=
  match f InsertOutbox with
  | Some cause => Err cause
  | None =>
    if existsb (fun o => N.eqb (ob_id o) (ob_id row)) (outbox_events tx) then
      Err outbox_pkey_violation
    else Ok (with_outbox_events tx (outbox_events tx ++ [row]))
  end.

Definition created_payload (transaction : Transaction) : TransactionCreatedPayload :=
  {| p_TransactionID := ID transaction;
     p_AccountID := AccountID transaction;
     p_AmountCents := AmountCents transaction;
     p_Currency := Currency transaction;
     p_Type := Type_ transaction;
     p_IdempotencyKey := IdempotencyKey transaction;
     p_Metadata := Metadata transaction |}.

Definition outbox_row (outboxID : UUID) (transaction : Transaction)
    (payloadBytes : RawMessage) (now : Z) : OutboxEvent :=
  {| ob_id := outboxID; ob_aggregate_type := "transaction";
     ob_aggregate_id := ID transaction; ob_event_type := "transaction.created";
     ob_payload := payloadBytes; ob_status := "PENDING"; ob_created_at := now;
     ob_published_at := None; ob_publish_attempts := 0; ob_last_error := None |}.

Definition new_transaction (txID : UUID) (req : CreateTransactionRequest) (now : Z)
    : Transaction :=
  {| ID := txID; AccountID := req_AccountID req; AmountCents := req_AmountCents req;
     Currency := req_Currency req; Type_ := req_Type req;
     Status := TransactionStatusPending; IdempotencyKey := req_IdempotencyKey req;
     FailureReason := None;
     (* Handle metadata - convert empty to nil for JSONB *)
     Metadata := if (String.length (req_Metadata req) =? 0)%nat then None
                 else Some (req_Metadata req);
     CreatedAt := now; UpdatedAt := now |}.

Section WithJSON.

(** [json.Marshal] of a [TransactionCreatedPayload]. *)
Variable json_Marshal : TransactionCreatedPayload -> result RawMessage.

(** [CreateTransaction].  [txID] and [outboxID] are the two values of
    [uuid.New()]; [interleaved] is what other sessions commit between
    this call's reads and its [INSERT] (the identity when the call runs
    alone).  Returns the transaction or the error, and the database
    after the call. *)
Definition CreateTransaction (f : Faults) (now : Z) (txID outboxID : UUID)
    (interleaved : DB -> DB) (db : DB) (req : CreateTransactionRequest)
    : result Transaction * DB :=
  match f BeginTx with
  | Some cause => (Err ("failed to begin transaction: " ++ cause), db)
  | None =>
  match f CheckExisting with
  | Some cause => (Err ("failed to check idempotency: " ++ cause), db)
  | None =>
  match select_by_key db (req_AccountID req) (req_IdempotencyKey req) with
  | Some existingTx =>
    (* Idempotent request - return existing transaction *)
    (Ok existingTx, db)
  | None =>
  match f SelectAccount with
  | Some cause => (Err ("failed to validate account: " ++ cause), db)
  | None =>
  match select_account db (req_AccountID req) with
  | None => (Err "account not found", db)
  | Some account =>
  if negb (String.eqb (acc_Status account) AccountStatusActive) then
    (Err "account is not active", db)
  else if req_AmountCents req <=? 0 then
    (Err "amount must be positive", db)
  else
  let db := interleaved db in
  match insert_transaction f db (new_transaction txID req now) with
  | Err e =>
    if String.eqb e unique_violation then
      (* Another request created it - fetch and return *)
      (* The SELECT is sent on [tx], the transaction in which the INSERT
         has just failed: PostgreSQL refuses it whatever the table holds,
         so [err] is again an error and the call returns it. *)
      match f ReRead with
      | Some cause => (Err ("failed to create transaction: " ++ cause), db)
      | None => (Err ("failed to create transaction: " ++ aborted_transaction), db)
      end
    else (Err ("failed to create transaction: " ++ e), db)
  | Ok (transaction, tx) =>
  match json_Marshal (created_payload transaction) with
  | Err e => (Err ("failed to marshal payload: " ++ e), db)
  | Ok payloadBytes =>
  match insert_outbox f tx (outbox_row outboxID transaction payloadBytes now) with
  | Err e => (Err ("failed to create outbox event: " ++ e), db)
  | Ok tx =>
  match f Commit with
  | Some cause => (Err ("failed to commit transaction: " ++ cause), db)
  | None => (Ok transaction, tx)
  end end end end end end end end end.

(** The inputs of one call that do not come from the database. *)
Record Args := {
  a_faults : Faults;
  a_now : Z;
  a_txID : UUID;
  a_outboxID : UUID;
  a_req : CreateTransactionRequest
}.

(** A call that runs alone. *)
Definition call_alone (a : Args) (db : DB) : result Transaction * DB :=
  CreateTransaction (a_faults a) (a_now a) (a_txID a) (a_outboxID a) (fun d => d) db (a_req a).

(** A call, and possibly another request that commits while it runs. *)
Record Call := {
  c_args : Args;
  c_concurrent : option Args
}.

Definition interleaving (c : Call) : DB -> DB :=
  match c_concurrent c with
  | None => fun d => d
  | Some other => fun d => snd (call_alone other d)
  end.

Definition call (c : Call) (db : DB) : result Transaction * DB :=
  let a := c_args c in
  CreateTransaction (a_faults a) (a_now a) (a_txID a) (a_outboxID a)
    (interleaving c) db (a_req a).

(** [M] calls, one after the other: what each returned, and the final
    database. *)
Fixpoint calls (cs : list Call) (db : DB) : list (result Transaction) * DB :=
  match cs with
  | [] => ([], db)
  | c :: rest =>
    let '(r, db1) := call c db in
    let '(rs, db2) := calls rest db1 in
    (r :: rs, db2)
  end.

End WithJSON.

(** [UNIQUE (account_id, idempotency_key)] on [transactions]. *)
Definition unique_keys (db : DB) : Prop :=
  NoDup (map (fun t => (AccountID t, IdempotencyKey t)) (transactions db)).

(** The number of transaction rows of a key. *)
Definition rows_of_key (db : DB) (account_id : UUID) (idempotency_key : string) : nat :=
  List.length (filter (same_key account_id idempotency_key) (transactions db)).

(** The outbox rows that a transaction is the aggregate of. *)
Definition outbox_of (db : DB) (transaction_id : UUID) : list OutboxEvent :=
  filter (fun o => String.eqb (ob_aggregate_type o) "transaction"
                   && N.eqb (ob_aggregate_id o) transaction_id)
         (outbox_events db).

(** Every transaction has exactly one outbox row, and every outbox row of
    aggregate type "transaction" has its transaction. *)
Definition coupled (db : DB) : Prop :=
  NoDup (map ID (transactions db)) /\
  (forall t, In t (transactions db) -> List.length (outbox_of db (ID t)) = 1%nat) /\
  (forall o, In o (outbox_events db) -> ob_aggregate_type o = "transaction" ->
             exists t, In t (transactions db) /\ ID t = ob_aggregate_id o).

Section Outcomes.

Variable json_Marshal : TransactionCreatedPayload -> result RawMessage.
Variable now : Z.
Variable txID outboxID : UUID.
Variable interleaved : DB -> DB.
Variable db : DB.
Variable req : CreateTransactionRequest.

Abbreviation row := (new_transaction txID req now).

(** The database of a call that inserted: the one it wrote on, with the
    transaction row and its outbox row appended. *)
Definition inserted (base : DB) (payloadBytes : RawMessage) : DB :=
  with_outbox_events
    (with_transactions base (transactions base ++ [row]))
    (outbox_events base ++ [outbox_row outboxID row payloadBytes now]).

(** The ways [CreateTransaction] ends. *)
Inductive ended : result Transaction * DB -> Prop :=
| Replayed (existingTx : Transaction) :
    select_by_key db (req_AccountID req) (req_IdempotencyKey req) = Some existingTx ->
    ended (Ok existingTx, db)
| Rejected (e : string) :
    ended (Err e, db)
| Failed (e : string) :
    ended (Err e, interleaved db)
| Inserted (payloadBytes : RawMessage) :
    select_by_key db (req_AccountID req) (req_IdempotencyKey req) = None ->
    existsb (fun t => N.eqb (ID t) txID) (transactions (interleaved db)) = false ->
    existsb (same_key (req_AccountID req) (req_IdempotencyKey req))
      (transactions (interleaved db)) = false ->
    existsb (fun o => N.eqb (ob_id o) outboxID) (outbox_events (interleaved db)) = false ->
    json_Marshal (created_payload row) = Ok payloadBytes ->
    ended (Ok row, inserted (interleaved db) payloadBytes).

End Outcomes.

(** The transaction rows of [d] are the first rows of [d'], unchanged. *)
Definition extends (d d' : DB) : Prop :=
  exists extra, transactions d' = (transactions d ++ extra)%list.

Definition keeps (d d' : DB) : Prop :=
  extends d d' /\ (unique_keys d -> unique_keys d') /\ (coupled d -> coupled d').

(** The requests of all calls name the same account and idempotency key. *)
Definition same_request_key (account_id : UUID) (key : string) (cs : list Call) : Prop :=
  Forall (fun c => req_AccountID (a_req (c_args c)) = account_id /\
                   req_IdempotencyKey (a_req (c_args c)) = key) cs.

End Service.

(** ** The message log *)

Module Kafka.

Record Header := { h_Key : string; h_Value : string }.

Record Message := {
  Key : string;
  Value : string;
  Headers : list Header;
  Partition : Z;
  Offset : Z
}.

(** What a service did to the log, oldest first: a message a writer
    produced and the brokers acknowledged, an offset a reader committed,
    and the pauses between attempts. *)
Inductive Op :=
| Produce (topic : string) (m : Message)
| CommitOffset (m : Message)
| Sleep (d : Z).

Definition is_commit (o : Op) : bool :=
  match o with CommitOffset _ => true | _ => false end.

Definition is_produce (o : Op) : bool :=
  match o with Produce _ _ => true | _ => false end.

End Kafka.

(** ** publisher/internal/publisher: the Relay *)

Module Publisher.

Record outboxEvent := {
  oe_ID : UUID;
  oe_AggregateType : string;
  oe_AggregateID : UUID;
  oe_EventType : string;
  oe_Payload : RawMessage;
  oe_CreatedAt : Z
}.

Section WithCodecs.

Variable json_Unmarshal : RawMessage -> result TransactionCreatedPayload.
Variable json_Marshal : EventEnvelope -> result string.
Variable uuid_String : UUID -> string.

(** Source lines 138-155 of [publishEvent]: the envelope of an outbox
    row; [fresh] is the value of [uuid.New()]. *)
Definition envelope_of (fresh : UUID) (event : outboxEvent) : EventEnvelope :=
  {| EventID := fresh;
     EventType := oe_EventType event;
     OccurredAt := oe_CreatedAt event;
     TraceID := "";
     env_IdempotencyKey :=
       (* Extract idempotency key from payload if it's a transaction event *)
       if String.eqb (oe_EventType event) "transaction.created" then
         match json_Unmarshal (oe_Payload event) with
         | Ok payload => p_IdempotencyKey payload
         | Err _ => ""
         end
       else "";
     AggregateID := oe_AggregateID event;
     Payload := oe_Payload event |}.

(** [publishEvent]: [write_fault] is the error of [WriteMessages], if
    any; the log grows by the message when the write succeeds. *)
Definition publishEvent (fresh : UUID) (write_fault : option string) (topic : string)
    (event : outboxEvent) (log : list Kafka.Op) : option string * list Kafka.Op :=
  let envelope := envelope_of fresh event in
  match json_Marshal envelope with
  | Err e => (Some ("failed to marshal envelope: " ++ e), log)
  | Ok envelopeBytes =>
    let message :=
      {| Kafka.Key := uuid_String (oe_AggregateID event);
         Kafka.Value := envelopeBytes;
         Kafka.Headers :=
           [ {| Kafka.h_Key := "event_type"; Kafka.h_Value := oe_EventType event |};
             {| Kafka.h_Key := "aggregate_id";
                Kafka.h_Value := uuid_String (oe_AggregateID event) |} ];
         Kafka.Partition := 0; Kafka.Offset := 0 |} in
    match write_fault with
    | Some cause => (Some ("failed to write message: " ++ cause), log)
    | None => (None, (log ++ [Kafka.Produce topic message])%list)
    end
  end.

(** What the outside world answers during one tick of the relay, for the
    outbox row with a given id: the value of [uuid.New()], and the errors,
    if any, of the write to the log and of the two [UPDATE]s. *)
Record Tick := {
  query_fault : option string;
  fresh_uuid : UUID -> UUID;
  write_fault : UUID -> option string;
  mark_fault : UUID -> option string;
  error_fault : UUID -> option string;
  tick_now : Z
}.

Definition set_published (now : Z) (o : OutboxEvent) : OutboxEvent :=
  {| ob_id := ob_id o; ob_aggregate_type := ob_aggregate_type o;
     ob_aggregate_id := ob_aggregate_id o; ob_event_type := ob_event_type o;
     ob_payload := ob_payload o; ob_status := "PUBLISHED"; ob_created_at := ob_created_at o;
     ob_published_at := Some now; ob_publish_attempts := ob_publish_attempts o;
     ob_last_error := ob_last_error o |}.

Definition set_error (errorMsg : string) (o : OutboxEvent) : OutboxEvent :=
  {| ob_id := ob_id o; ob_aggregate_type := ob_aggregate_type o;
     ob_aggregate_id := ob_aggregate_id o; ob_event_type := ob_event_type o;
     ob_payload := ob_payload o; ob_status := ob_status o; ob_created_at := ob_created_at o;
     ob_published_at := ob_published_at o;
     ob_publish_attempts := ob_publish_attempts o + 1;
     ob_last_error := Some errorMsg |}.

(** [markAsPublished]. *)
Definition markAsPublished (t : Tick) (db : DB) (eventID : UUID) : option string * DB :=
  match mark_fault t eventID with
  | Some cause => (Some cause, db)
  | None =>
    (None, with_outbox_events db
             (update_where (fun o => N.eqb (ob_id o) eventID) (set_published (tick_now t))
                (outbox_events db)))
  end.

(** [updateEventError]. *)
Definition updateEventError (t : Tick) (db : DB) (eventID : UUID) (errorMsg : string)
    : option string * DB :=
  match error_fault t eventID with
  | Some cause => (Some cause, db)
  | None =>
    (None, with_outbox_events db
             (update_where (fun o => N.eqb (ob_id o) eventID) (set_error errorMsg)
                (outbox_events db)))
  end.

(** [ORDER BY created_at ASC]. *)
Fixpoint insert_by_created_at (o : OutboxEvent) (sorted : list OutboxEvent)
    : list OutboxEvent :=
  match sorted with
  | [] => [o]
  | x :: rest =>
    if ob_created_at x <? ob_created_at o then x :: insert_by_created_at o rest
    else o :: sorted
  end.

Definition order_by_created_at (rows : list OutboxEvent) : list OutboxEvent :=
  fold_right insert_by_created_at [] rows.

(** [SELECT ... FROM outbox_events WHERE status = 'PENDING'
    ORDER BY created_at ASC LIMIT $1 FOR UPDATE SKIP LOCKED], scanned into
    [outboxEvent] values. *)
Definition select_pending (db : DB) (batchSize : Z) : list outboxEvent :=
  map (fun o => {| oe_ID := ob_id o; oe_AggregateType := ob_aggregate_type o;
                   oe_AggregateID := ob_aggregate_id o; oe_EventType := ob_event_type o;
                   oe_Payload := ob_payload o; oe_CreatedAt := ob_created_at o |})
      (firstn (Z.to_nat batchSize)
         (order_by_created_at
            (filter (fun o => String.eqb (ob_status o) "PENDING") (outbox_events db)))).

(** The loop of [publishBatch] over the fetched events. *)
Fixpoint publish_each (t : Tick) (topic : string) (events : list outboxEvent)
    (db : DB) (log : list Kafka.Op) : DB * list Kafka.Op :=
  match events with
  | [] => (db, log)
  | event :: rest =>
    match publishEvent (fresh_uuid t (oe_ID event)) (write_fault t (oe_ID event))
            topic event log with
    | (Some err, log) =>
      (* Update error in DB but continue with other events *)
      publish_each t topic rest (snd (updateEventError t db (oe_ID event) err)) log
    | (None, log) =>
      (* Mark as published *)
      publish_each t topic rest (snd (markAsPublished t db (oe_ID event))) log
    end
  end.

(** [publishBatch]: one tick of the relay. *)
Definition publishBatch (t : Tick) (batchSize : Z) (topic : string)
    (db : DB) (log : list Kafka.Op) : option string * (DB * list Kafka.Op) :=
  match query_fault t with
  | Some cause => (Some ("failed to query outbox events: " ++ cause), (db, log))
  | None => (None, publish_each t topic (select_pending db batchSize) db log)
  end.

End WithCodecs.

End Publisher.

(** ** worker/internal/consumer *)

Module Consumer.

Section WithCodecs.

Variable json_Unmarshal_envelope : string -> result EventEnvelope.
Variable json_Unmarshal_payload : RawMessage -> result TransactionCreatedPayload.

(** The fields of [KafkaConsumer] that [processMessage] reads. *)
Record KafkaConsumer := {
  maxRetries : Z;
  retryBackoff : Z;
  dlqTopic : string
}.

(** What the outside world answers during one [processMessage]: the
    faults and clock of each processing attempt, and the errors of the
    DLQ write and of the offset commit, if any. *)
Record Environment := {
  attempt_faults : Z -> Processor.Faults;
  attempt_clock : Z -> Z;
  dlq_fault : option string;
  commit_fault : option string
}.

(** The state the consumer acts on: the database and the log. *)
Definition World : Type := DB * list Kafka.Op.

(** [sendToDLQ]. *)
Definition dlq_message (originalMsg : Kafka.Message) (err : string) : Kafka.Message :=
  {| Kafka.Key := Kafka.Key originalMsg;
     Kafka.Value := Kafka.Value originalMsg;
     Kafka.Headers :=
       (Kafka.Headers originalMsg ++
        [ {| Kafka.h_Key := "dlq_reason"; Kafka.h_Value := err |};
          {| Kafka.h_Key := "original_partition";
             Kafka.h_Value := Fmt.d (Kafka.Partition originalMsg) |};
          {| Kafka.h_Key := "original_offset";
             Kafka.h_Value := Fmt.d (Kafka.Offset originalMsg) |} ])%list;
     Kafka.Partition := 0; Kafka.Offset := 0 |}.

Definition sendToDLQ (c : KafkaConsumer) (e : Environment) (originalMsg : Kafka.Message)
    (err : string) (log : list Kafka.Op) : option string * list Kafka.Op :=
  match dlq_fault e with
  | Some cause => (Some ("failed to write to DLQ: " ++ cause), log)
  | None => (None, (log ++ [Kafka.Produce (dlqTopic c) (dlq_message originalMsg err)])%list)
  end.

(** [reader.CommitMessages]. *)
Definition CommitMessages (e : Environment) (msg : Kafka.Message) (log : list Kafka.Op)
    : option string * list Kafka.Op :=
  match commit_fault e with
  | Some cause => (Some cause, log)
  | None => (None, (log ++ [Kafka.CommitOffset msg])%list)
  end.

(** The retry loop of [processMessage], source lines 121-139:
    [for attempt := 0; attempt < c.maxRetries && shouldRetry; attempt++].
    [remaining] counts the iterations left, [maxRetries - attempt]. *)
Fixpoint retry_loop (c : KafkaConsumer) (e : Environment) (envelope : EventEnvelope)
    (remaining : nat) (attempt : Z) (shouldRetry : bool) (lastErr : option string)
    (w : World) : (bool * option string) * World :=
  match remaining with
  | O => ((shouldRetry, lastErr), w)
  | S remaining' =>
    if negb shouldRetry then ((shouldRetry, lastErr), w)
    else
      let '(db, log) := w in
      let log :=
        if 0 <? attempt then (log ++ [Kafka.Sleep (attempt * retryBackoff c)])%list else log in
      let '((shouldRetry, lastErr), db) :=
        Processor.ProcessTransactionCreated json_Unmarshal_payload
          (attempt_faults e attempt) (attempt_clock e attempt) db envelope in
      if negb shouldRetry then
        (* Success or non-retryable error *)
        ((shouldRetry, lastErr), (db, log))
      else retry_loop c e envelope remaining' (attempt + 1) shouldRetry lastErr (db, log)
  end.

(** [processMessage], after [FetchMessage] returned [msg]. *)
Definition processMessage (c : KafkaConsumer) (e : Environment) (msg : Kafka.Message)
    (w : World) : option string * World :=
  match json_Unmarshal_envelope (Kafka.Value msg) with
  | Err err =>
    (* Commit offset even for invalid messages (avoid infinite loop) *)
    let '(_, log) := CommitMessages e msg (snd w) in
    (Some err, (fst w, log))
  | Ok envelope =>
    let '((shouldRetry, lastErr), (db, log)) :=
      retry_loop c e envelope (Z.to_nat (maxRetries c)) 0 true None w in
    (* If still failed after retries, send to DLQ *)
    let dlq :=
      match shouldRetry, lastErr with
      | true, Some err => sendToDLQ c e msg err log
      | _, _ => (None, log)
      end in
    match dlq with
    | (Some err, log) =>
      (* Don't commit - will retry *)
      (Some err, (db, log))
    | (None, log) =>
      (* Commit offset *)
      match CommitMessages e msg log with
      | (Some err, log) => (Some ("failed to commit message: " ++ err), (db, log))
      | (None, log) => (None, (db, log))
      end
    end
  end.

End WithCodecs.

End Consumer.

(** ** net/http and strconv, as far as the handlers use them *)

Module Textproto.

(** [validHeaderFieldByte]: the characters of a header name, the letters,
    the digits and the punctuation of an RFC 7230 token. *)
Definition validHeaderFieldByte (c : ascii) : bool :=
  let n := nat_of_ascii c in
  (Nat.leb 48 n && Nat.leb n 57) || (Nat.leb 65 n && Nat.leb n 90)
  || (Nat.leb 97 n && Nat.leb n 122)
  || existsb (Nat.eqb n) [33; 35; 36; 37; 38; 39; 42; 43; 45; 46; 94; 95; 96; 124; 126]%nat.

Fixpoint valid (s : string) : bool :=
  match s with
  | EmptyString => true
  | String c rest => validHeaderFieldByte c && valid rest
  end.

Definition to_upper (c : ascii) : ascii :=
  let n := nat_of_ascii c in
  if Nat.leb 97 n && Nat.leb n 122 then ascii_of_nat (n - 32) else c.

Definition to_lower (c : ascii) : ascii :=
  let n := nat_of_ascii c in
  if Nat.leb 65 n && Nat.leb n 90 then ascii_of_nat (n + 32) else c.

(** The loop of [canonicalMIMEHeaderKey]: first letter upper case and
    upper case after each dash, the other letters lower case. *)
Fixpoint canonicalize (upper : bool) (s : string) : string :=
  match s with
  | EmptyString => EmptyString
  | String c rest =>
    let c := if upper then to_upper c else to_lower c in
    String c (canonicalize (Nat.eqb (nat_of_ascii c) 45) rest)
  end.

(** [textproto.CanonicalMIMEHeaderKey]: a name with a character that is
    not one of a header name is returned unchanged. *)
Definition CanonicalMIMEHeaderKey (s : string) : string :=
  if valid s then canonicalize true s else s.

End Textproto.

Module HTTP.

Definition StatusOK : Z := 200.
Definition StatusBadRequest : Z := 400.
Definition StatusUnauthorized : Z := 401.
Definition StatusInternalServerError : Z := 500.

(** The JSON documents the handlers encode: the object with the keys
    [transactions], [limit] and [offset], and the object with the key
    [error] and, when there is an error value, the key [details]. *)
Inductive JSON :=
| Listing (transactions : list Transaction) (limit offset : Z)
| Failure (error : string) (details : option string).

(** What was written to a response body. *)
Inductive Chunk :=
| Bytes (s : string)
| Encoded (v : JSON).

(** A request: its header lines, names and values as they were received
    and in that order, and its query parameters. *)
Record Request := {
  Header : list (string * string);
  Query : list (string * string)
}.

(** [url.Values.Get], and [Header.Get] on the map of a response, whose keys
    the handlers set: the first value of the key, or the empty string. *)
Fixpoint Get (kvs : list (string * string)) (key : string) : string :=
  match kvs with
  | [] => ""
  | (k, v) :: rest => if String.eqb k key then v else Get rest key
  end.

(** [r.Header.Get(key)] on a request: the server files every header line
    under the canonical form of its name and [Get] looks up the canonical
    form of [key], so this is the first value of a line whose name is [key]
    up to the case of its letters, or the empty string. *)
Fixpoint Header_Get (lines : list (string * string)) (key : string) : string :=
  match lines with
  | [] => ""
  | (name, v) :: rest =>
    if String.eqb (Textproto.CanonicalMIMEHeaderKey name) (Textproto.CanonicalMIMEHeaderKey key)
    then v
    else Header_Get rest key
  end.

Record ResponseWriter := {
  rw_Header : list (string * string);
  rw_Status : option Z;
  rw_Body : list Chunk
}.

Definition empty_response : ResponseWriter :=
  {| rw_Header := []; rw_Status := None; rw_Body := [] |}.

(** [w.Header().Set(key, value)]. *)
Definition Header_Set (w : ResponseWriter) (key value : string) : ResponseWriter :=
  {| rw_Header := (key, value)
                    :: filter (fun kv => negb (String.eqb (fst kv) key)) (rw_Header w);
     rw_Status := rw_Status w; rw_Body := rw_Body w |}.

(** [w.WriteHeader(status)]: the first status written stays. *)
Definition WriteHeader (w : ResponseWriter) (status : Z) : ResponseWriter :=
  {| rw_Header := rw_Header w;
     rw_Status := match rw_Status w with Some s => Some s | None => Some status end;
     rw_Body := rw_Body w |}.

(** [w.Write(...)] and [json.NewEncoder(w).Encode(...)]: a body written
    before any status implies 200. *)
Definition Write (w : ResponseWriter) (c : Chunk) : ResponseWriter :=
  {| rw_Header := rw_Header w;
     rw_Status := match rw_Status w with Some s => Some s | None => Some StatusOK end;
     rw_Body := (rw_Body w ++ [c])%list |}.

Definition Handler : Type := Request -> ResponseWriter -> ResponseWriter.

End HTTP.

Module Strconv.

Definition digit (c : ascii) : option Z :=
  let n := Z.of_nat (nat_of_ascii c) in
  if (48 <=? n) && (n <=? 57) then Some (n - 48) else None.

Fixpoint digits (s : string) (acc : Z) : option Z :=
  match s with
  | EmptyString => Some acc
  | String c rest =>
    match digit c with
    | Some d => digits rest (acc * 10 + d)
    | None => None
    end
  end.

(** [strconv.Atoi] with a 64-bit [int]: an optional sign, then decimal
    digits only; a value out of range is an error. *)
Definition Atoi (s : string) : result Z :=
  match s with
  | EmptyString => Err "invalid syntax"
  | String c rest =>
    let neg := Ascii.eqb c "-" in
    let body := if neg || Ascii.eqb c "+" then rest else s in
    match body with
    | EmptyString => Err "invalid syntax"
    | _ =>
      match digits body 0 with
      | None => Err "invalid syntax"
      | Some n =>
        let v := if neg then - n else n in
        if (Int64.min <=? v) && (v <=? Int64.max) then Ok v
        else Err "value out of range"
      end
    end
  end.

End Strconv.

Module Strings.

(** [strings.HasPrefix]. *)
Definition HasPrefix (s prefix : string) : bool := String.prefix prefix s.

(** [strings.TrimPrefix]. *)
Definition TrimPrefix (s prefix : string) : string :=
  if HasPrefix s prefix
  then String.substring (String.length prefix) (String.length s - String.length prefix) s
  else s.

End Strings.

(** ** shared/config *)

Module Config.

(** [os.Getenv]: the process environment, the empty string for an unset
    variable. *)
Definition Environ := string -> string.

Definition getEnv (environ : Environ) (key defaultValue : string) : string :=
  if negb (String.eqb (environ key) "") then environ key else defaultValue.

(** The field of [Config] the API routes read. *)
Record Config := { APIKey : string }.

Definition LoadConfig (environ : Environ) : Config :=
  {| APIKey := getEnv environ "API_KEY" "" |}.

End Config.

(** ** api/internal/middleware *)

Module Middleware.
Import HTTP.

(** The body the middleware writes on a rejected request. *)
Definition unauthorized_body : string :=
  "{" ++ Fmt.dquote ++ "error" ++ Fmt.dquote ++ ": "
      ++ Fmt.dquote ++ "Unauthorized" ++ Fmt.dquote ++ "}".

(** The key a request presents (source lines of [APIKeyAuth] that read
    the headers). *)
Definition presented_key (r : Request) : string :=
  let authHeader := Header_Get (Header r) "X-API-Key" in
  if String.eqb authHeader "" then
    let authHeader := Header_Get (Header r) "Authorization" in
    if Strings.HasPrefix authHeader "Bearer "
    then Strings.TrimPrefix authHeader "Bearer "
    else authHeader
  else authHeader.

Definition unauthorized (w : ResponseWriter) : ResponseWriter :=
  Write (WriteHeader (Header_Set w "Content-Type" "application/json") StatusUnauthorized)
        (Bytes unauthorized_body).

(** [APIKeyAuth]. *)
Definition APIKeyAuth (expectedKey : string) (next : Handler) : Handler :=
  fun r w =>
    if String.eqb expectedKey "" then
      (* No auth required *)
      next r w
    else
      let authHeader := presented_key r in
      if negb (String.eqb authHeader expectedKey) then unauthorized w
      else next r w.

(** The [/v1] route group of [main]: every handler of the group runs
    behind [APIKeyAuth(cfg.APIKey)]. *)
Definition v1 (cfg : Config.Config) (h : Handler) : Handler :=
  APIKeyAuth (Config.APIKey cfg) h.

End Middleware.

(** ** api/internal/handler *)

Module Handler.
Import HTTP.

Section WithService.

Variable uuid_Parse : string -> result UUID.

(** [h.transactionService.ListTransactions(ctx, accountID, limit, offset)]. *)
Variable ListTransactionsService : option UUID -> Z -> Z -> result (list Transaction).

Definition respondJSON (w : ResponseWriter) (status : Z) (data : JSON) : ResponseWriter :=
  Write (WriteHeader (Header_Set w "Content-Type" "application/json") status) (Encoded data).

Definition respondError (w : ResponseWriter) (status : Z) (message : string)
    (err : option string) : ResponseWriter :=
  Write (WriteHeader (Header_Set w "Content-Type" "application/json") status)
        (Encoded (Failure message err)).

(** The three query parameters as [ListTransactions] reads them. *)
Definition parse_limit (limitStr : string) : Z :=
  if negb (String.eqb limitStr "") then
    match Strconv.Atoi limitStr with
    | Ok l => if (0 <? l) && (l <=? 100) then l else 50
    | Err _ => 50
    end
  else 50.

Definition parse_offset (offsetStr : string) : Z :=
  if negb (String.eqb offsetStr "") then
    match Strconv.Atoi offsetStr with
    | Ok o => if 0 <=? o then o else 0
    | Err _ => 0
    end
  else 0.

Definition parse_account_id (accountIDStr : string) : option UUID :=
  if negb (String.eqb accountIDStr "") then
    match uuid_Parse accountIDStr with
    | Ok id => Some id
    | Err _ => None
    end
  else None.

(** [ListTransactions]: GET /v1/transactions. *)
Definition ListTransactions : Handler :=
  fun r w =>
    let accountIDStr := Get (Query r) "account_id" in
    let limitStr := Get (Query r) "limit" in
    let offsetStr := Get (Query r) "offset" in
    let limit := parse_limit limitStr in
    let offset := parse_offset offsetStr in
    let accountID := parse_account_id accountIDStr in
    match ListTransactionsService accountID limit offset with
    | Err e =>
      respondError w StatusInternalServerError "Failed to list transactions" (Some e)
    | Ok transactions =>
      respondJSON w StatusOK (Listing transactions limit offset)
    end.

End WithService.

End Handler.

(** ** api/internal/service: the queries and the accounts *)

Module Queries.

(** [GetTransaction]: [SELECT ... FROM transactions WHERE id = $1];
    [fault] is the driver error of the query, if any. *)
Definition GetTransaction (fault : option string) (db : DB) (transactionID : UUID)
    : result Transaction :=
  match fault with
  | Some cause => Err ("failed to get transaction: " ++ cause)
  | None =>
    match select_transaction db transactionID with
    | None => Err "transaction not found"
    | Some transaction => Ok transaction
    end
  end.

(** [ORDER BY created_at DESC]; rows of equal [created_at], whose order SQL
    leaves open, stay in table order. *)
Fixpoint insert_by_created_at_desc (t : Transaction) (sorted : list Transaction)
    : list Transaction :=
  match sorted with
  | [] => [t]
  | x :: rest =>
    if CreatedAt t <? CreatedAt x then x :: insert_by_created_at_desc t rest
    else t :: sorted
  end.

Definition order_by_created_at_desc (rows : list Transaction) : list Transaction :=
  fold_right insert_by_created_at_desc [] rows.

(** The two errors of [ListTransactions]: of the query and of a row scan. *)
Record ListFaults := {
  query_fault : option string;
  scan_fault : option string
}.

Definition no_list_faults : ListFaults := {| query_fault := None; scan_fault := None |}.

(** [ListTransactions]: the rows of the account (of all accounts when
    [accountID] is nil), newest first, [LIMIT limit OFFSET offset].
    PostgreSQL refuses a negative limit or offset. *)
Definition ListTransactions (f : ListFaults) (db : DB) (accountID : option UUID)
    (limit offset : Z) : result (list Transaction) :=
  match query_fault f with
  | Some cause => Err ("failed to query transactions: " ++ cause)
  | None =>
    if limit <? 0 then
      Err "failed to query transactions: pq: LIMIT must not be negative"
    else if offset <? 0 then
      Err "failed to query transactions: pq: OFFSET must not be negative"
    else
      let rows :=
        match accountID with
        | Some id => filter (fun t => N.eqb (AccountID t) id) (transactions db)
        | None => transactions db
        end in
      let page :=
        firstn (Z.to_nat limit) (skipn (Z.to_nat offset) (order_by_created_at_desc rows)) in
      match page, scan_fault f with
      | _ :: _, Some cause => Err ("failed to scan transaction: " ++ cause)
      | _, _ => Ok page
      end
  end.

(** A list of transactions is newest first. *)
Fixpoint newest_first (l : list Transaction) : Prop :=
  match l with
  | [] => True
  | t :: rest => (forall u, In u rest -> CreatedAt u <= CreatedAt t) /\ newest_first rest
  end.

End Queries.

Module AccountService.

Definition accounts_pkey_violation : string :=
  "pq: duplicate key value violates unique constraint "
    ++ Fmt.dquote ++ "accounts_pkey" ++ Fmt.dquote.

(** [CreateAccount]: [INSERT INTO accounts ... RETURNING ...] with balance 0
    and status ACTIVE; [id] is the value of [uuid.New()]. *)
Definition CreateAccount (fault : option string) (id : UUID) (now : Z) (db : DB)
    (currency : string) : result Account * DB :=
  match fault with
  | Some cause => (Err ("failed to create account: " ++ cause), db)
  | None =>
    if existsb (fun a => N.eqb (acc_ID a) id) (accounts db) then
      (Err ("failed to create account: " ++ accounts_pkey_violation), db)
    else
      let account :=
        {| acc_ID := id; acc_CreatedAt := now; acc_UpdatedAt := now;
           acc_Currency := currency; acc_BalanceCents := 0;
           acc_Status := AccountStatusActive |} in
      (Ok account, with_accounts db (accounts db ++ [account]))
  end.

(** [GetAccount]: [SELECT ... FROM accounts WHERE id = $1]. *)
Definition GetAccount (fault : option string) (db : DB) (accountID : UUID) : result Account :=
  match fault with
  | Some cause => Err ("failed to get account: " ++ cause)
  | None =>
    match select_account db accountID with
    | None => Err ("account not found: " ++ Service.ErrNoRows)
    | Some account => Ok account
    end
  end.

End AccountService.

(** ** api/internal/handler: the other endpoints *)

Module Endpoints.
Import HTTP.

Definition StatusCreated : Z := 201.
Definition StatusNotFound : Z := 404.

Section WithCodecs.

(** [json.NewDecoder(r.Body).Decode] into the two request types. *)
Variable decode_transaction : string -> result CreateTransactionRequest.
Variable decode_account : string -> result string.

(** [json.NewEncoder(w).Encode] of a transaction and of an account. *)
Variable encode_transaction : Transaction -> string.
Variable encode_account : Account -> string.

Variable uuid_Parse : string -> result UUID.
Variable json_Marshal : TransactionCreatedPayload -> result RawMessage.

(** [respondJSON] with a transaction or an account as [data]. *)
Definition respondDocument (w : ResponseWriter) (status : Z) (document : string)
    : ResponseWriter :=
  Write (WriteHeader (Header_Set w "Content-Type" "application/json") status) (Bytes document).

(** [TransactionHandler.CreateTransaction]: POST /v1/transactions with the
    body [body]; the first four arguments are those of the service call,
    which runs alone here: no other request commits while it runs. *)
Definition CreateTransaction (f : Service.Faults) (now : Z) (txID outboxID : UUID)
    (body : string) (db : DB) (w : ResponseWriter) : ResponseWriter * DB :=
  match decode_transaction body with
  | Err e => (Handler.respondError w StatusBadRequest "Invalid request body" (Some e), db)
  | Ok req =>
    (* Validate *)
    if N.eqb (req_AccountID req) uuid_Nil then
      (Handler.respondError w StatusBadRequest "account_id is required" None, db)
    else if req_AmountCents req <=? 0 then
      (Handler.respondError w StatusBadRequest "amount_cents must be positive" None, db)
    else if String.eqb (req_Currency req) "" then
      (Handler.respondError w StatusBadRequest "currency is required" None, db)
    else if String.eqb (req_IdempotencyKey req) "" then
      (Handler.respondError w StatusBadRequest "idempotency_key is required" None, db)
    else if negb (String.eqb (req_Type req) TransactionTypeDebit)
            && negb (String.eqb (req_Type req) TransactionTypeCredit) then
      (Handler.respondError w StatusBadRequest "type must be DEBIT or CREDIT" None, db)
    else
      match Service.CreateTransaction json_Marshal f now txID outboxID (fun d => d) db req with
      | (Err e, db) =>
        if String.eqb e "account not found" then
          (Handler.respondError w StatusNotFound "Account not found" (Some e), db)
        else if String.eqb e "account is not active" then
          (Handler.respondError w StatusBadRequest "Account is not active" (Some e), db)
        else
          (Handler.respondError w StatusInternalServerError "Failed to create transaction"
             (Some e), db)
      | (Ok transaction, db) =>
        (respondDocument w StatusCreated (encode_transaction transaction), db)
      end
  end.

(** [TransactionHandler.GetTransaction]: GET /v1/transactions/{id}. *)
Definition GetTransaction (fault : option string) (idParam : string) (db : DB)
    (w : ResponseWriter) : ResponseWriter :=
  match uuid_Parse idParam with
  | Err e => Handler.respondError w StatusBadRequest "Invalid transaction ID" (Some e)
  | Ok transactionID =>
    match Queries.GetTransaction fault db transactionID with
    | Err e =>
      if String.eqb e "transaction not found" then
        Handler.respondError w StatusNotFound "Transaction not found" (Some e)
      else
        Handler.respondError w StatusInternalServerError "Failed to get transaction" (Some e)
    | Ok transaction => respondDocument w StatusOK (encode_transaction transaction)
    end
  end.

(** [AccountHandler.CreateAccount]: POST /v1/accounts. *)
Definition CreateAccount (fault : option string) (id : UUID) (now : Z) (body : string)
    (db : DB) (w : ResponseWriter) : ResponseWriter * DB :=
  match decode_account body with
  | Err e => (Handler.respondError w StatusBadRequest "Invalid request body" (Some e), db)
  | Ok currency =>
    if String.eqb currency "" then
      (Handler.respondError w StatusBadRequest "Currency is required" None, db)
    else
      match AccountService.CreateAccount fault id now db currency with
      | (Err e, db) =>
        (Handler.respondError w StatusInternalServerError "Failed to create account" (Some e),
         db)
      | (Ok account, db) => (respondDocument w StatusCreated (encode_account account), db)
      end
  end.

(** [AccountHandler.GetAccount]: GET /v1/accounts/{id}. *)
Definition GetAccount (fault : option string) (idParam : string) (db : DB)
    (w : ResponseWriter) : ResponseWriter :=
  match uuid_Parse idParam with
  | Err e => Handler.respondError w StatusBadRequest "Invalid account ID" (Some e)
  | Ok accountID =>
    match AccountService.GetAccount fault db accountID with
    | Err e =>
      if String.eqb e "account not found: sql: no rows in result set" then
        Handler.respondError w StatusNotFound "Account not found" (Some e)
      else
        Handler.respondError w StatusInternalServerError "Failed to get account" (Some e)
    | Ok account => respondDocument w StatusOK (encode_account account)
    end
  end.

(** GET /v1/transactions served from the database. *)
Definition ListTransactions (f : Queries.ListFaults) (db : DB) : Handler :=
  Handler.ListTransactions uuid_Parse (Queries.ListTransactions f db).

End WithCodecs.

End Endpoints.

(** ** publisher/internal/publisher: the loop *)

Module Relay.
Import Publisher.

Section WithCodecs.

Variable json_Unmarshal : RawMessage -> result TransactionCreatedPayload.
Variable json_Marshal : EventEnvelope -> result string.
Variable uuid_String : UUID -> string.

(** [Start]: one [publishBatch] per tick of the ticker, until the context
    is done; an error of a batch is logged and the loop goes on. *)
Fixpoint Start (batchSize : Z) (topic : string) (ticks : list Tick)
    (db : DB) (log : list Kafka.Op) : DB * list Kafka.Op :=
  match ticks with
  | [] => (db, log)
  | t :: rest =>
    let '(_, (db, log)) :=
      publishBatch json_Unmarshal json_Marshal uuid_String t batchSize topic db log in
    Start batchSize topic rest db log
  end.

(** The message [publishEvent] writes for an event. *)
Definition message_of (fresh : UUID) (event : outboxEvent) (bytes : string) : Kafka.Message :=
  {| Kafka.Key := uuid_String (oe_AggregateID event);
     Kafka.Value := bytes;
     Kafka.Headers :=
       [ {| Kafka.h_Key := "event_type"; Kafka.h_Value := oe_EventType event |};
         {| Kafka.h_Key := "aggregate_id";
            Kafka.h_Value := uuid_String (oe_AggregateID event) |} ];
     Kafka.Partition := 0; Kafka.Offset := 0 |}.

End WithCodecs.

(** The outbox rows with a status. *)
Definition with_status (status : string) (db : DB) : list OutboxEvent :=
  filter (fun o => String.eqb (ob_status o) status) (outbox_events db).

(** The messages produced in a log. *)
Definition produced (log : list Kafka.Op) : list Kafka.Op := filter Kafka.is_produce log.

End Relay.

(** ** Columns no service rewrites *)

Module Columns.

(** The columns of an account besides its balance and [updated_at]. *)
Definition of_account (a : Account) : UUID * Z * string * AccountStatus :=
  (acc_ID a, acc_CreatedAt a, acc_Currency a, acc_Status a).

(** The columns of a transaction besides its status, failure reason and
    [updated_at]. *)
Definition of_transaction (t : Transaction)
    : UUID * UUID * Z * string * TransactionType * string * option RawMessage * Z :=
  (ID t, AccountID t, AmountCents t, Currency t, Type_ t, IdempotencyKey t, Metadata t,
   CreatedAt t).

(** The columns of an outbox row besides its status, [published_at], the
    attempt count and the last error. *)
Definition of_outbox (o : OutboxEvent) : UUID * string * UUID * string * RawMessage * Z :=
  (ob_id o, ob_aggregate_type o, ob_aggregate_id o, ob_event_type o, ob_payload o,
   ob_created_at o).

End Columns.

(** ** The pauses of the consumer *)

Module Backoff.

(** The pauses before the attempts numbered [1] to [k]: [attempt * backoff]
    each. *)
Definition pauses (backoff : Z) (k : nat) : list Kafka.Op :=
  map (fun i => Kafka.Sleep (Z.of_nat i * backoff)) (seq 1 k).

End Backoff.

(** ** What a tick of the relay does to an outbox row *)

Module Outbox.
Import Publisher.

(** The scan of an outbox row into an [outboxEvent]. *)
Definition scan (o : OutboxEvent) : outboxEvent :=
  {| oe_ID := ob_id o; oe_AggregateType := ob_aggregate_type o;
     oe_AggregateID := ob_aggregate_id o; oe_EventType := ob_event_type o;
     oe_Payload := ob_payload o; oe_CreatedAt := ob_created_at o |}.

(** The events of a batch are oldest first. *)
Fixpoint oldest_first (l : list outboxEvent) : Prop :=
  match l with
  | [] => True
  | e :: rest => (forall u, In u rest -> oe_CreatedAt e <= oe_CreatedAt u) /\ oldest_first rest
  end.

(** An event of the batch has the id of the row. *)
Definition selected (events : list outboxEvent) (o : OutboxEvent) : bool :=
  existsb (fun event => N.eqb (ob_id o) (oe_ID event)) events.

(** The [UPDATE] that marks the row published fails on this tick. *)
Definition mark_fails (t : Tick) (o : OutboxEvent) : bool :=
  match mark_fault t (ob_id o) with
  | Some _ => true
  | None => false
  end.

Section WithCodecs.

Variable json_Unmarshal : RawMessage -> result TransactionCreatedPayload.
Variable json_Marshal : EventEnvelope -> result string.
Variable uuid_String : UUID -> string.

(** What one tick may do to an outbox row [o], giving [o']: the columns
    written at insert stay, the attempt count does not go down, and the row
    either keeps its status and publication time or is PUBLISHED at the time
    of the tick; in that case an event of the batch has the row's id, its
    envelope was encoded, and its message is among [new], the messages
    written during the tick. *)
Definition advanced (t : Tick) (topic : string) (events : list outboxEvent)
    (new : list Kafka.Op) (o o' : OutboxEvent) : Prop :=
  Columns.of_outbox o' = Columns.of_outbox o /\
  ob_publish_attempts o <= ob_publish_attempts o' /\
  (ob_status o' = ob_status o /\ ob_published_at o' = ob_published_at o \/
   ob_status o' = "PUBLISHED" /\ ob_published_at o' = Some (tick_now t) /\
   exists event bytes,
     In event events /\ oe_ID event = ob_id o /\
     json_Marshal (envelope_of json_Unmarshal (fresh_uuid t (oe_ID event)) event) = Ok bytes /\
     In (Kafka.Produce topic
           (Relay.message_of uuid_String (fresh_uuid t (oe_ID event)) event bytes)) new).

(** The message a tick writes for an event when [encode] is the encoding
    of envelopes. *)
Definition written (encode : EventEnvelope -> string) (t : Tick) (topic : string)
    (event : outboxEvent) : Kafka.Op :=
  Kafka.Produce topic
    (Relay.message_of uuid_String (fresh_uuid t (oe_ID event)) event
       (encode (envelope_of json_Unmarshal (fresh_uuid t (oe_ID event)) event))).

(** What a tick on which no write to the log succeeds does to a row: only
    the attempt count and the last error change; the count does not go
    down and an error is not cleared, and a row of the batch whose [UPDATE]
    goes through has one more attempt, at least, and an error. *)
Definition deferred (t : Tick) (events : list outboxEvent) (o o' : OutboxEvent) : Prop :=
  Columns.of_outbox o' = Columns.of_outbox o /\
  ob_status o' = ob_status o /\ ob_published_at o' = ob_published_at o /\
  ob_publish_attempts o <= ob_publish_attempts o' /\
  (ob_last_error o <> None -> ob_last_error o' <> None) /\
  (selected events o = true -> error_fault t (ob_id o) = None ->
   ob_publish_attempts o < ob_publish_attempts o' /\ ob_last_error o' <> None).

End WithCodecs.

End Outbox.

(** ** worker/internal/consumer: the loop *)

Module Worker.
Import Consumer.

Section WithCodecs.

Variable json_Unmarshal_envelope : string -> result EventEnvelope.
Variable json_Unmarshal_payload : RawMessage -> result TransactionCreatedPayload.

(** [Start]: one [processMessage] per turn of the loop, until the context
    is done; [fetched] is what [FetchMessage] returned on each turn, with
    the environment of that turn.  A failed fetch ends the turn; an error
    of [processMessage] is logged and the loop goes on. *)
Fixpoint Start (c : KafkaConsumer) (fetched : list (result Kafka.Message * Environment))
    (w : World) : World :=
  match fetched with
  | [] => w
  | (Err _, _) :: rest => Start c rest w
  | (Ok msg, e) :: rest =>
    Start c rest (snd (processMessage json_Unmarshal_envelope json_Unmarshal_payload c e msg w))
  end.

End WithCodecs.

(** The messages among the fetches. *)
Fixpoint messages (fetched : list (result Kafka.Message * Environment)) : list Kafka.Message :=
  match fetched with
  | [] => []
  | (Ok msg, _) :: rest => msg :: messages rest
  | (Err _, _) :: rest => messages rest
  end.

(** The rows the worker leaves in place: the outbox; the accounts and the
    transactions, up to balance, status, failure reason and [updated_at];
    and the processed events, to which rows are only added. *)
Definition kept (db db' : DB) : Prop :=
  outbox_events db' = outbox_events db /\
  map Columns.of_account (accounts db') = map Columns.of_account (accounts db) /\
  map Columns.of_transaction (transactions db') = map Columns.of_transaction (transactions db) /\
  exists added, processed_events db' = (processed_events db ++ added)%list.

(** What the worker may do to the log for the messages it fetched: pause,
    commit the offset of one of them, or write the dead letter of one of
    them to the DLQ topic. *)
Definition acknowledges (c : KafkaConsumer) (fetched : list Kafka.Message) (o : Kafka.Op)
    : Prop :=
  match o with
  | Kafka.Sleep _ => True
  | Kafka.CommitOffset m => In m fetched
  | Kafka.Produce topic m =>
    topic = dlqTopic c /\
    exists original err, In original fetched /\ m = dlq_message original err
  end.

End Worker.

(** ** Fixtures

    Small concrete databases, envelopes and environments, used to run the
    definitions above. *)

(** One USD account and one pending transaction. *)
Module Fixture.
Import Processor.

Definition account (balance : Z) : Account :=
  {| acc_ID := 10%N; acc_CreatedAt := 0; acc_UpdatedAt := 0; acc_Currency := "USD";
     acc_BalanceCents := balance; acc_Status := AccountStatusActive |}.

Definition pending (type : TransactionType) (amount : Z) (currency : string)
    (account_id : UUID) : Transaction :=
  {| ID := 20%N; AccountID := account_id; AmountCents := amount; Currency := currency;
     Type_ := type; Status := TransactionStatusPending; IdempotencyKey := "k1";
     FailureReason := None; Metadata := None; CreatedAt := 1; UpdatedAt := 1 |}.

Definition payload_of (t : Transaction) : TransactionCreatedPayload :=
  Service.created_payload t.

Definition database (balance : Z) (t : Transaction) : DB :=
  {| accounts := [account balance]; transactions := [t];
     outbox_events := []; processed_events := [] |}.

(** An envelope of the transaction; its payload is the text "tx". *)
Definition envelope_with (event_id : UUID) : EventEnvelope :=
  {| EventID := event_id; EventType := "transaction.created"; OccurredAt := 1;
     TraceID := ""; env_IdempotencyKey := "k1"; AggregateID := 20%N; Payload := "tx" |}.

Definition decoder (t : Transaction) (raw : RawMessage) : result TransactionCreatedPayload :=
  if String.eqb raw "tx" then Ok (payload_of t) else Err "unexpected end of JSON input".

(** A run in which the commit fails. *)
Definition failing_commit : Faults :=
  fun s => match s with Commit => Some "driver: bad connection" | _ => None end.

(** A run in which every statement fails. *)
Definition all_failing : Faults := fun _ => Some "driver: bad connection".

End Fixture.

Module HandlerFixture.
Import HTTP.

(** A handler that leaves a mark on every response it serves. *)
Definition marking_handler : Handler := fun _ w => Write w (Bytes "handled").

End HandlerFixture.

Module RelayFixture.
Import Publisher.

(** A codec that writes only the envelope id, enough to tell two
    messages apart. *)
Definition id_only (e : EventEnvelope) : result string := Ok (Fmt.d (Z.of_N (EventID e))).
Definition no_payload (_ : RawMessage) : result TransactionCreatedPayload := Err "no payload".
Definition plain (u : UUID) : string := Fmt.d (Z.of_N u).

Definition row1 : outboxEvent :=
  {| oe_ID := 1%N; oe_AggregateType := "transaction"; oe_AggregateID := 100%N;
     oe_EventType := "transaction.created"; oe_Payload := "{}"; oe_CreatedAt := 5 |}.

Definition pending_row : OutboxEvent :=
  {| ob_id := 1%N; ob_aggregate_type := "transaction"; ob_aggregate_id := 100%N;
     ob_event_type := "transaction.created"; ob_payload := "{}"; ob_status := "PENDING";
     ob_created_at := 5; ob_published_at := None; ob_publish_attempts := 0;
     ob_last_error := None |}.

Definition outbox : DB :=
  {| accounts := []; transactions := []; outbox_events := [pending_row];
     processed_events := [] |}.

(** The tick with the given [uuid.New()] value; the write to the log
    succeeds, the [UPDATE] that marks the row published may fail. *)
Definition tick (fresh : UUID) (mark : option string) (now : Z) : Tick :=
  {| query_fault := None; fresh_uuid := fun _ => fresh; write_fault := fun _ => None;
     mark_fault := fun _ => mark; error_fault := fun _ => None; tick_now := now |}.

End RelayFixture.

(** A message whose envelope is the one of the pending credit, and a
    worker with five attempts and two seconds of base backoff. *)
Module WorkerFixture.
Import Consumer.

Definition poison : Kafka.Message :=
  {| Kafka.Key := "20"; Kafka.Value := "envelope-7";
     Kafka.Headers := [ {| Kafka.h_Key := "event_type"; Kafka.h_Value := "transaction.created" |} ];
     Kafka.Partition := 3; Kafka.Offset := 41 |}.

Definition worker : KafkaConsumer :=
  {| maxRetries := 5; retryBackoff := 2; dlqTopic := "transactions.dlq" |}.

Definition outage (dlq : option string) : Environment :=
  {| attempt_faults := fun _ => Fixture.all_failing;
     attempt_clock := fun n => n;
     dlq_fault := dlq; commit_fault := None |}.

Definition envelope_decoder (raw : string) : result EventEnvelope :=
  if String.eqb raw "envelope-7" then Ok (Fixture.envelope_with 7%N)
  else Err "invalid character".

Definition payload_decoder : RawMessage -> result TransactionCreatedPayload :=
  Fixture.decoder
    (Fixture.pending TransactionTypeCredit 50 "USD" 10%N).

Definition start : World :=
  (Fixture.database 100
     (Fixture.pending TransactionTypeCredit 50 "USD" 10%N), []).

End WorkerFixture.

(** An active account and three requests on one key. *)
Module IngressFixture.
Import Service.

Definition marshal (_ : TransactionCreatedPayload) : result RawMessage := Ok "payload".

Definition empty_ledger : DB :=
  {| accounts := [Fixture.account 0]; transactions := [];
     outbox_events := []; processed_events := [] |}.

Definition request (amount : Z) (type : TransactionType) : CreateTransactionRequest :=
  {| req_AccountID := 10%N; req_AmountCents := amount; req_Currency := "USD";
     req_Type := type; req_IdempotencyKey := "k1"; req_Metadata := "" |}.

Definition args (n : N) (amount : Z) (type : TransactionType) : Args :=
  {| a_faults := no_faults; a_now := Z.of_N n; a_txID := (20 + n)%N;
     a_outboxID := (30 + n)%N; a_req := request amount type |}.

(** The first call loses the race against a request for 999; the second
    and the third replay the key with other amounts. *)
Definition three_calls : list Call :=
  [ {| c_args := args 1 100 TransactionTypeCredit;
       c_concurrent := Some (args 2 999 TransactionTypeDebit) |};
    {| c_args := args 3 5 TransactionTypeCredit; c_concurrent := None |};
    {| c_args := args 4 7 TransactionTypeDebit; c_concurrent := None |} ].

End IngressFixture.

(** * Properties *)

(** ** Signed 64-bit arithmetic *)

Module Int64Facts.

Lemma wrap_in_range (z : Z) : Int64.in_range z -> Int64.wrap z = z.
Proof.
  unfold Int64.in_range, Int64.wrap, Int64.min, Int64.max. intros H.
  rewrite Z.mod_small; lia.
Qed.


Lemma sub_in_range (a b : Z) : Int64.in_range (a - b) -> Int64.sub a b = a - b.
Proof. apply wrap_in_range. Qed.

End Int64Facts.

(** ** The API key middleware *)

Module MiddlewareProofs.
Import HTTP Middleware HandlerFixture.

Lemma presented_key_missing (r : Request) :
  Header_Get (Header r) "X-API-Key" = "" -> Header_Get (Header r) "Authorization" = "" ->
  presented_key r = "".
Proof.
  intros Hx Ha. unfold presented_key. rewrite Hx, Ha. reflexivity.
Qed.

Lemma unauthorized_response :
  rw_Status (unauthorized empty_response) = Some StatusUnauthorized /\
  rw_Body (unauthorized empty_response) = [Bytes unauthorized_body] /\
  Get (rw_Header (unauthorized empty_response)) "Content-Type" = "application/json".
Proof. repeat split. Qed.

Example presented_keys :
  presented_key {| Header := [("X-API-Key", "k")]; Query := [] |} = "k" /\
  presented_key {| Header := [("Authorization", "Bearer k")]; Query := [] |} = "k" /\
  presented_key {| Header := [("Authorization", "k")]; Query := [] |} = "k" /\
  presented_key {| Header := [("X-API-Key", "a"); ("Authorization", "Bearer k")];
                   Query := [] |} = "a" /\
  presented_key {| Header := []; Query := [] |} = "".
Proof. repeat split. Qed.

(** The name of a header line counts up to the case of its letters: the
    key is found under any spelling of the two names. *)
Example header_names_are_canonical :
  Textproto.CanonicalMIMEHeaderKey "x-api-key" = "X-Api-Key" /\
  Textproto.CanonicalMIMEHeaderKey "X-API-Key" = "X-Api-Key" /\
  Textproto.CanonicalMIMEHeaderKey "AUTHORIZATION" = "Authorization" /\
  Textproto.CanonicalMIMEHeaderKey "x api key" = "x api key" /\
  presented_key {| Header := [("x-api-key", "k")]; Query := [] |} = "k" /\
  presented_key {| Header := [("X-Api-Key", "k")]; Query := [] |} = "k" /\
  presented_key {| Header := [("authorization", "Bearer k")]; Query := [] |} = "k" /\
  (let r := {| Header := [("x-api-key", "k")]; Query := [] |} in
   APIKeyAuth "k" marking_handler r empty_response = marking_handler r empty_response).
Proof. repeat split. Qed.

(** C9, as stated, fails: with no API key configured ([API_KEY] unset,
    the default of [LoadConfig]) a request that presents a key nobody
    configured is passed to the handler and answered 200. *)
Lemma APIKeyAuth_passes_when_no_key_configured :
  let cfg := Config.LoadConfig (fun _ => "") in
  let r := {| Header := [("X-API-Key", "not-the-key")]; Query := [] |} in
  presented_key r <> Config.APIKey cfg /\
  v1 cfg marking_handler r empty_response = marking_handler r empty_response /\
  rw_Status (v1 cfg marking_handler r empty_response) = Some StatusOK /\
  v1 cfg marking_handler r empty_response <> unauthorized empty_response.
Proof.
  cbv zeta. repeat split; try reflexivity; vm_compute; discriminate.
Qed.

(** C9, amended: when no key is configured the middleware checks nothing
    and the handler serves the request.  When the configured key is not
    empty, a request whose presented key (the X-API-Key header, or else the
    Authorization header without its "Bearer " prefix) differs from it, and
    in particular a request without these headers, gets the 401 response
    with the unauthorized body, whatever the handler behind is: the handler
    does not run. *)
Theorem APIKeyAuth_rejects_wrong_key (expectedKey : string) (next : Handler)
    (r : Request) (w : ResponseWriter) :
  (expectedKey = "" -> APIKeyAuth expectedKey next r w = next r w) /\
  (expectedKey <> "" ->
   presented_key r <> expectedKey ->
   APIKeyAuth expectedKey next r w = unauthorized w /\
   (forall other : Handler, APIKeyAuth expectedKey other r w = APIKeyAuth expectedKey next r w) /\
   (rw_Status w = None -> rw_Status (APIKeyAuth expectedKey next r w) = Some StatusUnauthorized) /\
   rw_Body (APIKeyAuth expectedKey next r w) = (rw_Body w ++ [Bytes unauthorized_body])%list) /\
  (expectedKey <> "" ->
   Header_Get (Header r) "X-API-Key" = "" -> Header_Get (Header r) "Authorization" = "" ->
   presented_key r <> expectedKey).
Proof.
  split; [intros ->; reflexivity|]. split.
  - intros Hkey Hwrong.
    assert (Hrej : forall h, APIKeyAuth expectedKey h r w = unauthorized w).
    { intros h. unfold APIKeyAuth.
      destruct (String.eqb_spec expectedKey "") as [E|_]; [contradiction|].
      destruct (String.eqb_spec (presented_key r) expectedKey) as [E|_]; [contradiction|].
      reflexivity. }
    split; [apply Hrej|]. split; [intros other; now rewrite !Hrej|].
    split; [intros Hw; rewrite Hrej; unfold unauthorized; simpl; now rewrite Hw|].
    rewrite Hrej; reflexivity.
  - intros Hkey Hx Ha. rewrite (presented_key_missing r Hx Ha). congruence.
Qed.

Lemma APIKeyAuth_rejects_wrong_key_witness :
  let r := {| Header := [("Authorization", "Bearer guess")]; Query := [] |} in
  APIKeyAuth "demo-api-key-12345" marking_handler r empty_response
    = unauthorized empty_response /\
  rw_Status (APIKeyAuth "demo-api-key-12345" marking_handler r empty_response)
    = Some StatusUnauthorized.
Proof.
  cbv zeta.
  destruct (APIKeyAuth_rejects_wrong_key "demo-api-key-12345" marking_handler
              {| Header := [("Authorization", "Bearer guess")]; Query := [] |} empty_response)
    as (_ & H & _).
  destruct H as (H1 & _ & H2 & _).
  - discriminate.
  - vm_compute. discriminate.
  - split; [exact H1 | exact (H2 eq_refl)].
Defined.

(** The accepting side, for completeness: the configured key passes. *)
Lemma APIKeyAuth_accepts_key (expectedKey : string) (next : Handler)
    (r : Request) (w : ResponseWriter) :
  presented_key r = expectedKey -> APIKeyAuth expectedKey next r w = next r w.
Proof.
  intros H. unfold APIKeyAuth.
  destruct (String.eqb expectedKey ""); [reflexivity|].
  rewrite H, String.eqb_refl. reflexivity.
Qed.

End MiddlewareProofs.

(** ** The listing endpoint *)

Module HandlerProofs.
Import HTTP Handler.

Lemma parse_limit_default (s : string) :
  s = "" \/
  (exists e, Strconv.Atoi s = Err e) \/
  (exists l, Strconv.Atoi s = Ok l /\ (l <= 0 \/ 100 < l)) ->
  parse_limit s = 50.
Proof.
  unfold parse_limit. intros [-> | [[e He] | [l [Hl Hr]]]].
  - reflexivity.
  - rewrite He. now destruct (negb (s =? "")%string).
  - rewrite Hl. destruct (negb (s =? "")%string); [|reflexivity].
    destruct (Z.ltb_spec 0 l), (Z.leb_spec l 100); simpl; try reflexivity; lia.
Qed.

Lemma parse_limit_accepted (s : string) (l : Z) :
  Strconv.Atoi s = Ok l -> 0 < l <= 100 -> parse_limit s = l.
Proof.
  unfold parse_limit. intros Hl Hr. rewrite Hl.
  destruct (String.eqb_spec s "") as [->|_]; [discriminate Hl|]. simpl.
  destruct (Z.ltb_spec 0 l), (Z.leb_spec l 100); simpl; try reflexivity; lia.
Qed.

Lemma parse_offset_default (s : string) :
  s = "" \/
  (exists e, Strconv.Atoi s = Err e) \/
  (exists o, Strconv.Atoi s = Ok o /\ o < 0) ->
  parse_offset s = 0.
Proof.
  unfold parse_offset. intros [-> | [[e He] | [o [Ho Hr]]]].
  - reflexivity.
  - rewrite He. now destruct (negb (s =? "")%string).
  - rewrite Ho. destruct (negb (s =? "")%string); [|reflexivity].
    destruct (Z.leb_spec 0 o); [lia|reflexivity].
Qed.

Lemma parse_offset_accepted (s : string) (o : Z) :
  Strconv.Atoi s = Ok o -> 0 <= o -> parse_offset s = o.
Proof.
  unfold parse_offset. intros Ho Hr. rewrite Ho.
  destruct (String.eqb_spec s "") as [->|_]; [discriminate Ho|]. simpl.
  destruct (Z.leb_spec 0 o); [reflexivity|lia].
Qed.

Lemma parse_limit_bounds (s : string) : 0 < parse_limit s <= 100.
Proof.
  unfold parse_limit. destruct (negb (s =? "")%string); [|lia].
  destruct (Strconv.Atoi s) as [l|e]; [|lia].
  destruct (Z.ltb_spec 0 l), (Z.leb_spec l 100); simpl; lia.
Qed.

Lemma parse_offset_bounds (s : string) : 0 <= parse_offset s.
Proof.
  unfold parse_offset. destruct (negb (s =? "")%string); [|lia].
  destruct (Strconv.Atoi s) as [o|e]; [|lia].
  destruct (Z.leb_spec 0 o); lia.
Qed.

Example Atoi_plain : Strconv.Atoi "25" = Ok 25.
Proof. reflexivity. Qed.

Example Atoi_signed : Strconv.Atoi "+7" = Ok 7 /\ Strconv.Atoi "-3" = Ok (-3).
Proof. split; reflexivity. Qed.

Example Atoi_not_a_number :
  Strconv.Atoi "" = Err "invalid syntax" /\ Strconv.Atoi "ten" = Err "invalid syntax" /\
  Strconv.Atoi "1_000" = Err "invalid syntax" /\ Strconv.Atoi "-" = Err "invalid syntax" /\
  Strconv.Atoi "5 " = Err "invalid syntax".
Proof. repeat split. Qed.

Example Atoi_out_of_range :
  Strconv.Atoi "9223372036854775807" = Ok Int64.max /\
  Strconv.Atoi "9223372036854775808" = Err "value out of range" /\
  Strconv.Atoi "-9223372036854775808" = Ok Int64.min.
Proof. repeat split. Qed.

Example limits :
  parse_limit "" = 50 /\ parse_limit "0" = 50 /\ parse_limit "-4" = 50 /\
  parse_limit "101" = 50 /\ parse_limit "abc" = 50 /\
  parse_limit "1" = 1 /\ parse_limit "100" = 100.
Proof. repeat split. Qed.

Example offsets :
  parse_offset "" = 0 /\ parse_offset "-1" = 0 /\ parse_offset "x" = 0 /\
  parse_offset "0" = 0 /\ parse_offset "250" = 250.
Proof. repeat split. Qed.

Section WithService.

Variable uuid_Parse : string -> result UUID.
Variable service : option UUID -> Z -> Z -> result (list Transaction).

Lemma parse_account_id_ignored (s : string) :
  s = "" \/ (exists e, uuid_Parse s = Err e) -> parse_account_id uuid_Parse s = None.
Proof.
  unfold parse_account_id. intros [-> | [e He]]; [reflexivity|].
  rewrite He. now destruct (negb (s =? "")%string).
Qed.

(** C10: [ListTransactions] has no path that answers 400.  A limit that
    is absent, not a number, not positive or above 100 becomes 50; an
    offset that is absent, not a number or negative becomes 0; an
    account id that does not parse is dropped and the service is asked
    for the unfiltered listing; the service is called with these values
    and, when it answers, the response is 200, of content type JSON, and
    what is written to its body is the document with the listing and the
    limit and offset that were applied (a service error is a 500 whose body
    is the error document). *)
Theorem ListTransactions_never_rejects (r : Request) (w : ResponseWriter) :
  let limitStr := Get (Query r) "limit" in
  let offsetStr := Get (Query r) "offset" in
  let accountIDStr := Get (Query r) "account_id" in
  let limit := parse_limit limitStr in
  let offset := parse_offset offsetStr in
  let accountID := parse_account_id uuid_Parse accountIDStr in
  let response := ListTransactions uuid_Parse service r w in
  (limitStr = "" \/ (exists e, Strconv.Atoi limitStr = Err e) \/
   (exists l, Strconv.Atoi limitStr = Ok l /\ (l <= 0 \/ 100 < l)) -> limit = 50) /\
  (forall l, Strconv.Atoi limitStr = Ok l -> 0 < l <= 100 -> limit = l) /\
  (offsetStr = "" \/ (exists e, Strconv.Atoi offsetStr = Err e) \/
   (exists o, Strconv.Atoi offsetStr = Ok o /\ o < 0) -> offset = 0) /\
  (forall o, Strconv.Atoi offsetStr = Ok o -> 0 <= o -> offset = o) /\
  (accountIDStr = "" \/ (exists e, uuid_Parse accountIDStr = Err e) -> accountID = None) /\
  (forall transactions, service accountID limit offset = Ok transactions ->
     response = respondJSON w StatusOK (Listing transactions limit offset) /\
     (rw_Status w = None -> rw_Status response = Some StatusOK) /\
     rw_Body response = (rw_Body w ++ [Encoded (Listing transactions limit offset)])%list /\
     Get (rw_Header response) "Content-Type" = "application/json") /\
  (forall e, service accountID limit offset = Err e ->
     (rw_Status w = None -> rw_Status response = Some StatusInternalServerError) /\
     rw_Body response
       = (rw_Body w ++ [Encoded (Failure "Failed to list transactions" (Some e))])%list) /\
  (rw_Status w = None -> rw_Status response <> Some StatusBadRequest).
Proof.
  cbv zeta.
  split; [apply parse_limit_default|].
  split; [apply parse_limit_accepted|].
  split; [apply parse_offset_default|].
  split; [apply parse_offset_accepted|].
  split; [apply parse_account_id_ignored|].
  unfold ListTransactions.
  destruct (service _ _ _) as [ts|e].
  - split; [|split].
    + intros ts' [= <-]. split; [reflexivity|]. split; [|split; reflexivity].
      intros Hw. simpl. now rewrite Hw.
    + discriminate.
    + intros Hw. simpl. rewrite Hw. discriminate.
  - split; [|split].
    + discriminate.
    + intros e' [= <-]. split; [|reflexivity].
      intros Hw. simpl. now rewrite Hw.
    + intros Hw. simpl. rewrite Hw. discriminate.
Qed.

End WithService.

(** A request with a limit above the maximum, a negative offset and an
    account id that is not a UUID, against a service that answers. *)
Lemma ListTransactions_never_rejects_witness :
  let r := {| Header := [];
              Query := [("limit", "1000"); ("offset", "-3"); ("account_id", "nobody")] |} in
  let uuid_Parse := fun _ : string => @Err UUID "invalid UUID length" in
  let service := fun (_ : option UUID) (_ _ : Z) => @Ok (list Transaction) [] in
  ListTransactions uuid_Parse service r empty_response
    = respondJSON empty_response StatusOK (Listing [] 50 0) /\
  rw_Status (ListTransactions uuid_Parse service r empty_response) = Some StatusOK /\
  rw_Body (ListTransactions uuid_Parse service r empty_response)
    = [Encoded (Listing [] 50 0)].
Proof.
  cbv zeta.
  pose proof (ListTransactions_never_rejects
                (fun _ : string => @Err UUID "invalid UUID length")
                (fun (_ : option UUID) (_ _ : Z) => @Ok (list Transaction) [])
                {| Header := [];
                   Query := [("limit", "1000"); ("offset", "-3"); ("account_id", "nobody")] |}
                empty_response) as H.
  cbv zeta in H.
  destruct H as (_ & _ & _ & _ & _ & Hok & _).
  destruct (Hok [] eq_refl) as [Hresp [Hstatus [Hbody _]]].
  split; [exact Hresp|]. split; [exact (Hstatus eq_refl) | exact Hbody].
Defined.

End HandlerProofs.

(** ** The envelope ids of the Relay *)

Module PublisherProofs.
Import Publisher RelayFixture.

(** C5, as stated, fails: the envelope id is the value of [uuid.New()], so
    it is not the outbox row id, and a row that is published twice gives two
    messages with two different envelope ids.  Here the first tick writes
    the message and then fails to mark the row, which stays PENDING; the
    second tick publishes the row again. *)
Lemma envelope_id_is_not_row_id :
  EventID (envelope_of no_payload 7%N row1) <> oe_ID row1 /\
  EventID (envelope_of no_payload 7%N row1) <> EventID (envelope_of no_payload 8%N row1) /\
  let publish := publishBatch no_payload id_only plain in
  let '(_, (db1, log1)) :=
    publish (tick 7%N (Some "driver: bad connection") 6) 100 "transactions" outbox [] in
  let '(_, (db2, log2)) := publish (tick 8%N None 7) 100 "transactions" db1 log1 in
  exists m1 m2,
    log2 = [Kafka.Produce "transactions" m1; Kafka.Produce "transactions" m2] /\
    Kafka.Key m1 = Kafka.Key m2 /\
    Kafka.Value m1 = "7" /\ Kafka.Value m2 = "8" /\
    map ob_status (outbox_events db1) = ["PENDING"] /\
    map ob_status (outbox_events db2) = ["PUBLISHED"].
Proof.
  split; [vm_compute; discriminate|].
  split; [vm_compute; discriminate|].
  vm_compute. eexists. eexists. repeat split.
Qed.

Section WithCodecs.

Variable json_Unmarshal : RawMessage -> result TransactionCreatedPayload.
Variable json_Marshal : EventEnvelope -> result string.
Variable uuid_String : UUID -> string.

(** The envelope id of a published outbox row is the fresh
    value of [uuid.New()] drawn at that publish, whatever the row; every
    other field of the envelope (event type, occurrence time, aggregate
    id, idempotency key, payload) is a function of the row alone, so two
    publishes of a row agree on all of them, and the message written is
    the encoding of that envelope, keyed by the aggregate id. *)
Theorem envelope_id_is_fresh (fresh fresh' : UUID) (event : outboxEvent) :
  EventID (envelope_of json_Unmarshal fresh event) = fresh /\
  (let e := envelope_of json_Unmarshal fresh event in
   let e' := envelope_of json_Unmarshal fresh' event in
   EventType e = EventType e' /\ OccurredAt e = OccurredAt e' /\
   AggregateID e = AggregateID e' /\ env_IdempotencyKey e = env_IdempotencyKey e' /\
   Payload e = Payload e' /\
   AggregateID e = oe_AggregateID event /\ Payload e = oe_Payload event) /\
  (forall topic log bytes,
     json_Marshal (envelope_of json_Unmarshal fresh event) = Ok bytes ->
     exists m,
       publishEvent json_Unmarshal json_Marshal uuid_String fresh None topic event log
         = (None, (log ++ [Kafka.Produce topic m])%list) /\
       Kafka.Value m = bytes /\
       Kafka.Key m = uuid_String (oe_AggregateID event)).
Proof.
  split; [reflexivity|]. split; [repeat split|].
  intros topic log bytes Hm. unfold publishEvent. rewrite Hm.
  eexists. split; [reflexivity|]. split; reflexivity.
Qed.

End WithCodecs.

End PublisherProofs.

(** ** The Applier *)

Module ProcessorProofs.
Import Processor.

(** *** The SQL statements *)

Lemma find_update_where {A : Type} (key : A -> N) (k : N) (cond : A -> bool)
    (set : A -> A) (rows : list A) :
  (forall r, key (set r) = key r) ->
  find (fun r => N.eqb (key r) k) (update_where cond set rows)
    = option_map (fun r => if cond r then set r else r)
        (find (fun r => N.eqb (key r) k) rows).
Proof.
  intros Hkey. induction rows as [|r rows IH]; [reflexivity|].
  simpl. destruct (cond r) eqn:Hc.
  - rewrite Hkey. destruct (N.eqb (key r) k); [simpl; now rewrite Hc | exact IH].
  - destruct (N.eqb (key r) k); [simpl; now rewrite Hc | exact IH].
Qed.

Lemma find_app_none {A : Type} (p : A -> bool) (l l' : list A) :
  find p l = None -> find p (l ++ l') = find p l'.
Proof.
  induction l as [|a l IH]; [reflexivity|]. simpl.
  destruct (p a); [discriminate | exact IH].
Qed.

Lemma find_app_some {A : Type} (p : A -> bool) (l l' : list A) (a : A) :
  find p l = Some a -> find p (l ++ l') = Some a.
Proof.
  induction l as [|b l IH]; [discriminate|]. simpl.
  destruct (p b); [trivial | exact IH].
Qed.

Lemma find_none_existsb {A : Type} (p : A -> bool) (l : list A) :
  find p l = None <-> existsb p l = false.
Proof.
  induction l as [|a l IH]; [tauto|]. simpl.
  destruct (p a); simpl; [split; discriminate | exact IH].
Qed.

Lemma find_none_filter {A : Type} (p : A -> bool) (l : list A) :
  find p l = None -> filter p l = [].
Proof.
  induction l as [|a l IH]; [reflexivity|]. simpl.
  destruct (p a); [discriminate | exact IH].
Qed.

Lemma select_processed_none (db : DB) (eid : UUID) :
  select_processed_event db eid = None <->
  existsb (fun r => N.eqb (pe_event_id r) eid) (processed_events db) = false.
Proof.
  unfold select_processed_event. rewrite <- find_none_existsb.
  destruct (find _ _); simpl; split; congruence.
Qed.

Lemma insert_processed_fresh (db : DB) (eid txid : UUID) (now : Z) :
  select_processed_event db eid = None ->
  insert_processed_event db eid txid now
    = (1, with_processed_events db
            (processed_events db ++
             [{| pe_event_id := eid; pe_transaction_id := txid; pe_processed_at := now |}])).
Proof.
  intros H. unfold insert_processed_event.
  apply select_processed_none in H. now rewrite H.
Qed.


Lemma select_processed_after_insert (db : DB) (eid txid : UUID) (now : Z) :
  select_processed_event (snd (insert_processed_event db eid txid now)) eid = Some eid.
Proof.
  unfold insert_processed_event.
  destruct (existsb _ _) eqn:E; simpl.
  - unfold select_processed_event.
    destruct (find _ (processed_events db)) as [r|] eqn:F.
    + apply find_some in F. destruct F as [_ F]. apply N.eqb_eq in F.
      simpl. now rewrite F.
    + apply find_none_existsb in F. congruence.
  - unfold select_processed_event. simpl.
    apply find_none_existsb in E. rewrite (find_app_none _ _ _ E). simpl.
    now rewrite N.eqb_refl.
Qed.

Lemma processed_rows_after_insert (db : DB) (eid txid : UUID) (now : Z) :
  select_processed_event db eid = None ->
  processed_rows (snd (insert_processed_event db eid txid now)) eid = 1%nat.
Proof.
  intros H. rewrite (insert_processed_fresh _ _ _ _ H). unfold processed_rows. simpl.
  rewrite filter_app. simpl. rewrite N.eqb_refl.
  unfold select_processed_event in H.
  destruct (find _ (processed_events db)) eqn:F; [discriminate|].
  rewrite (find_none_filter _ _ F). reflexivity.
Qed.


Lemma lock_account_claimed (db : DB) (envelope : EventEnvelope)
    (payload : TransactionCreatedPayload) (now : Z) (account_id : UUID) :
  lock_account (claimed db envelope payload now) account_id = lock_account db account_id.
Proof.
  unfold claimed, lock_account, select_account, update_status_processing,
    insert_processed_event.
  now destruct (existsb _ _).
Qed.

(** *** One delivery *)

Section OneDelivery.

Variable json_Unmarshal : RawMessage -> result TransactionCreatedPayload.
Variable f : Faults.
Variable now : Z.
Variable db : DB.
Variable envelope : EventEnvelope.
Variable payload : TransactionCreatedPayload.

Abbreviation Process := (ProcessTransactionCreated json_Unmarshal).

(** The run inside the SQL transaction when the envelope id is not yet
    in [processed_events]: the source text with the claim step done. *)
Lemma applyInTransaction_unrecorded :
  select_processed_event db (EventID envelope) = None ->
  applyInTransaction f now db envelope payload =
  match f BeginTx with
  | Some cause => retryable "failed to begin transaction" cause db
  | None =>
  match f InsertProcessed with
  | Some cause => retryable "failed to insert processed event" cause db
  | None =>
  match f UpdateProcessing with
  | Some cause => retryable "failed to update transaction status" cause db
  | None =>
  match f LockAccount with
  | Some cause => retryable "failed to lock account" cause db
  | None =>
  match lock_account db (p_AccountID payload) with
  | None => ((false, Some "account not found"), db)
  | Some (currentBalance, accountCurrency) =>
    if negb (String.eqb accountCurrency (p_Currency payload)) then
      ((false, Some ("currency mismatch: account=" ++ accountCurrency
                       ++ ", transaction=" ++ p_Currency payload)), db)
    else if (new_balance payload currentBalance <? 0)
            && String.eqb (p_Type payload) TransactionTypeDebit then
      match f MarkFailed with
      | Some cause => retryable "failed to mark transaction as failed" cause db
      | None =>
        ((false, Some ("insufficient balance: "
                         ++ insufficient_balance_reason currentBalance
                              (p_AmountCents payload))),
         commit_unchecked f db (refused db envelope payload now currentBalance))
      end
    else
      match f UpdateBalance with
      | Some cause => retryable "failed to update balance" cause db
      | None =>
      match f MarkProcessed with
      | Some cause => retryable "failed to mark transaction as processed" cause db
      | None =>
      match f Commit with
      | Some cause => retryable "failed to commit transaction" cause db
      | None => ((false, None), applied db envelope payload now currentBalance)
      end end end
  end end end end end.
Proof.
  intros Hnew. unfold applyInTransaction.
  destruct (f BeginTx); [reflexivity|].
  destruct (f InsertProcessed); [reflexivity|].
  pose proof (lock_account_claimed db envelope payload now (p_AccountID payload)) as Hl.
  unfold applied, refused. unfold claimed in *.
  rewrite (insert_processed_fresh _ _ (p_TransactionID payload) now Hnew) in *.
  cbn [snd Z.eqb] in Hl |- *. cbv iota.
  destruct (f UpdateProcessing); [reflexivity|].
  destruct (f LockAccount); [reflexivity|].
  rewrite Hl. reflexivity.
Qed.

(** A delivery that finds the envelope id does nothing, whatever fails. *)
Lemma recorded_unchanged :
  select_processed_event db (EventID envelope) <> None ->
  snd (Process f now db envelope) = db.
Proof.
  intros Hrec. unfold ProcessTransactionCreated.
  destruct (json_Unmarshal _); [|reflexivity].
  destruct (f CheckProcessed); [reflexivity|].
  destruct (select_processed_event _ _); [reflexivity|contradiction].
Qed.



Lemma unrecorded_committed :
  json_Unmarshal (Payload envelope) = Ok payload ->
  select_processed_event db (EventID envelope) = None ->
  committed now db envelope payload (Process f now db envelope).
Proof.
  intros Hp Hnew. unfold ProcessTransactionCreated. rewrite Hp.
  destruct (f CheckProcessed); [apply Nothing|].
  rewrite Hnew, (applyInTransaction_unrecorded Hnew).
  unfold retryable.
  destruct (f BeginTx); [apply Nothing|].
  destruct (f InsertProcessed); [apply Nothing|].
  destruct (f UpdateProcessing); [apply Nothing|].
  destruct (f LockAccount); [apply Nothing|].
  destruct (lock_account db _) as [[bal cur]|] eqn:Hl; [|apply Nothing].
  destruct (String.eqb_spec cur (p_Currency payload)) as [->|_]; [|apply Nothing].
  cbn [negb].
  destruct ((new_balance payload bal <? 0) && _) eqn:Hneg.
  - destruct (f MarkFailed); [apply Nothing|].
    unfold commit_unchecked. destruct (f Commit); [apply Nothing|].
    apply andb_true_iff in Hneg. destruct Hneg as [Hlt Hd].
    apply Refused; [exact Hl | now apply Z.ltb_lt | now apply String.eqb_eq].
  - destruct (f UpdateBalance); [apply Nothing|].
    destruct (f MarkProcessed); [apply Nothing|].
    destruct (f Commit); [apply Nothing|].
    apply Applied; assumption.
Qed.

End OneDelivery.

(** *** The committed databases *)

Section Committed.

Variable db : DB.
Variable envelope : EventEnvelope.
Variable payload : TransactionCreatedPayload.
Variable now : Z.
Variable currentBalance : Z.

Lemma status_of_update_where (tx : DB) (id : UUID) (s : TransactionStatus)
    (reason : Transaction -> option string) (at_ : Z) :
  status_of
    (with_transactions tx
       (update_where (fun t => N.eqb (ID t) id)
          (fun t => set_status s (reason t) at_ t) (transactions tx))) id
    = option_map (fun _ => s) (status_of tx id).
Proof.
  unfold status_of, select_transaction. simpl.
  rewrite (find_update_where ID id) by reflexivity.
  destruct (find _ (transactions tx)) as [t|] eqn:F; [|reflexivity].
  apply find_some in F. destruct F as [_ F]. simpl. now rewrite F.
Qed.

Lemma status_of_claimed :
  status_of (claimed db envelope payload now) (p_TransactionID payload)
    = option_map
        (fun s => if status_eqb s TransactionStatusPending
                  then TransactionStatusProcessing else s)
        (status_of db (p_TransactionID payload)).
Proof.
  unfold claimed, status_of, select_transaction, update_status_processing. simpl.
  rewrite (find_update_where ID (p_TransactionID payload)) by reflexivity.
  replace (transactions (snd (insert_processed_event db (EventID envelope)
                                (p_TransactionID payload) now)))
    with (transactions db)
    by (unfold insert_processed_event; now destruct (existsb _ _)).
  destruct (find _ (transactions db)) as [t|] eqn:F; [|reflexivity].
  apply find_some in F. destruct F as [_ F]. simpl. rewrite F. simpl.
  now destruct (status_eqb (Status t) TransactionStatusPending).
Qed.

Lemma status_of_applied :
  status_of (applied db envelope payload now currentBalance) (p_TransactionID payload)
    = option_map (fun _ => TransactionStatusProcessed)
        (status_of db (p_TransactionID payload)).
Proof.
  unfold applied, mark_processed.
  rewrite (status_of_update_where _ _ TransactionStatusProcessed FailureReason).
  change (status_of (update_balance ?tx _ _ _) ?id) with (status_of tx id).
  rewrite status_of_claimed. now destruct (status_of db _).
Qed.

Lemma status_of_refused :
  status_of (refused db envelope payload now currentBalance) (p_TransactionID payload)
    = option_map (fun _ => TransactionStatusFailed)
        (status_of db (p_TransactionID payload)).
Proof.
  unfold refused, mark_failed.
  rewrite (status_of_update_where _ _ TransactionStatusFailed
             (fun _ => Some (insufficient_balance_reason currentBalance
                               (p_AmountCents payload)))).
  rewrite status_of_claimed. now destruct (status_of db _).
Qed.

Lemma select_update_where (tx : DB) (id : UUID) (set : Transaction -> Transaction) :
  (forall t, ID (set t) = ID t) ->
  select_transaction
    (with_transactions tx
       (update_where (fun t => N.eqb (ID t) id) set (transactions tx))) id
    = option_map set (select_transaction tx id).
Proof.
  intros Hid. unfold select_transaction. simpl.
  rewrite (find_update_where ID id) by exact Hid.
  destruct (find _ (transactions tx)) as [t|] eqn:F; [|reflexivity].
  apply find_some in F. destruct F as [_ F]. simpl. now rewrite F.
Qed.

Lemma failure_reason_of_refused :
  failure_reason_of (refused db envelope payload now currentBalance)
    (p_TransactionID payload)
    = option_map
        (fun _ => Some (insufficient_balance_reason currentBalance (p_AmountCents payload)))
        (status_of db (p_TransactionID payload)).
Proof.
  unfold failure_reason_of, refused, mark_failed.
  rewrite select_update_where by reflexivity.
  pose proof status_of_claimed as Hc. unfold status_of in Hc |- *.
  destruct (select_transaction (claimed db envelope payload now) _),
    (select_transaction db _); simpl in *; try reflexivity; discriminate.
Qed.

Lemma accounts_claimed : accounts (claimed db envelope payload now) = accounts db.
Proof.
  unfold claimed, update_status_processing, insert_processed_event.
  now destruct (existsb _ _).
Qed.

Lemma balance_of_applied (currency : string) :
  lock_account db (p_AccountID payload) = Some (currentBalance, currency) ->
  balance_of (applied db envelope payload now currentBalance) (p_AccountID payload)
    = Some (new_balance payload currentBalance).
Proof.
  unfold lock_account, balance_of, select_account, applied, mark_processed,
    update_balance.
  cbn [accounts with_transactions with_accounts].
  rewrite accounts_claimed.
  rewrite (find_update_where acc_ID (p_AccountID payload)) by reflexivity.
  destruct (find _ (accounts db)) as [a|] eqn:F; [|discriminate].
  apply find_some in F. destruct F as [_ F]. intros _. simpl. now rewrite F.
Qed.

Lemma accounts_refused :
  accounts (refused db envelope payload now currentBalance) = accounts db.
Proof. unfold refused, mark_failed. simpl. apply accounts_claimed. Qed.

Lemma balance_of_refused (account_id : UUID) :
  balance_of (refused db envelope payload now currentBalance) account_id
    = balance_of db account_id.
Proof. unfold balance_of, select_account. now rewrite accounts_refused. Qed.

Lemma processed_events_applied :
  processed_events (applied db envelope payload now currentBalance)
    = processed_events (snd (insert_processed_event db (EventID envelope)
                               (p_TransactionID payload) now)).
Proof. reflexivity. Qed.

Lemma processed_events_refused :
  processed_events (refused db envelope payload now currentBalance)
    = processed_events (snd (insert_processed_event db (EventID envelope)
                               (p_TransactionID payload) now)).
Proof. reflexivity. Qed.

Lemma recorded_applied :
  select_processed_event (applied db envelope payload now currentBalance)
    (EventID envelope) <> None.
Proof.
  unfold select_processed_event. rewrite processed_events_applied.
  fold (select_processed_event
          (snd (insert_processed_event db (EventID envelope)
                  (p_TransactionID payload) now)) (EventID envelope)).
  rewrite select_processed_after_insert. discriminate.
Qed.


End Committed.

Lemma lock_account_balance (db : DB) (account_id : UUID) (balance : Z) (currency : string) :
  lock_account db account_id = Some (balance, currency) ->
  balance_of db account_id = Some balance.
Proof.
  unfold lock_account, balance_of. destruct (select_account db account_id); simpl; congruence.
Qed.


(** *** K deliveries *)

Section Deliveries.

Variable json_Unmarshal : RawMessage -> result TransactionCreatedPayload.
Variable envelope : EventEnvelope.
Variable payload : TransactionCreatedPayload.
Hypothesis Hpayload : json_Unmarshal (Payload envelope) = Ok payload.

Abbreviation Process := (ProcessTransactionCreated json_Unmarshal).
Abbreviation deliveries := (deliver json_Unmarshal).

Lemma deliver_recorded (ds : list Delivery) (db : DB) :
  select_processed_event db (EventID envelope) <> None ->
  deliveries db envelope ds = db.
Proof.
  induction ds as [|[f now] ds IH]; intros Hrec; [reflexivity|].
  simpl. rewrite (recorded_unchanged json_Unmarshal f now db envelope Hrec).
  now apply IH.
Qed.




End Deliveries.



Lemma new_balance_debit (payload : TransactionCreatedPayload) (balance : Z) :
  p_Type payload = TransactionTypeDebit ->
  new_balance payload balance = Int64.sub balance (p_AmountCents payload).
Proof. intros H. unfold new_balance. now rewrite H. Qed.




(** *** Business failures *)

(** C4, amended: a DEBIT whose amount exceeds the balance, the difference
    being one that 64 bits hold, with no statement failing and the envelope
    not yet recorded.  The run returns
    non-retryable with the insufficient-balance error; the database it
    commits has the envelope id recorded once, the transaction (if the row
    exists) FAILED with the reason text made of the current balance and
    the amount, and the accounts table, hence the balance, as before. *)
Theorem insufficient_balance_marks_failed
    (json_Unmarshal : RawMessage -> result TransactionCreatedPayload)
    (f : Faults) (now : Z) (db : DB) (envelope : EventEnvelope)
    (payload : TransactionCreatedPayload) (balance : Z) :
  json_Unmarshal (Payload envelope) = Ok payload ->
  (forall s, f s = None) ->
  select_processed_event db (EventID envelope) = None ->
  lock_account db (p_AccountID payload) = Some (balance, p_Currency payload) ->
  p_Type payload = TransactionTypeDebit ->
  balance - p_AmountCents payload < 0 ->
  Int64.in_range (balance - p_AmountCents payload) ->
  let reason :=
    "insufficient balance: current=" ++ Fmt.d balance
      ++ ", debit=" ++ Fmt.d (p_AmountCents payload) in
  exists db',
    ProcessTransactionCreated json_Unmarshal f now db envelope
      = ((false, Some ("insufficient balance: " ++ reason)), db') /\
    accounts db' = accounts db /\
    balance_of db' (p_AccountID payload) = Some balance /\
    processed_rows db' (EventID envelope) = 1%nat /\
    (status_of db (p_TransactionID payload) <> None ->
       status_of db' (p_TransactionID payload) = Some TransactionStatusFailed /\
       failure_reason_of db' (p_TransactionID payload) = Some (Some reason)).
Proof.
  intros Hp Hf Hnew Hl Hd Hlt Hr. cbv zeta.
  exists (refused db envelope payload now balance).
  split; [|split; [|split; [|split]]].
  - unfold ProcessTransactionCreated. rewrite Hp, (Hf CheckProcessed), Hnew.
    rewrite (applyInTransaction_unrecorded f now db envelope payload Hnew).
    rewrite (Hf BeginTx), (Hf InsertProcessed), (Hf UpdateProcessing), (Hf LockAccount), Hl.
    rewrite String.eqb_refl. cbn [negb].
    rewrite (new_balance_debit _ _ Hd), (Int64Facts.sub_in_range _ _ Hr).
    rewrite (proj2 (Z.ltb_lt _ _) Hlt), Hd. cbn [andb String.eqb].
    replace (String.eqb TransactionTypeDebit TransactionTypeDebit) with true by reflexivity.
    rewrite (Hf MarkFailed). unfold commit_unchecked. rewrite (Hf Commit). reflexivity.
  - apply accounts_refused.
  - rewrite balance_of_refused. exact (lock_account_balance _ _ _ _ Hl).
  - unfold processed_rows. rewrite processed_events_refused.
    now apply processed_rows_after_insert.
  - intros Hex. rewrite status_of_refused, failure_reason_of_refused.
    destruct (status_of db (p_TransactionID payload)); [split; reflexivity | contradiction].
Qed.

(** A debit of 10000 on an empty account. *)
Lemma insufficient_balance_marks_failed_witness :
  let t := Fixture.pending TransactionTypeDebit 10000 "USD" 10%N in
  exists db',
    ProcessTransactionCreated (Fixture.decoder t) no_faults 2 (Fixture.database 0 t)
      (Fixture.envelope_with 7%N)
      = ((false,
          Some "insufficient balance: insufficient balance: current=0, debit=10000"), db') /\
    balance_of db' 10%N = Some 0 /\
    status_of db' 20%N = Some TransactionStatusFailed /\
    failure_reason_of db' 20%N = Some (Some "insufficient balance: current=0, debit=10000").
Proof.
  cbv zeta.
  destruct (insufficient_balance_marks_failed
              (Fixture.decoder (Fixture.pending TransactionTypeDebit 10000 "USD" 10%N))
              no_faults 2
              (Fixture.database 0 (Fixture.pending TransactionTypeDebit 10000 "USD" 10%N))
              (Fixture.envelope_with 7%N)
              (Fixture.payload_of (Fixture.pending TransactionTypeDebit 10000 "USD" 10%N))
              0 eq_refl (fun _ => eq_refl) eq_refl eq_refl eq_refl)
    as (db' & Hrun & _ & Hbal & _ & Hst).
  - simpl. lia.
  - unfold Int64.in_range, Int64.min, Int64.max. simpl. lia.
  - exists db'. split; [exact Hrun|]. split; [exact Hbal|].
    apply Hst. vm_compute. discriminate.
Defined.

(** C4, as stated, fails, in two ways.  The subtraction is Go's: a DEBIT
    of 1 on the smallest balance exceeds it, and is applied: the run
    returns success, the transaction is PROCESSED and the balance is the
    largest one.  And the commit of the refusal is not checked (source line
    156): when it fails, a DEBIT of 10000 on an empty account is still
    answered non-retryable with the insufficient-balance error, while
    nothing was committed and the transaction is PENDING. *)
Lemma refusal_is_not_always_marked :
  (let t := Fixture.pending TransactionTypeDebit 1 "USD" 10%N in
   let run := ProcessTransactionCreated (Fixture.decoder t) no_faults 2
                (Fixture.database Int64.min t) (Fixture.envelope_with 7%N) in
   Int64.min - AmountCents t < 0 /\
   fst run = (false, None) /\
   status_of (snd run) 20%N = Some TransactionStatusProcessed /\
   status_of (snd run) 20%N <> Some TransactionStatusFailed /\
   balance_of (snd run) 10%N = Some Int64.max) /\
  (let t := Fixture.pending TransactionTypeDebit 10000 "USD" 10%N in
   let run := ProcessTransactionCreated (Fixture.decoder t) Fixture.failing_commit 2
                (Fixture.database 0 t) (Fixture.envelope_with 7%N) in
   0 - AmountCents t < 0 /\
   fst run
     = (false, Some "insufficient balance: insufficient balance: current=0, debit=10000") /\
   snd run = Fixture.database 0 t /\
   status_of (snd run) 20%N = Some TransactionStatusPending /\
   failure_reason_of (snd run) 20%N = Some None).
Proof.
  cbv zeta. split.
  - split; [reflexivity|]. split; [reflexivity|]. split; [reflexivity|].
    split; [vm_compute; discriminate | reflexivity].
  - split; [reflexivity|]. repeat split.
Qed.

(** C3: what the code does on the two other business failures.  When the
    account row is missing, or its currency is not the payload's, the run
    returns non-retryable with the error, and the database is the one it
    started from: the deferred rollback drops the [processed_events] row
    and the PROCESSING mark, and nothing marks the transaction FAILED. *)
Theorem other_business_failures_roll_back
    (json_Unmarshal : RawMessage -> result TransactionCreatedPayload)
    (f : Faults) (now : Z) (db : DB) (envelope : EventEnvelope)
    (payload : TransactionCreatedPayload) :
  json_Unmarshal (Payload envelope) = Ok payload ->
  (forall s, f s = None) ->
  select_processed_event db (EventID envelope) = None ->
  (lock_account db (p_AccountID payload) = None ->
     ProcessTransactionCreated json_Unmarshal f now db envelope
       = ((false, Some "account not found"), db)) /\
  (forall balance currency,
     lock_account db (p_AccountID payload) = Some (balance, currency) ->
     currency <> p_Currency payload ->
     ProcessTransactionCreated json_Unmarshal f now db envelope
       = ((false, Some ("currency mismatch: account=" ++ currency
                          ++ ", transaction=" ++ p_Currency payload)), db)).
Proof.
  intros Hp Hf Hnew.
  assert (Hrun : ProcessTransactionCreated json_Unmarshal f now db envelope
                 = applyInTransaction f now db envelope payload).
  { unfold ProcessTransactionCreated. now rewrite Hp, (Hf CheckProcessed), Hnew. }
  rewrite Hrun, (applyInTransaction_unrecorded f now db envelope payload Hnew).
  rewrite (Hf BeginTx), (Hf InsertProcessed), (Hf UpdateProcessing), (Hf LockAccount).
  split.
  - intros ->. reflexivity.
  - intros balance currency -> Hne.
    destruct (String.eqb_spec currency (p_Currency payload)); [contradiction|reflexivity].
Qed.

(** Scenario S5 of the specification: a credit in EUR on a USD account.
    The transaction is still PENDING after the run, without a failure
    reason, and the envelope id is not recorded. *)
Lemma other_business_failures_roll_back_witness :
  let t := Fixture.pending TransactionTypeCredit 1 "EUR" 10%N in
  let run := ProcessTransactionCreated (Fixture.decoder t) no_faults 2
               (Fixture.database 0 t) (Fixture.envelope_with 7%N) in
  fst run = (false, Some "currency mismatch: account=USD, transaction=EUR") /\
  status_of (snd run) 20%N = Some TransactionStatusPending /\
  failure_reason_of (snd run) 20%N = Some None /\
  processed_rows (snd run) 7%N = 0%nat.
Proof.
  cbv zeta.
  destruct (other_business_failures_roll_back
              (Fixture.decoder (Fixture.pending TransactionTypeCredit 1 "EUR" 10%N))
              no_faults 2
              (Fixture.database 0 (Fixture.pending TransactionTypeCredit 1 "EUR" 10%N))
              (Fixture.envelope_with 7%N)
              (Fixture.payload_of (Fixture.pending TransactionTypeCredit 1 "EUR" 10%N))
              eq_refl (fun _ => eq_refl) eq_refl)
    as [_ Hrun].
  rewrite (Hrun 0 "USD" eq_refl) by discriminate.
  repeat split.
Defined.

(** The same for an account that does not exist. *)
Example account_not_found_leaves_pending :
  let t := Fixture.pending TransactionTypeCredit 1 "USD" 11%N in
  let run := ProcessTransactionCreated (Fixture.decoder t) no_faults 2
               (Fixture.database 0 t) (Fixture.envelope_with 7%N) in
  fst run = (false, Some "account not found") /\
  status_of (snd run) 20%N = Some TransactionStatusPending /\
  processed_rows (snd run) 7%N = 0%nat.
Proof. cbv zeta. repeat split. Qed.

(** C8: a terminal status does not stay.  A debit of 100 on a balance of
    100 is applied by the envelope with id 7: PROCESSED, balance 0.  A
    second envelope for the same transaction with id 8 is not a duplicate
    for [processed_events]; it runs the debit again on the balance 0 and
    overwrites the status: PROCESSED becomes FAILED. *)
Theorem terminal_status_is_overwritten :
  let t := Fixture.pending TransactionTypeDebit 100 "USD" 10%N in
  let process := ProcessTransactionCreated (Fixture.decoder t) no_faults in
  let db1 := snd (process 2 (Fixture.database 100 t) (Fixture.envelope_with 7%N)) in
  let db2 := snd (process 3 db1 (Fixture.envelope_with 8%N)) in
  status_of db1 20%N = Some TransactionStatusProcessed /\
  balance_of db1 10%N = Some 0 /\
  status_of db2 20%N = Some TransactionStatusFailed /\
  balance_of db2 10%N = Some 0.
Proof. cbv zeta. repeat split. Qed.

(** The other direction: a debit refused on an empty account is FAILED;
    once the account holds 100, a second envelope for the same
    transaction makes it PROCESSED and takes the 100. *)
Example failed_becomes_processed :
  let t := Fixture.pending TransactionTypeDebit 100 "USD" 10%N in
  let process := ProcessTransactionCreated (Fixture.decoder t) no_faults in
  let db1 := snd (process 2 (Fixture.database 0 t) (Fixture.envelope_with 7%N)) in
  let db1' := update_balance db1 100 10%N 3 in
  let db2 := snd (process 4 db1' (Fixture.envelope_with 8%N)) in
  status_of db1 20%N = Some TransactionStatusFailed /\
  status_of db2 20%N = Some TransactionStatusProcessed /\
  balance_of db2 10%N = Some 0.
Proof. cbv zeta. repeat split. Qed.

End ProcessorProofs.

(** ** The consumer: retries, dead letters and offsets *)

Module ConsumerProofs.
Import Consumer WorkerFixture.

Section Exhausted.

Variable json_Unmarshal_envelope : string -> result EventEnvelope.
Variable json_Unmarshal_payload : RawMessage -> result TransactionCreatedPayload.
Variable c : KafkaConsumer.
Variable e : Environment.

Abbreviation loop := (retry_loop json_Unmarshal_payload c e).
Abbreviation process := (processMessage json_Unmarshal_envelope json_Unmarshal_payload c e).

(** The retry loop writes nothing to the log and commits nothing: it only
    adds the pauses between attempts. *)
Lemma retry_loop_only_sleeps (envelope : EventEnvelope) (remaining : nat) :
  forall attempt shouldRetry lastErr db log r db' log',
    loop envelope remaining attempt shouldRetry lastErr (db, log) = (r, (db', log')) ->
    exists pauses,
      log' = (log ++ pauses)%list /\
      forallb (fun o => negb (Kafka.is_commit o) && negb (Kafka.is_produce o)) pauses = true.
Proof.
  induction remaining as [|n IH]; intros attempt shouldRetry lastErr db log r db' log' H.
  - simpl in H. injection H as _ _ <-. exists []. now rewrite app_nil_r.
  - simpl in H. destruct shouldRetry; simpl in H.
    + destruct (Processor.ProcessTransactionCreated _ _ _ _ _) as [[sr le] db1].
      destruct sr; simpl in H.
      * apply IH in H. destruct H as [pauses [-> Hp]].
        destruct (0 <? attempt).
        -- exists (Kafka.Sleep (attempt * retryBackoff c) :: pauses).
           rewrite <- app_assoc. split; [reflexivity | exact Hp].
        -- exists pauses. split; [reflexivity | exact Hp].
      * injection H as _ _ <-. destruct (0 <? attempt).
        -- exists [Kafka.Sleep (attempt * retryBackoff c)]. split; reflexivity.
        -- exists []. now rewrite app_nil_r.
    + injection H as _ _ <-. exists []. now rewrite app_nil_r.
Qed.

(** C7: a message whose attempts were all retryable failures (the loop ends
    with shouldRetry and the last error).  The message written to the DLQ
    topic has the key and the bytes of the original and its headers followed
    by dlq_reason, original_partition and original_offset.  When the DLQ
    write fails, [processMessage] returns the error and the log holds what
    the loop left, which has no commit.  When it succeeds, the log grows by
    the DLQ message and then, if the commit succeeds, by the committed
    offset, in this order. *)
Theorem offset_committed_only_after_dlq (msg : Kafka.Message) (envelope : EventEnvelope)
    (w : World) (lastErr : string) (db' : DB) (log' : list Kafka.Op) :
  json_Unmarshal_envelope (Kafka.Value msg) = Ok envelope ->
  loop envelope (Z.to_nat (maxRetries c)) 0 true None w = ((true, Some lastErr), (db', log')) ->
  let dead := dlq_message msg lastErr in
  (Kafka.Key dead = Kafka.Key msg /\
   Kafka.Value dead = Kafka.Value msg /\
   Kafka.Headers dead =
     (Kafka.Headers msg ++
      [ {| Kafka.h_Key := "dlq_reason"; Kafka.h_Value := lastErr |};
        {| Kafka.h_Key := "original_partition"; Kafka.h_Value := Fmt.d (Kafka.Partition msg) |};
        {| Kafka.h_Key := "original_offset"; Kafka.h_Value := Fmt.d (Kafka.Offset msg) |} ])%list) /\
  (exists pauses,
     log' = (snd w ++ pauses)%list /\
     forallb (fun o => negb (Kafka.is_commit o) && negb (Kafka.is_produce o)) pauses = true) /\
  match dlq_fault e, commit_fault e with
  | Some cause, _ =>
    process msg w = (Some ("failed to write to DLQ: " ++ cause), (db', log'))
  | None, None =>
    process msg w =
      (None, (db', (log' ++ [Kafka.Produce (dlqTopic c) dead; Kafka.CommitOffset msg])%list))
  | None, Some cause =>
    process msg w =
      (Some ("failed to commit message: " ++ cause),
       (db', (log' ++ [Kafka.Produce (dlqTopic c) dead])%list))
  end.
Proof.
  intros Henv Hloop. cbv zeta. split; [repeat split|]. split.
  - destruct w as [db log]. exact (retry_loop_only_sleeps _ _ _ _ _ _ _ _ _ _ Hloop).
  - unfold processMessage. rewrite Henv, Hloop. unfold sendToDLQ, CommitMessages.
    destruct (dlq_fault e); [reflexivity|].
    destruct (commit_fault e); [reflexivity|].
    rewrite <- app_assoc. reflexivity.
Qed.

End Exhausted.

(** Five attempts that all lose the database connection, two seconds of
    base backoff, a DLQ that acknowledges: four pauses, the dead letter,
    then the commit. *)
Lemma offset_committed_only_after_dlq_witness :
  let reason := "failed to check idempotency: driver: bad connection" in
  processMessage envelope_decoder payload_decoder worker (outage None) poison start =
    (None,
     (fst start,
      [Kafka.Sleep 2; Kafka.Sleep 4; Kafka.Sleep 6; Kafka.Sleep 8;
       Kafka.Produce "transactions.dlq" (dlq_message poison reason);
       Kafka.CommitOffset poison])).
Proof.
  cbv zeta.
  pose proof (offset_committed_only_after_dlq envelope_decoder payload_decoder worker
                (outage None) poison (Fixture.envelope_with 7%N) start
                "failed to check idempotency: driver: bad connection"
                (fst start) [Kafka.Sleep 2; Kafka.Sleep 4; Kafka.Sleep 6; Kafka.Sleep 8]
                eq_refl eq_refl) as H.
  cbv zeta in H. destruct H as (_ & _ & H). exact H.
Defined.

(** The same outage with a DLQ that does not acknowledge: nothing is
    produced and no offset is committed. *)
Example dlq_failure_commits_nothing :
  processMessage envelope_decoder payload_decoder worker
    (outage (Some "dial tcp: connection refused")) poison start =
    (Some "failed to write to DLQ: dial tcp: connection refused",
     (fst start, [Kafka.Sleep 2; Kafka.Sleep 4; Kafka.Sleep 6; Kafka.Sleep 8])).
Proof. reflexivity. Qed.

(** A credit in EUR on a USD account, with nothing failing: the first
    attempt returns the non-retryable error, nothing goes to the DLQ, the
    offset is committed, and the transaction is still PENDING. *)
Example currency_mismatch_is_consumed :
  let t := Fixture.pending TransactionTypeCredit 1 "EUR" 10%N in
  let db := Fixture.database 0 t in
  let calm := {| attempt_faults := fun _ => Processor.no_faults; attempt_clock := fun n => n;
                 dlq_fault := None; commit_fault := None |} in
  processMessage envelope_decoder (Fixture.decoder t) worker calm poison (db, [])
    = (None, (db, [Kafka.CommitOffset poison])) /\
  Processor.status_of db 20%N = Some TransactionStatusPending.
Proof. cbv zeta. split; reflexivity. Qed.

End ConsumerProofs.

(** ** The Ingress *)

Module ServiceProofs.
Import Service IngressFixture.

Lemma same_key_refl (t : Transaction) : same_key (AccountID t) (IdempotencyKey t) t = true.
Proof. unfold same_key. now rewrite N.eqb_refl, String.eqb_refl. Qed.

Lemma same_key_spec (account_id : UUID) (key : string) (t : Transaction) :
  same_key account_id key t = true <-> (AccountID t, IdempotencyKey t) = (account_id, key).
Proof.
  unfold same_key. rewrite andb_true_iff, N.eqb_eq, String.eqb_eq.
  split; [intros [-> ->]; reflexivity | intros [= -> ->]; split; reflexivity].
Qed.

Lemma existsb_false_not_in {A B : Type} (p : A -> bool) (key : A -> B) (k : B) (l : list A) :
  (forall a, p a = true <-> key a = k) ->
  existsb p l = false -> ~ In k (map key l).
Proof.
  intros Hp He Hin. apply in_map_iff in Hin. destruct Hin as [a [Ha Hin]].
  assert (existsb p l = true) by (apply existsb_exists; exists a; split; [exact Hin | now apply Hp]).
  congruence.
Qed.

Lemma NoDup_snoc {B : Type} (l : list B) (k : B) : NoDup l -> ~ In k l -> NoDup (l ++ [k]).
Proof.
  intros Hnd Hk. apply NoDup_incl_NoDup with (l := k :: l).
  - now constructor.
  - rewrite length_app. simpl. lia.
  - intros x [<-|Hx]; apply in_or_app; [right; now left | now left].
Qed.

Section OneCall.

Variable json_Marshal : TransactionCreatedPayload -> result RawMessage.
Variable f : Faults.
Variable now : Z.
Variable txID outboxID : UUID.
Variable interleaved : DB -> DB.
Variable db : DB.
Variable req : CreateTransactionRequest.

Abbreviation row := (new_transaction txID req now).

Lemma CreateTransaction_ended :
  ended json_Marshal now txID outboxID interleaved db req
    (CreateTransaction json_Marshal f now txID outboxID interleaved db req).
Proof.
  unfold CreateTransaction.
  destruct (f BeginTx); [apply Rejected|].
  destruct (f CheckExisting); [apply Rejected|].
  destruct (select_by_key db _ _) as [existingTx|] eqn:Hsel; [now apply Replayed|].
  destruct (f SelectAccount); [apply Rejected|].
  destruct (select_account db _) as [account|]; [|apply Rejected].
  destruct (negb _); [apply Rejected|].
  destruct (req_AmountCents req <=? 0); [apply Rejected|].
  unfold insert_transaction.
  destruct (f InsertTransaction) as [cause|].
  { destruct (String.eqb cause unique_violation); [|apply Failed].
    destruct (f ReRead); apply Failed. }
  cbn [ID AccountID IdempotencyKey new_transaction].
  destruct (existsb (fun t => N.eqb (ID t) txID) _) eqn:Hpk.
  { replace (String.eqb transactions_pkey_violation unique_violation) with false by reflexivity.
    apply Failed. }
  destruct (existsb (same_key _ _) _) eqn:Hkey.
  { rewrite String.eqb_refl.
    destruct (f ReRead); apply Failed. }
  destruct (json_Marshal _) as [payloadBytes|] eqn:Hm; [|apply Failed].
  unfold insert_outbox.
  destruct (f InsertOutbox); [apply Failed|].
  cbn [ob_id outbox_row outbox_events with_transactions].
  destruct (existsb (fun o => N.eqb (ob_id o) outboxID) _) eqn:Hob; [apply Failed|].
  destruct (f Commit); [apply Failed|].
  now apply Inserted.
Qed.

End OneCall.

(** *** What every call keeps *)

Lemma keeps_refl (d : DB) : keeps d d.
Proof. split; [exists []; now rewrite app_nil_r | tauto]. Qed.

Lemma keeps_trans (d1 d2 d3 : DB) : keeps d1 d2 -> keeps d2 d3 -> keeps d1 d3.
Proof.
  intros [[x1 H1] [U1 C1]] [[x2 H2] [U2 C2]]. split; [|tauto].
  exists (x1 ++ x2)%list. now rewrite H2, H1, app_assoc.
Qed.

Lemma select_by_key_extends (d d' : DB) (account_id : UUID) (key : string) (t : Transaction) :
  extends d d' -> select_by_key d account_id key = Some t ->
  select_by_key d' account_id key = Some t.
Proof.
  intros [extra H] Hsel. unfold select_by_key in *. rewrite H.
  now apply ProcessorProofs.find_app_some.
Qed.

Section Inserted.

Variable txID outboxID : UUID.
Variable req : CreateTransactionRequest.
Variable now : Z.
Variable base : DB.
Variable payloadBytes : RawMessage.

Hypothesis fresh_id :
  existsb (fun t => N.eqb (ID t) txID) (transactions base) = false.
Hypothesis fresh_key :
  existsb (same_key (req_AccountID req) (req_IdempotencyKey req)) (transactions base) = false.

Abbreviation row := (new_transaction txID req now).
Abbreviation after := (inserted now txID outboxID req base payloadBytes).

Lemma inserted_extends : extends base after.
Proof. exists [row]. reflexivity. Qed.

Lemma inserted_unique : unique_keys base -> unique_keys after.
Proof.
  unfold unique_keys. intros Hu. cbn [inserted transactions with_outbox_events with_transactions].
  rewrite map_app. apply NoDup_snoc; [exact Hu|].
  apply (existsb_false_not_in (same_key (req_AccountID req) (req_IdempotencyKey req))).
  - intros a. apply same_key_spec.
  - exact fresh_key.
Qed.

Lemma txID_not_in : ~ In txID (map ID (transactions base)).
Proof.
  apply (existsb_false_not_in (fun t => N.eqb (ID t) txID)); [|exact fresh_id].
  intros a. apply N.eqb_eq.
Qed.

Lemma outbox_of_inserted (id : UUID) :
  outbox_of after id =
  (outbox_of base id ++
   if N.eqb txID id then [outbox_row outboxID row payloadBytes now] else [])%list.
Proof.
  unfold outbox_of. cbn [inserted outbox_events with_outbox_events].
  rewrite filter_app. reflexivity.
Qed.

Lemma inserted_coupled : coupled base -> coupled after.
Proof.
  intros (Hpk & Hone & Hback). split; [|split].
  - cbn [inserted transactions with_outbox_events with_transactions].
    rewrite map_app. apply NoDup_snoc; [exact Hpk | exact txID_not_in].
  - intros t Hin. rewrite outbox_of_inserted, length_app.
    cbn [inserted transactions with_outbox_events with_transactions] in Hin.
    apply in_app_or in Hin. destruct Hin as [Hin | [<- | []]].
    + rewrite (Hone t Hin).
      destruct (N.eqb_spec txID (ID t)) as [E|_]; [|reflexivity].
      exfalso. apply txID_not_in. rewrite E. now apply in_map.
    + cbn [ID new_transaction]. rewrite N.eqb_refl.
      destruct (outbox_of base txID) as [|o os] eqn:Ho; [reflexivity|].
      exfalso.
      assert (Hino : In o (outbox_of base txID)) by (rewrite Ho; now left).
      unfold outbox_of in Hino. apply filter_In in Hino. destruct Hino as [Hino Hp].
      apply andb_true_iff in Hp. destruct Hp as [Hty Hag].
      apply String.eqb_eq in Hty. apply N.eqb_eq in Hag.
      destruct (Hback o Hino Hty) as [t [Ht Hid]].
      apply txID_not_in. rewrite <- Hag, <- Hid. now apply in_map.
  - intros o Hin Hty.
    cbn [inserted outbox_events transactions with_outbox_events with_transactions] in *.
    apply in_app_or in Hin. destruct Hin as [Hin | [<- | []]].
    + destruct (Hback o Hin Hty) as [t [Ht Hid]].
      exists t. split; [apply in_or_app; now left | exact Hid].
    + exists row. split; [apply in_or_app; right; now left | reflexivity].
Qed.

Lemma inserted_keeps : keeps base after.
Proof.
  split; [exact inserted_extends|]. split; [exact inserted_unique | exact inserted_coupled].
Qed.

Lemma select_by_key_inserted :
  select_by_key after (req_AccountID req) (req_IdempotencyKey req) = Some row.
Proof.
  unfold select_by_key. cbn [inserted transactions with_outbox_events with_transactions].
  rewrite ProcessorProofs.find_app_none
    by (now apply ProcessorProofs.find_none_existsb).
  cbn [find]. unfold same_key. cbn [AccountID IdempotencyKey new_transaction].
  now rewrite N.eqb_refl, String.eqb_refl.
Qed.

End Inserted.

(** *** One call, many calls *)

Section Calls.

Variable json_Marshal : TransactionCreatedPayload -> result RawMessage.

Lemma ended_keeps (f : Faults) (now : Z) (txID outboxID : UUID) (interleaved : DB -> DB)
    (db : DB) (req : CreateTransactionRequest) (out : result Transaction * DB) :
  (forall d, keeps d (interleaved d)) ->
  ended json_Marshal now txID outboxID interleaved db req out ->
  keeps db (snd out) /\
  (forall t, fst out = Ok t ->
     select_by_key (snd out) (req_AccountID req) (req_IdempotencyKey req) = Some t).
Proof.
  intros Hg Hend.
  destruct Hend as [t Hsel | e | e | bytes Hnone Hid Hkey Hob Hm]; cbn [fst snd].
  - split; [apply keeps_refl|]. now intros t' [= <-].
  - split; [apply keeps_refl | discriminate].
  - split; [apply Hg | discriminate].
  - split.
    + apply keeps_trans with (d2 := interleaved db); [apply Hg|].
      now apply inserted_keeps.
    + intros t' [= <-]. now apply select_by_key_inserted.
Qed.

Lemma call_alone_keeps (a : Args) (d : DB) : keeps d (snd (call_alone json_Marshal a d)).
Proof.
  unfold call_alone.
  apply (ended_keeps (a_faults a) (a_now a) (a_txID a) (a_outboxID a) (fun d => d) d (a_req a)).
  - apply keeps_refl.
  - apply CreateTransaction_ended.
Qed.

Lemma interleaving_keeps (c : Call) (d : DB) : keeps d (interleaving json_Marshal c d).
Proof.
  unfold interleaving. destruct (c_concurrent c); [apply call_alone_keeps | apply keeps_refl].
Qed.

Lemma call_keeps (c : Call) (d : DB) :
  keeps d (snd (call json_Marshal c d)) /\
  (forall t, fst (call json_Marshal c d) = Ok t ->
     select_by_key (snd (call json_Marshal c d))
       (req_AccountID (a_req (c_args c))) (req_IdempotencyKey (a_req (c_args c))) = Some t).
Proof.
  unfold call.
  apply (ended_keeps (a_faults (c_args c)) (a_now (c_args c)) (a_txID (c_args c))
           (a_outboxID (c_args c)) (interleaving json_Marshal c) d (a_req (c_args c))).
  - apply interleaving_keeps.
  - apply CreateTransaction_ended.
Qed.

Lemma calls_keep (account_id : UUID) (key : string) (cs : list Call) :
  same_request_key account_id key cs ->
  forall d,
    keeps d (snd (calls json_Marshal cs d)) /\
    (forall t, In (Ok t) (fst (calls json_Marshal cs d)) ->
       select_by_key (snd (calls json_Marshal cs d)) account_id key = Some t).
Proof.
  induction 1 as [|c cs [Hacc Hkey] Hcs IH]; intros d.
  - split; [apply keeps_refl | intros t []].
  - cbn [calls].
    destruct (call_keeps c d) as [Hk Hsel].
    destruct (call json_Marshal c d) as [r d1]. cbn [fst snd] in Hk, Hsel.
    destruct (IH d1) as [Hk' Hsel'].
    destruct (calls json_Marshal cs d1) as [rs d2]. cbn [fst snd] in *.
    split; [now apply keeps_trans with (d2 := d1)|].
    intros t [-> | Hin]; [|now apply Hsel'].
    rewrite <- Hacc, <- Hkey.
    apply select_by_key_extends with (d := d1); [apply Hk' | now apply Hsel].
Qed.

Lemma calls_keep_coupled (cs : list Call) :
  forall d, coupled d -> coupled (snd (calls json_Marshal cs d)).
Proof.
  induction cs as [|c cs IH]; intros d Hc; [exact Hc|].
  cbn [calls].
  destruct (call_keeps c d) as [(_ & _ & Hk) _].
  destruct (call json_Marshal c d) as [r d1]. cbn [snd] in Hk.
  specialize (IH d1 (Hk Hc)).
  destruct (calls json_Marshal cs d1) as [rs d2]. exact IH.
Qed.

End Calls.

Lemma rows_of_key_unique (d : DB) (account_id : UUID) (key : string) :
  unique_keys d -> (rows_of_key d account_id key <= 1)%nat.
Proof.
  unfold unique_keys, rows_of_key.
  induction (transactions d) as [|t ts IH]; simpl; [lia|].
  intros Hnd. inversion Hnd as [|k ks Hnotin Hnd']; subst.
  destruct (same_key account_id key t) eqn:Ht; [|auto].
  simpl. destruct (filter _ ts) as [|t' rest] eqn:F; [simpl; lia|].
  exfalso. apply Hnotin.
  assert (Hin : In t' (filter (same_key account_id key) ts)) by (rewrite F; now left).
  apply filter_In in Hin. destruct Hin as [Hin Hk].
  apply same_key_spec in Ht. apply same_key_spec in Hk.
  apply in_map_iff. exists t'. split; [congruence | exact Hin].
Qed.

(** C2: the call that loses the race.  The key has no row when the call
    checks it and has one, committed by another request, when the call
    inserts.  The call then does not return the winning row, whatever the
    driver answers: it returns an error and writes nothing, so the database
    is the one the winner left (or the one before, if the call gave up
    earlier).  When no call to the database fails for a reason of its own,
    the account is ACTIVE, the amount is positive and the fresh id is not
    taken, the INSERT fails on the unique constraint, the re-read is sent on
    the transaction this has aborted, and the error returned is the one
    PostgreSQL gives to it. *)
Theorem race_loser_gets_an_error
    (json_Marshal : TransactionCreatedPayload -> result RawMessage)
    (f : Faults) (now : Z) (txID outboxID : UUID) (interleaved : DB -> DB) (db : DB)
    (req : CreateTransactionRequest) (winner : Transaction) :
  select_by_key db (req_AccountID req) (req_IdempotencyKey req) = None ->
  select_by_key (interleaved db) (req_AccountID req) (req_IdempotencyKey req) = Some winner ->
  let out := CreateTransaction json_Marshal f now txID outboxID interleaved db req in
  (exists e, fst out = Err e) /\
  (snd out = db \/ snd out = interleaved db) /\
  (forall account,
     (forall s, f s = None) ->
     select_account db (req_AccountID req) = Some account ->
     acc_Status account = AccountStatusActive ->
     0 < req_AmountCents req ->
     ~ In txID (map ID (transactions (interleaved db))) ->
     out = (Err ("failed to create transaction: " ++ aborted_transaction), interleaved db)).
Proof.
  intros Hnone Hwon. cbv zeta.
  assert (Hkey : existsb (same_key (req_AccountID req) (req_IdempotencyKey req))
                   (transactions (interleaved db)) = true).
  { unfold select_by_key in Hwon. apply find_some in Hwon.
    apply existsb_exists. now exists winner. }
  split; [|split].
  - destruct (CreateTransaction_ended json_Marshal f now txID outboxID interleaved db req)
      as [t Hsel | e | e | bytes _ _ Hfresh _ _]; cbn [fst]; eauto; congruence.
  - destruct (CreateTransaction_ended json_Marshal f now txID outboxID interleaved db req)
      as [t Hsel | e | e | bytes _ _ Hfresh _ _]; cbn [snd]; auto; congruence.
  - intros account Hf Hacc Hact Hpos Htx. unfold CreateTransaction.
    rewrite !Hf, Hnone, Hacc, Hact.
    replace (negb (AccountStatusActive =? AccountStatusActive)%string) with false
      by (now rewrite String.eqb_refl).
    destruct (Z.leb_spec (req_AmountCents req) 0) as [H|_]; [lia|].
    unfold insert_transaction. rewrite ?Hf.
    change (ID (new_transaction txID req now)) with txID.
    change (AccountID (new_transaction txID req now)) with (req_AccountID req).
    change (IdempotencyKey (new_transaction txID req now)) with (req_IdempotencyKey req).
    assert (Hid : existsb (fun t => N.eqb (ID t) txID) (transactions (interleaved db))
                  = false).
    { destruct (existsb (fun t => N.eqb (ID t) txID) (transactions (interleaved db))) eqn:E;
        [|reflexivity].
      apply existsb_exists in E. destruct E as [x [Hin Hx]]. apply N.eqb_eq in Hx.
      exfalso. apply Htx. rewrite <- Hx. now apply in_map. }
    rewrite Hid, Hkey, String.eqb_refl, ?Hf. reflexivity.
Qed.

(** Two requests for the key "k1" of an empty ledger at the same time: the
    one for 999 commits while the one for 100 is between its check and its
    INSERT.  The loser gets the error; the winner's row is the only one. *)
Lemma race_loser_gets_an_error_witness :
  let loser := {| c_args := args 1 100 TransactionTypeCredit;
                  c_concurrent := Some (args 2 999 TransactionTypeDebit) |} in
  let winner := new_transaction 22%N (request 999 TransactionTypeDebit) 2 in
  fst (call marshal loser empty_ledger)
    = Err ("failed to create transaction: " ++ aborted_transaction) /\
  transactions (snd (call marshal loser empty_ledger)) = [winner].
Proof.
  cbv zeta.
  destruct (race_loser_gets_an_error marshal no_faults 1 21%N 31%N
              (interleaving marshal
                 {| c_args := args 1 100 TransactionTypeCredit;
                    c_concurrent := Some (args 2 999 TransactionTypeDebit) |})
              empty_ledger (request 100 TransactionTypeCredit)
              (new_transaction 22%N (request 999 TransactionTypeDebit) 2)
              eq_refl eq_refl) as [_ [_ H]].
  specialize (H (Fixture.account 0) (fun _ => eq_refl) eq_refl eq_refl eq_refl).
  assert (Hfresh : ~ In 21%N
            (map ID (transactions
               (interleaving marshal
                  {| c_args := args 1 100 TransactionTypeCredit;
                     c_concurrent := Some (args 2 999 TransactionTypeDebit) |}
                  empty_ledger)))).
  { simpl. intros [E | []]. discriminate E. }
  specialize (H Hfresh). unfold call. cbn [c_args a_faults a_now a_txID a_outboxID a_req args].
  change (Z.of_N 1) with 1. change (20 + 1)%N with 21%N. change (30 + 1)%N with 31%N.
  rewrite H. split; reflexivity.
Defined.

(** X27: [M] calls of [CreateTransaction] with the same account and
    idempotency key, whatever their other fields, whatever fails in each,
    and whether or not another request commits in the middle of a call.
    While the unique constraint holds at the start: the key has at most one
    row at the end; every call that returns a transaction returns the row
    of the key, so all return the same one; the rows that existed at the
    start are still there, unchanged and in place; and if the key had a row
    at the start, that row is what every call returns. *)
Theorem ingress_idempotent (json_Marshal : TransactionCreatedPayload -> result RawMessage)
    (account_id : UUID) (key : string) (cs : list Call) (db : DB) :
  unique_keys db ->
  same_request_key account_id key cs ->
  let results := fst (calls json_Marshal cs db) in
  let db' := snd (calls json_Marshal cs db) in
  (rows_of_key db' account_id key <= 1)%nat /\
  (forall t, In (Ok t) results -> select_by_key db' account_id key = Some t) /\
  (forall t1 t2, In (Ok t1) results -> In (Ok t2) results -> t1 = t2) /\
  (exists extra, transactions db' = (transactions db ++ extra)%list) /\
  (forall original, select_by_key db account_id key = Some original ->
     forall t, In (Ok t) results -> t = original).
Proof.
  intros Hu Hcs. cbv zeta.
  destruct (calls_keep json_Marshal account_id key cs Hcs db) as [(Hext & Huniq & _) Hsel].
  split; [apply rows_of_key_unique; now apply Huniq|].
  split; [exact Hsel|].
  split; [intros t1 t2 H1 H2; apply Hsel in H1; apply Hsel in H2; congruence|].
  split; [exact Hext|].
  intros original Ho t Ht. apply Hsel in Ht.
  apply (select_by_key_extends _ _ _ _ _ Hext) in Ho. congruence.
Qed.

(** Three calls on the key "k1" of an empty ledger, the first one losing
    the race: it gets an error, the two after it return the winner's row,
    the only row. *)
Lemma ingress_idempotent_witness :
  let winner := new_transaction 22%N (request 999 TransactionTypeDebit) 2 in
  fst (calls marshal three_calls empty_ledger)
    = [Err ("failed to create transaction: " ++ aborted_transaction); Ok winner; Ok winner] /\
  transactions (snd (calls marshal three_calls empty_ledger)) = [winner] /\
  (rows_of_key (snd (calls marshal three_calls empty_ledger)) 10%N "k1" <= 1)%nat.
Proof.
  cbv zeta.
  assert (Hu : unique_keys empty_ledger) by constructor.
  assert (Hk : same_request_key 10%N "k1" three_calls)
    by (repeat constructor).
  destruct (ingress_idempotent marshal 10%N "k1" three_calls empty_ledger Hu Hk)
    as (Hrows & _).
  split; [reflexivity|]. split; [reflexivity | exact Hrows].
Defined.

(** C6: a call of [CreateTransaction] that runs alone either fails and
    leaves the database as it was, or returns the existing row of the key
    and leaves the database as it was, or inserted: then the returned
    transaction is PENDING and is the one new transaction row, and there is
    one new outbox row, with aggregate type "transaction", the
    transaction's id as aggregate id, event type "transaction.created" and
    status PENDING; nothing else changed.  And over any sequence of calls,
    with or without a request committing in the middle of a call, the
    coupling is kept: every transaction has exactly one outbox row and
    every outbox row of a transaction has its transaction. *)
Theorem outbox_commit_coupling (json_Marshal : TransactionCreatedPayload -> result RawMessage) :
  (forall (a : Args) (db : DB),
     let out := call_alone json_Marshal a db in
     let account_id := req_AccountID (a_req a) in
     let key := req_IdempotencyKey (a_req a) in
     match fst out with
     | Err _ => snd out = db
     | Ok t =>
       (select_by_key db account_id key = Some t /\ snd out = db) \/
       (select_by_key db account_id key = None /\
        Status t = TransactionStatusPending /\ ID t = a_txID a /\
        transactions (snd out) = (transactions db ++ [t])%list /\
        accounts (snd out) = accounts db /\
        processed_events (snd out) = processed_events db /\
        exists o,
          outbox_events (snd out) = (outbox_events db ++ [o])%list /\
          ob_aggregate_type o = "transaction" /\ ob_aggregate_id o = ID t /\
          ob_event_type o = "transaction.created" /\ ob_status o = "PENDING" /\
          json_Marshal (created_payload t) = Ok (ob_payload o))
     end) /\
  (forall (cs : list Call) (db : DB),
     coupled db -> coupled (snd (calls json_Marshal cs db))).
Proof.
  split; [|intros cs db; apply calls_keep_coupled].
  intros a db. cbv zeta. unfold call_alone.
  pose proof (CreateTransaction_ended json_Marshal (a_faults a) (a_now a) (a_txID a)
                (a_outboxID a) (fun d => d) db (a_req a)) as Hend.
  destruct Hend as [t Hsel | e | e | bytes Hnone Hid Hkey Hob Hm]; cbn [fst snd].
  - left. split; [exact Hsel | reflexivity].
  - reflexivity.
  - reflexivity.
  - right. split; [exact Hnone|]. repeat (split; [reflexivity|]).
    eexists. split; [reflexivity|]. repeat (split; [reflexivity|]). exact Hm.
Qed.

(** A first credit on an empty ledger: one transaction row, one outbox row
    for it, and the coupling holds before and after. *)
Lemma outbox_commit_coupling_witness :
  let out := call_alone marshal (args 1 100 TransactionTypeCredit) empty_ledger in
  coupled empty_ledger /\
  coupled (snd (calls marshal three_calls empty_ledger)) /\
  List.length (transactions (snd out)) = 1%nat /\
  map ob_aggregate_id (outbox_events (snd out)) = map ID (transactions (snd out)).
Proof.
  cbv zeta.
  assert (Hc : coupled empty_ledger).
  { split; [constructor|]. split; [intros t [] | intros o []]. }
  split; [exact Hc|].
  split; [exact (proj2 (outbox_commit_coupling marshal) three_calls empty_ledger Hc)|].
  split; reflexivity.
Defined.

End ServiceProofs.

(** ** More on the Applier *)

Module ApplierFacts.
Import Processor ProcessorProofs.

Lemma update_where_map {A B : Type} (g : A -> B) (cond : A -> bool) (set : A -> A)
    (rows : list A) :
  (forall r, g (set r) = g r) -> map g (update_where cond set rows) = map g rows.
Proof.
  intros Hg. unfold update_where. rewrite map_map. apply map_ext.
  intros r. now destruct (cond r).
Qed.

Lemma find_update_where_other {A : Type} (key : A -> N) (k k' : N) (cond : A -> bool)
    (set : A -> A) (rows : list A) :
  (forall r, key (set r) = key r) ->
  (forall r, cond r = true -> key r = k) ->
  k' <> k ->
  find (fun r => N.eqb (key r) k') (update_where cond set rows)
    = find (fun r => N.eqb (key r) k') rows.
Proof.
  intros Hkey Hcond Hne. rewrite (find_update_where key k') by exact Hkey.
  destruct (find _ rows) as [r|] eqn:F; [|reflexivity].
  apply find_some in F. destruct F as [_ F]. apply N.eqb_eq in F. simpl.
  destruct (cond r) eqn:Hc; [|reflexivity].
  apply Hcond in Hc. congruence.
Qed.

Section OneRun.

Variable json_Unmarshal : RawMessage -> result TransactionCreatedPayload.
Variable f : Faults.
Variable now : Z.
Variable db : DB.
Variable envelope : EventEnvelope.

Abbreviation run := (ProcessTransactionCreated json_Unmarshal f now db envelope).

(** The database after a run is the one before, or one of the two
    databases an unrecorded envelope can commit. *)
Lemma run_database :
  snd run = db \/
  exists payload currentBalance,
    json_Unmarshal (Payload envelope) = Ok payload /\
    select_processed_event db (EventID envelope) = None /\
    lock_account db (p_AccountID payload) = Some (currentBalance, p_Currency payload) /\
    fst (fst run) = false /\
    ((snd run = applied db envelope payload now currentBalance /\
      ((new_balance payload currentBalance <? 0)
         && String.eqb (p_Type payload) TransactionTypeDebit) = false) \/
     (snd run = refused db envelope payload now currentBalance /\
      new_balance payload currentBalance < 0 /\
      p_Type payload = TransactionTypeDebit)).
Proof.
  destruct (select_processed_event db (EventID envelope)) as [e|] eqn:Hsel.
  - left. apply recorded_unchanged. congruence.
  - destruct (json_Unmarshal (Payload envelope)) as [payload|e] eqn:Hp.
    + pose proof (unrecorded_committed json_Unmarshal f now db envelope payload Hp Hsel) as Hc.
      inversion Hc as [r Hr | bal Hl Hok Hr | bal Hl Hneg Hd Hr].
      * left. reflexivity.
      * right. exists payload, bal. repeat split; try assumption. left. now split.
      * right. exists payload, bal. repeat split; try assumption. right. now repeat split.
    + left. unfold ProcessTransactionCreated. now rewrite Hp.
Qed.

End OneRun.

Lemma retry_has_error
    (json_Unmarshal : RawMessage -> result TransactionCreatedPayload)
    (f : Faults) (now : Z) (db : DB) (envelope : EventEnvelope) :
  fst (fst (ProcessTransactionCreated json_Unmarshal f now db envelope)) = true ->
  snd (fst (ProcessTransactionCreated json_Unmarshal f now db envelope)) <> None.
Proof.
  unfold ProcessTransactionCreated, retryable.
  destruct (json_Unmarshal _) as [payload|]; [|discriminate].
  destruct (f CheckProcessed); [discriminate|].
  destruct (select_processed_event db _) eqn:Hsel; [discriminate|].
  rewrite (applyInTransaction_unrecorded f now db envelope payload Hsel).
  unfold retryable.
  repeat match goal with
         | |- context [match ?x with _ => _ end] => destruct x; try discriminate
         end.
Qed.

(** X1: a run that asks for a retry has written nothing: whenever
    [ProcessTransactionCreated] returns shouldRetry, the database is the
    one it started from, whatever failed and wherever. *)
Theorem retry_leaves_database_unchanged
    (json_Unmarshal : RawMessage -> result TransactionCreatedPayload)
    (f : Faults) (now : Z) (db : DB) (envelope : EventEnvelope) :
  fst (fst (ProcessTransactionCreated json_Unmarshal f now db envelope)) = true ->
  snd (ProcessTransactionCreated json_Unmarshal f now db envelope) = db.
Proof.
  intros Hretry.
  destruct (run_database json_Unmarshal f now db envelope)
    as [H | (payload & bal & _ & _ & _ & Hfalse & _)]; [exact H | congruence].
Qed.

(** A credit whose balance update fails after the envelope id was inserted
    and the transaction marked PROCESSING. *)
Lemma retry_leaves_database_unchanged_witness :
  let t := Fixture.pending TransactionTypeCredit 50 "USD" 10%N in
  let f := fun s => match s with UpdateBalance => Some "driver: bad connection" | _ => None end in
  ProcessTransactionCreated (Fixture.decoder t) f 2 (Fixture.database 100 t)
    (Fixture.envelope_with 7%N)
  = ((true, Some "failed to update balance: driver: bad connection"), Fixture.database 100 t).
Proof.
  cbv zeta.
  pose proof (retry_leaves_database_unchanged
                (Fixture.decoder (Fixture.pending TransactionTypeCredit 50 "USD" 10%N))
                (fun s => match s with
                          | UpdateBalance => Some "driver: bad connection"
                          | _ => None
                          end)
                2 (Fixture.database 100 (Fixture.pending TransactionTypeCredit 50 "USD" 10%N))
                (Fixture.envelope_with 7%N) eq_refl) as H.
  apply injective_projections; [reflexivity | exact H].
Defined.

Lemma success_was_applied
    (json_Unmarshal : RawMessage -> result TransactionCreatedPayload)
    (f : Faults) (now : Z) (db : DB) (envelope : EventEnvelope)
    (payload : TransactionCreatedPayload) :
  json_Unmarshal (Payload envelope) = Ok payload ->
  select_processed_event db (EventID envelope) = None ->
  fst (ProcessTransactionCreated json_Unmarshal f now db envelope) = (false, None) ->
  exists currentBalance,
    snd (ProcessTransactionCreated json_Unmarshal f now db envelope)
      = applied db envelope payload now currentBalance.
Proof.
  intros Hp Hnew. unfold ProcessTransactionCreated. rewrite Hp.
  unfold retryable.
  destruct (f CheckProcessed); [discriminate|].
  rewrite Hnew, (applyInTransaction_unrecorded f now db envelope payload Hnew).
  unfold retryable.
  destruct (f BeginTx); [discriminate|].
  destruct (f InsertProcessed); [discriminate|].
  destruct (f UpdateProcessing); [discriminate|].
  destruct (f LockAccount); [discriminate|].
  destruct (lock_account db _) as [[bal cur]|]; [|discriminate].
  destruct (negb _); [discriminate|].
  destruct (_ && _).
  - destruct (f MarkFailed); discriminate.
  - destruct (f UpdateBalance); [discriminate|].
    destruct (f MarkProcessed); [discriminate|].
    destruct (f Commit); [discriminate|].
    intros _. now exists bal.
Qed.

(** X2: a run that returns success leaves the envelope id in
    [processed_events]; from then on no run on that envelope writes
    anything, whatever fails in it. *)
Theorem success_is_recorded
    (json_Unmarshal : RawMessage -> result TransactionCreatedPayload)
    (f : Faults) (now : Z) (db db' : DB) (envelope : EventEnvelope)
    (payload : TransactionCreatedPayload) :
  json_Unmarshal (Payload envelope) = Ok payload ->
  ProcessTransactionCreated json_Unmarshal f now db envelope = ((false, None), db') ->
  select_processed_event db' (EventID envelope) <> None /\
  (forall f' now', snd (ProcessTransactionCreated json_Unmarshal f' now' db' envelope) = db') /\
  (forall ds, deliver json_Unmarshal db' envelope ds = db').
Proof.
  intros Hp Hrun.
  assert (Hrec : select_processed_event db' (EventID envelope) <> None).
  { destruct (select_processed_event db (EventID envelope)) as [e|] eqn:Hsel.
    - pose proof (recorded_unchanged json_Unmarshal f now db envelope) as H.
      rewrite Hrun in H. cbn [snd] in H. rewrite H; congruence.
    - destruct (success_was_applied json_Unmarshal f now db envelope payload Hp Hsel)
        as [bal Hbal]; [now rewrite Hrun|].
      rewrite Hrun in Hbal. cbn [snd] in Hbal. rewrite Hbal. apply recorded_applied. }
  split; [exact Hrec|]. split.
  - intros f' now'. now apply recorded_unchanged.
  - intros ds. now apply deliver_recorded.
Qed.

Lemma success_is_recorded_witness :
  let t := Fixture.pending TransactionTypeCredit 50 "USD" 10%N in
  let db' := snd (ProcessTransactionCreated (Fixture.decoder t) no_faults 2
                    (Fixture.database 100 t) (Fixture.envelope_with 7%N)) in
  select_processed_event db' 7%N <> None /\
  deliver (Fixture.decoder t) db' (Fixture.envelope_with 7%N)
    [(no_faults, 3); (Fixture.failing_commit, 4)] = db'.
Proof.
  cbv zeta.
  destruct (success_is_recorded
              (Fixture.decoder (Fixture.pending TransactionTypeCredit 50 "USD" 10%N))
              no_faults 2
              (Fixture.database 100 (Fixture.pending TransactionTypeCredit 50 "USD" 10%N))
              (snd (ProcessTransactionCreated
                      (Fixture.decoder (Fixture.pending TransactionTypeCredit 50 "USD" 10%N))
                      no_faults 2
                      (Fixture.database 100
                         (Fixture.pending TransactionTypeCredit 50 "USD" 10%N))
                      (Fixture.envelope_with 7%N)))
              (Fixture.envelope_with 7%N)
              (Fixture.payload_of (Fixture.pending TransactionTypeCredit 50 "USD" 10%N))
              eq_refl eq_refl) as (H1 & _ & H3).
  split; [exact H1 | apply H3].
Defined.

(** *** What a run leaves alone *)

Section Frame.

Variable db : DB.
Variable envelope : EventEnvelope.
Variable payload : TransactionCreatedPayload.
Variable now : Z.
Variable currentBalance : Z.

Lemma transactions_inserted :
  transactions (snd (insert_processed_event db (EventID envelope)
                       (p_TransactionID payload) now)) = transactions db.
Proof. unfold insert_processed_event. now destruct (existsb _ _). Qed.

Lemma outbox_claimed : outbox_events (claimed db envelope payload now) = outbox_events db.
Proof.
  unfold claimed, update_status_processing, insert_processed_event.
  now destruct (existsb _ _).
Qed.

Lemma columns_claimed :
  map Columns.of_transaction (transactions (claimed db envelope payload now))
    = map Columns.of_transaction (transactions db).
Proof.
  unfold claimed, update_status_processing. cbn [transactions with_transactions].
  rewrite update_where_map by reflexivity. now rewrite transactions_inserted.
Qed.

Lemma select_other_claimed (id : UUID) :
  id <> p_TransactionID payload ->
  select_transaction (claimed db envelope payload now) id = select_transaction db id.
Proof.
  intros Hne. unfold claimed, update_status_processing, select_transaction.
  cbn [transactions with_transactions].
  rewrite (find_update_where_other ID (p_TransactionID payload) id); try assumption;
    try reflexivity.
  - now rewrite transactions_inserted.
  - intros r Hr. apply andb_true_iff in Hr. destruct Hr as [Hr _]. now apply N.eqb_eq.
Qed.

(** The same facts for the two committed databases. *)
Lemma frame_committed (db' : DB) :
  db' = applied db envelope payload now currentBalance \/
  db' = refused db envelope payload now currentBalance ->
  outbox_events db' = outbox_events db /\
  map Columns.of_account (accounts db') = map Columns.of_account (accounts db) /\
  map Columns.of_transaction (transactions db')
    = map Columns.of_transaction (transactions db) /\
  (forall a, a <> p_AccountID payload -> select_account db' a = select_account db a) /\
  (forall t, t <> p_TransactionID payload ->
     select_transaction db' t = select_transaction db t) /\
  processed_events db'
    = processed_events (snd (insert_processed_event db (EventID envelope)
                               (p_TransactionID payload) now)).
Proof.
  intros [-> | ->].
  - unfold applied, mark_processed, update_balance.
    cbn [outbox_events accounts transactions processed_events with_transactions with_accounts].
    split; [apply outbox_claimed|].
    split; [rewrite update_where_map by reflexivity; now rewrite accounts_claimed|].
    split; [rewrite update_where_map by reflexivity; apply columns_claimed|].
    split; [|split].
    + intros a Hne. unfold select_account.
      cbn [accounts with_transactions with_accounts].
      rewrite (find_update_where_other acc_ID (p_AccountID payload) a); try assumption;
        try reflexivity.
      * now rewrite accounts_claimed.
      * intros r Hr. now apply N.eqb_eq.
    + intros t Hne. unfold select_transaction.
      cbn [transactions with_transactions with_accounts].
      rewrite (find_update_where_other ID (p_TransactionID payload) t); try assumption;
        try reflexivity.
      * now apply select_other_claimed.
      * intros r Hr. now apply N.eqb_eq.
    + reflexivity.
  - unfold refused, mark_failed.
    cbn [outbox_events accounts transactions processed_events with_transactions].
    split; [apply outbox_claimed|].
    split; [now rewrite accounts_claimed|].
    split; [rewrite update_where_map by reflexivity; apply columns_claimed|].
    split; [|split].
    + intros a _. unfold select_account. cbn [accounts with_transactions].
      now rewrite accounts_claimed.
    + intros t Hne. unfold select_transaction.
      cbn [transactions with_transactions].
      rewrite (find_update_where_other ID (p_TransactionID payload) t); try assumption;
        try reflexivity.
      * now apply select_other_claimed.
      * intros r Hr. now apply N.eqb_eq.
    + reflexivity.
Qed.

End Frame.

(** X3: what a run of [ProcessTransactionCreated] leaves alone, whatever
    fails in it.  The outbox is untouched; no account and no transaction is
    added, removed or moved, and of their columns only balance, status,
    failure reason and [updated_at] can differ; every account other than the
    payload's and every transaction other than the payload's is the row it
    was; [processed_events] keeps its rows and gains at most one. *)
Theorem run_frame
    (json_Unmarshal : RawMessage -> result TransactionCreatedPayload)
    (f : Faults) (now : Z) (db : DB) (envelope : EventEnvelope) :
  let db' := snd (ProcessTransactionCreated json_Unmarshal f now db envelope) in
  outbox_events db' = outbox_events db /\
  map Columns.of_account (accounts db') = map Columns.of_account (accounts db) /\
  map Columns.of_transaction (transactions db')
    = map Columns.of_transaction (transactions db) /\
  (forall payload, json_Unmarshal (Payload envelope) = Ok payload ->
     (forall a, a <> p_AccountID payload -> select_account db' a = select_account db a) /\
     (forall t, t <> p_TransactionID payload ->
        select_transaction db' t = select_transaction db t)) /\
  (exists added,
     processed_events db' = (processed_events db ++ added)%list /\
     (List.length added <= 1)%nat).
Proof.
  cbv zeta.
  destruct (run_database json_Unmarshal f now db envelope)
    as [-> | (payload & bal & Hp & Hnew & _ & _ & Hdb)].
  - split; [reflexivity|]. split; [reflexivity|]. split; [reflexivity|].
    split; [intros payload _; split; reflexivity|].
    exists []. split; [now rewrite app_nil_r | simpl; lia].
  - assert (Hcase : snd (ProcessTransactionCreated json_Unmarshal f now db envelope)
                    = applied db envelope payload now bal \/
                    snd (ProcessTransactionCreated json_Unmarshal f now db envelope)
                    = refused db envelope payload now bal) by tauto.
    destruct (frame_committed db envelope payload now bal _ Hcase)
      as (Ho & Ha & Ht & Hsa & Hst & Hpe).
    split; [exact Ho|]. split; [exact Ha|]. split; [exact Ht|]. split.
    + intros payload' Hp'. assert (payload' = payload) as -> by congruence. now split.
    + rewrite Hpe, (insert_processed_fresh _ _ _ _ Hnew). cbn [snd processed_events
        with_processed_events]. eexists. split; [reflexivity | simpl; lia].
Qed.

(** X4: a run on a DEBIT payload never takes the account below zero: the
    balance afterwards is the one before, or the one before minus the
    amount and then it is not negative. *)
Theorem debit_never_overdraws
    (json_Unmarshal : RawMessage -> result TransactionCreatedPayload)
    (f : Faults) (now : Z) (db : DB) (envelope : EventEnvelope)
    (payload : TransactionCreatedPayload) (balance : Z) :
  json_Unmarshal (Payload envelope) = Ok payload ->
  p_Type payload = TransactionTypeDebit ->
  balance_of db (p_AccountID payload) = Some balance ->
  let db' := snd (ProcessTransactionCreated json_Unmarshal f now db envelope) in
  balance_of db' (p_AccountID payload) = Some balance \/
  (balance_of db' (p_AccountID payload) = Some (Int64.sub balance (p_AmountCents payload)) /\
   0 <= Int64.sub balance (p_AmountCents payload)).
Proof.
  intros Hp Hd Hbal. cbv zeta.
  destruct (run_database json_Unmarshal f now db envelope)
    as [-> | (payload' & bal & Hp' & Hnew & Hl & _ & Hdb)]; [now left|].
  assert (payload' = payload) as -> by congruence.
  apply lock_account_balance in Hl as Hb.
  assert (bal = balance) as -> by congruence.
  destruct Hdb as [[-> Hok] | [-> _]].
  - right. rewrite (balance_of_applied _ _ _ _ _ _ Hl), (new_balance_debit _ _ Hd).
    split; [reflexivity|].
    rewrite (new_balance_debit _ _ Hd), Hd in Hok.
    replace (String.eqb TransactionTypeDebit TransactionTypeDebit) with true in Hok
      by reflexivity.
    rewrite andb_true_r in Hok. now apply Z.ltb_ge.
  - left. now rewrite balance_of_refused.
Qed.

Lemma debit_never_overdraws_witness :
  let t := Fixture.pending TransactionTypeDebit 100 "USD" 10%N in
  let run b := snd (ProcessTransactionCreated (Fixture.decoder t) no_faults 2
                      (Fixture.database b t) (Fixture.envelope_with 7%N)) in
  balance_of (run 30) 10%N = Some 30 /\ balance_of (run 130) 10%N = Some 30.
Proof.
  cbv zeta.
  pose proof (debit_never_overdraws
                (Fixture.decoder (Fixture.pending TransactionTypeDebit 100 "USD" 10%N))
                no_faults 2
                (Fixture.database 30 (Fixture.pending TransactionTypeDebit 100 "USD" 10%N))
                (Fixture.envelope_with 7%N)
                (Fixture.payload_of (Fixture.pending TransactionTypeDebit 100 "USD" 10%N))
                30 eq_refl eq_refl eq_refl) as H.
  cbv zeta in H. split; [|reflexivity].
  destruct H as [H | [H _]]; [exact H | vm_compute in H; discriminate H].
Defined.

Lemma failure_reason_of_update (tx : DB) (id : UUID) (cond : Transaction -> bool)
    (set : Transaction -> Transaction) :
  (forall t, ID (set t) = ID t) ->
  (forall t, FailureReason (set t) = FailureReason t) ->
  failure_reason_of (with_transactions tx (update_where cond set (transactions tx))) id
    = failure_reason_of tx id.
Proof.
  intros Hid Hfr. unfold failure_reason_of, select_transaction.
  cbn [transactions with_transactions].
  rewrite (find_update_where ID id) by exact Hid.
  destruct (find _ (transactions tx)) as [t|]; [|reflexivity].
  simpl. destruct (cond t); [now rewrite Hfr | reflexivity].
Qed.

Lemma run_is_applied
    (json_Unmarshal : RawMessage -> result TransactionCreatedPayload)
    (f : Faults) (now : Z) (db : DB) (envelope : EventEnvelope)
    (payload : TransactionCreatedPayload) (balance : Z) :
  json_Unmarshal (Payload envelope) = Ok payload ->
  (forall s, f s = None) ->
  select_processed_event db (EventID envelope) = None ->
  lock_account db (p_AccountID payload) = Some (balance, p_Currency payload) ->
  p_Type payload = TransactionTypeCredit \/
  (p_Type payload = TransactionTypeDebit /\ 0 <= Int64.sub balance (p_AmountCents payload)) ->
  ProcessTransactionCreated json_Unmarshal f now db envelope
  = ((false, None), applied db envelope payload now balance).
Proof.
  intros Hp Hf Hnew Hl Hty.
  assert (Hok : ((new_balance payload balance <? 0)
                   && String.eqb (p_Type payload) TransactionTypeDebit) = false).
  { destruct Hty as [Hc | [Hd Hge]].
    - rewrite Hc. apply andb_false_r.
    - rewrite (new_balance_debit _ _ Hd). apply andb_false_iff. left. now apply Z.ltb_ge. }
  unfold ProcessTransactionCreated. rewrite Hp, (Hf CheckProcessed), Hnew.
  rewrite (applyInTransaction_unrecorded f now db envelope payload Hnew).
  rewrite (Hf BeginTx), (Hf InsertProcessed), (Hf UpdateProcessing), (Hf LockAccount), Hl.
  rewrite String.eqb_refl. cbn [negb]. rewrite Hok.
  now rewrite (Hf UpdateBalance), (Hf MarkProcessed), (Hf Commit).
Qed.

(** X5: a run in which nothing fails, on an envelope that is not recorded,
    for a transaction that exists, on an account that exists in the
    payload's currency, with a CREDIT or with a DEBIT the balance covers:
    it returns success, the transaction is PROCESSED, the balance is the
    new one, and the envelope id has its one row. *)
Theorem apply_succeeds
    (json_Unmarshal : RawMessage -> result TransactionCreatedPayload)
    (f : Faults) (now : Z) (db : DB) (envelope : EventEnvelope)
    (payload : TransactionCreatedPayload) (balance : Z) :
  json_Unmarshal (Payload envelope) = Ok payload ->
  (forall s, f s = None) ->
  select_processed_event db (EventID envelope) = None ->
  status_of db (p_TransactionID payload) <> None ->
  lock_account db (p_AccountID payload) = Some (balance, p_Currency payload) ->
  p_Type payload = TransactionTypeCredit \/
  (p_Type payload = TransactionTypeDebit /\ 0 <= Int64.sub balance (p_AmountCents payload)) ->
  exists db',
    ProcessTransactionCreated json_Unmarshal f now db envelope = ((false, None), db') /\
    status_of db' (p_TransactionID payload) = Some TransactionStatusProcessed /\
    balance_of db' (p_AccountID payload) = Some (new_balance payload balance) /\
    processed_rows db' (EventID envelope) = 1%nat /\
    failure_reason_of db' (p_TransactionID payload)
      = failure_reason_of db (p_TransactionID payload).
Proof.
  intros Hp Hf Hnew Hex Hl Hty.
  exists (applied db envelope payload now balance).
  assert (Hok : ((new_balance payload balance <? 0)
                   && String.eqb (p_Type payload) TransactionTypeDebit) = false).
  { destruct Hty as [Hc | [Hd Hge]].
    - rewrite Hc. apply andb_false_r.
    - rewrite (new_balance_debit _ _ Hd). apply andb_false_iff. left. now apply Z.ltb_ge. }
  split; [|split; [|split; [|split]]].
  - now apply run_is_applied.
  - rewrite status_of_applied. destruct (status_of db _); [reflexivity | contradiction].
  - exact (balance_of_applied _ _ _ _ _ _ Hl).
  - unfold processed_rows. rewrite processed_events_applied.
    now apply processed_rows_after_insert.
  - unfold applied, mark_processed.
    rewrite failure_reason_of_update by reflexivity.
    change (failure_reason_of (update_balance ?tx _ _ _) ?id) with (failure_reason_of tx id).
    unfold claimed, update_status_processing.
    rewrite failure_reason_of_update by reflexivity.
    unfold failure_reason_of, select_transaction. now rewrite transactions_inserted.
Qed.

(** A credit of 50 on 100, and a debit of 100 on 100. *)
Lemma apply_succeeds_witness :
  let credit := Fixture.pending TransactionTypeCredit 50 "USD" 10%N in
  let debit := Fixture.pending TransactionTypeDebit 100 "USD" 10%N in
  (exists db',
     ProcessTransactionCreated (Fixture.decoder credit) no_faults 2
       (Fixture.database 100 credit) (Fixture.envelope_with 7%N) = ((false, None), db') /\
     status_of db' 20%N = Some TransactionStatusProcessed /\
     balance_of db' 10%N = Some 150) /\
  (exists db',
     ProcessTransactionCreated (Fixture.decoder debit) no_faults 2
       (Fixture.database 100 debit) (Fixture.envelope_with 7%N) = ((false, None), db') /\
     status_of db' 20%N = Some TransactionStatusProcessed /\
     balance_of db' 10%N = Some 0).
Proof.
  cbv zeta. split.
  - destruct (apply_succeeds
                (Fixture.decoder (Fixture.pending TransactionTypeCredit 50 "USD" 10%N))
                no_faults 2
                (Fixture.database 100 (Fixture.pending TransactionTypeCredit 50 "USD" 10%N))
                (Fixture.envelope_with 7%N)
                (Fixture.payload_of (Fixture.pending TransactionTypeCredit 50 "USD" 10%N))
                100 eq_refl (fun _ => eq_refl) eq_refl)
      as (db' & Hrun & Hst & Hbal & _).
    + vm_compute. discriminate.
    + reflexivity.
    + left. reflexivity.
    + exists db'. split; [exact Hrun|]. split; [exact Hst | exact Hbal].
  - destruct (apply_succeeds
                (Fixture.decoder (Fixture.pending TransactionTypeDebit 100 "USD" 10%N))
                no_faults 2
                (Fixture.database 100 (Fixture.pending TransactionTypeDebit 100 "USD" 10%N))
                (Fixture.envelope_with 7%N)
                (Fixture.payload_of (Fixture.pending TransactionTypeDebit 100 "USD" 10%N))
                100 eq_refl (fun _ => eq_refl) eq_refl)
      as (db' & Hrun & Hst & Hbal & _).
    + vm_compute. discriminate.
    + reflexivity.
    + right. split; [reflexivity | vm_compute; discriminate].
    + exists db'. split; [exact Hrun|]. split; [exact Hst | exact Hbal].
Defined.

End ApplierFacts.

(** ** More on the consumer *)

Module ConsumerFacts.
Import Consumer WorkerFixture.

Section Loop.

Variable json_Unmarshal_payload : RawMessage -> result TransactionCreatedPayload.
Variable c : KafkaConsumer.
Variable e : Environment.
Variable envelope : EventEnvelope.

Abbreviation loop := (retry_loop json_Unmarshal_payload c e envelope).

(** The pauses of the attempts numbered [j], [j + 1], ..., [j + k - 1]:
    none before attempt 0. *)
Abbreviation pauses_from j k :=
  (map (fun i => Kafka.Sleep (Z.of_nat i * retryBackoff c))
       (filter (fun i => Nat.ltb 0 i) (seq j k))).

Lemma loop_attempts (remaining : nat) :
  forall (j : nat) (lastErr : option string) (db : DB) (log : list Kafka.Op)
         (r : bool * option string) (db' : DB) (log' : list Kafka.Op),
    loop remaining (Z.of_nat j) true lastErr (db, log) = (r, (db', log')) ->
    exists k,
      (k <= remaining)%nat /\
      log' = (log ++ pauses_from j k)%list /\
      (fst r = true -> k = remaining /\ db' = db) /\
      (remaining <> 0%nat -> k <> 0%nat) /\
      (k = 0%nat -> r = (true, lastErr) /\ db' = db) /\
      (k <> 0%nat -> fst r = true -> snd r <> None).
Proof.
  induction remaining as [|n IH]; intros j lastErr db log r db' log' H.
  - simpl in H. injection H as <- <- <-. exists 0%nat. simpl.
    rewrite app_nil_r.
    split; [lia|]. split; [reflexivity|]. split; [now split|]. split; [tauto|].
    split; [now split | intros H; now contradiction H].
  - simpl in H.
    pose proof (ApplierFacts.run_database json_Unmarshal_payload
                  (attempt_faults e (Z.of_nat j)) (attempt_clock e (Z.of_nat j)) db envelope)
      as Hdb.
    pose proof (ApplierFacts.retry_has_error json_Unmarshal_payload
                  (attempt_faults e (Z.of_nat j)) (attempt_clock e (Z.of_nat j)) db envelope)
      as Herr.
    destruct (Processor.ProcessTransactionCreated _ _ _ _ _) as [[sr le] db1].
    cbn [fst snd] in Hdb, Herr.
    assert (Hpause : (if 0 <? Z.of_nat j
                      then (log ++ [Kafka.Sleep (Z.of_nat j * retryBackoff c)])%list
                      else log)
                     = (log ++ pauses_from j 1)%list).
    { simpl. destruct j as [|j']; simpl; [now rewrite app_nil_r | reflexivity]. }
    rewrite Hpause in H.
    destruct sr; simpl in H.
    + assert (Hsame : db1 = db).
      { destruct Hdb as [Hdb | (_ & _ & _ & _ & _ & Hfalse & _)]; [exact Hdb | discriminate]. }
      subst db1.
      replace (Z.of_nat j + 1) with (Z.of_nat (S j)) in H by lia.
      apply IH in H. destruct H as (k & Hk & -> & Hretry & _ & Hzero & Hsome).
      exists (S k). split; [lia|]. split.
      * rewrite <- app_assoc. f_equal. cbn [seq filter].
        destruct (Nat.ltb 0 j); reflexivity.
      * split; [|split; [intros _; discriminate | split; [discriminate|]]].
        -- intros Hr. destruct (Hretry Hr) as [-> ->]. now split.
        -- intros _ Hr. destruct k as [|k'].
           ++ destruct (Hzero eq_refl) as [-> _]. cbn [snd]. now apply Herr.
           ++ apply Hsome; [discriminate | exact Hr].
    + injection H as <- <- <-. exists 1%nat. split; [lia|]. split; [reflexivity|].
      split; [discriminate|]. split; [intros _; discriminate|].
      split; [discriminate | intros _; discriminate].
Qed.

End Loop.

Lemma pauses_from_zero (backoff : Z) (k : nat) :
  map (fun i => Kafka.Sleep (Z.of_nat i * backoff))
      (filter (fun i => Nat.ltb 0 i) (seq 0 k))
  = Backoff.pauses backoff (k - 1).
Proof.
  unfold Backoff.pauses. destruct k as [|k]; [reflexivity|].
  cbn [seq filter Nat.ltb Nat.leb]. replace (S k - 1)%nat with k by lia.
  f_equal. apply forallb_filter_id. apply forallb_forall.
  intros i Hi. apply in_seq in Hi. destruct i; [lia | reflexivity].
Qed.


(** X7: a message whose loop ends still retryable used all [maxRetries]
    attempts and changed nothing: the database is the one before the first
    attempt, and the pauses were [backoff], ..., [(maxRetries - 1) *
    backoff]. *)
Theorem exhausted_used_every_attempt
    (json_Unmarshal_payload : RawMessage -> result TransactionCreatedPayload)
    (c : KafkaConsumer) (e : Environment) (envelope : EventEnvelope)
    (db db' : DB) (log log' : list Kafka.Op) (lastErr : option string) :
  retry_loop json_Unmarshal_payload c e envelope (Z.to_nat (maxRetries c)) 0 true None (db, log)
    = ((true, lastErr), (db', log')) ->
  db' = db /\
  log' = (log ++ Backoff.pauses (retryBackoff c) (Z.to_nat (maxRetries c) - 1))%list /\
  (0 < maxRetries c -> lastErr <> None).
Proof.
  intros H.
  apply (loop_attempts json_Unmarshal_payload c e envelope _ 0%nat) in H.
  destruct H as (k & Hk & -> & Hretry & Hpos & _ & Hsome).
  destruct (Hretry eq_refl) as [-> ->].
  split; [reflexivity|]. split; [now rewrite pauses_from_zero|].
  intros Hmax. apply Hsome; [lia | reflexivity].
Qed.

Lemma exhausted_used_every_attempt_witness :
  retry_loop payload_decoder worker (outage None) (Fixture.envelope_with 7%N) 5 0 true None start
  = ((true, Some "failed to check idempotency: driver: bad connection"),
     (fst start, [Kafka.Sleep 2; Kafka.Sleep 4; Kafka.Sleep 6; Kafka.Sleep 8])).
Proof.
  destruct (exhausted_used_every_attempt payload_decoder worker (outage None)
              (Fixture.envelope_with 7%N) (fst start) (fst start) []
              [Kafka.Sleep 2; Kafka.Sleep 4; Kafka.Sleep 6; Kafka.Sleep 8]
              (Some "failed to check idempotency: driver: bad connection") eq_refl)
    as (_ & H & _).
  rewrite H. reflexivity.
Defined.

Section Outcomes.

Variable json_Unmarshal_envelope : string -> result EventEnvelope.
Variable json_Unmarshal_payload : RawMessage -> result TransactionCreatedPayload.
Variable c : KafkaConsumer.
Variable e : Environment.

Abbreviation process := (processMessage json_Unmarshal_envelope json_Unmarshal_payload c e).

(** X8: a message the processor is done with, by success or by a
    non-retryable error, is never written to the DLQ: [processMessage]
    commits its offset, drops the processor's error, and returns only the
    error of the commit, if any. *)
Theorem settled_message_is_committed (msg : Kafka.Message) (envelope : EventEnvelope)
    (w : World) (err : option string) (db' : DB) (log' : list Kafka.Op) :
  json_Unmarshal_envelope (Kafka.Value msg) = Ok envelope ->
  retry_loop json_Unmarshal_payload c e envelope (Z.to_nat (maxRetries c)) 0 true None w
    = ((false, err), (db', log')) ->
  Relay.produced log' = Relay.produced (snd w) /\
  match commit_fault e with
  | None => process msg w = (None, (db', (log' ++ [Kafka.CommitOffset msg])%list))
  | Some cause => process msg w = (Some ("failed to commit message: " ++ cause), (db', log'))
  end.
Proof.
  intros Henv Hloop. split.
  - destruct w as [db log].
    destruct (ConsumerProofs.retry_loop_only_sleeps _ _ _ _ _ _ _ _ _ _ _ _ _ Hloop)
      as [pauses [-> Hp]].
    unfold Relay.produced. cbn [snd]. rewrite filter_app.
    replace (filter Kafka.is_produce pauses) with (@nil Kafka.Op); [now rewrite app_nil_r|].
    symmetry. clear Hloop. induction pauses as [|o os IH]; [reflexivity|].
    simpl in Hp. apply andb_true_iff in Hp. destruct Hp as [Ho Hos].
    apply andb_true_iff in Ho. destruct Ho as [_ Ho]. simpl.
    destruct (Kafka.is_produce o); [discriminate | now apply IH].
  - unfold processMessage. rewrite Henv, Hloop. unfold CommitMessages.
    destruct (commit_fault e); reflexivity.
Qed.

(** X9: a message whose bytes are not an envelope is not processed and not
    dead-lettered: its offset is committed, the database and the DLQ are as
    before, and [processMessage] returns the decoding error, also when the
    commit fails. *)
Theorem poison_message_is_skipped (msg : Kafka.Message) (db : DB) (log : list Kafka.Op)
    (err : string) :
  json_Unmarshal_envelope (Kafka.Value msg) = Err err ->
  process msg (db, log) =
    (Some err,
     (db, match commit_fault e with
          | None => (log ++ [Kafka.CommitOffset msg])%list
          | Some _ => log
          end)).
Proof.
  intros Henv. unfold processMessage, CommitMessages. rewrite Henv.
  destruct (commit_fault e); reflexivity.
Qed.

(** X10: a consumer built with [maxRetries] zero or negative acknowledges
    every well-formed message without running the processor: the database
    is untouched, nothing goes to the DLQ, and the offset is committed. *)
Theorem no_attempts_drops_message (msg : Kafka.Message) (envelope : EventEnvelope)
    (db : DB) (log : list Kafka.Op) :
  maxRetries c <= 0 ->
  json_Unmarshal_envelope (Kafka.Value msg) = Ok envelope ->
  match commit_fault e with
  | None => process msg (db, log) = (None, (db, (log ++ [Kafka.CommitOffset msg])%list))
  | Some cause => process msg (db, log) = (Some ("failed to commit message: " ++ cause), (db, log))
  end.
Proof.
  intros Hmax Henv. unfold processMessage, CommitMessages. rewrite Henv.
  replace (Z.to_nat (maxRetries c)) with 0%nat by lia.
  cbn [retry_loop]. destruct (commit_fault e); reflexivity.
Qed.

End Outcomes.

(** The insufficient debit of the fixtures, consumed in one attempt. *)
Lemma settled_message_is_committed_witness :
  let t := Fixture.pending TransactionTypeDebit 10000 "USD" 10%N in
  let calm := {| attempt_faults := fun _ => Processor.no_faults; attempt_clock := fun n => n;
                 dlq_fault := None; commit_fault := None |} in
  exists db',
    processMessage envelope_decoder (Fixture.decoder t) worker calm poison
      (Fixture.database 0 t, [])
    = (None, (db', [Kafka.CommitOffset poison])) /\
    Processor.status_of db' 20%N = Some TransactionStatusFailed.
Proof.
  cbv zeta. eexists.
  pose proof (settled_message_is_committed envelope_decoder
                (Fixture.decoder (Fixture.pending TransactionTypeDebit 10000 "USD" 10%N))
                worker
                {| attempt_faults := fun _ => Processor.no_faults;
                   attempt_clock := fun n => n; dlq_fault := None; commit_fault := None |}
                poison (Fixture.envelope_with 7%N)
                (Fixture.database 0 (Fixture.pending TransactionTypeDebit 10000 "USD" 10%N), [])
                _ _ _ eq_refl eq_refl) as [_ H].
  cbn [commit_fault] in H. split; [exact H | reflexivity].
Defined.

Lemma poison_message_is_skipped_witness :
  let garbled :=
    {| Kafka.Key := "20"; Kafka.Value := "{"; Kafka.Headers := [];
       Kafka.Partition := 0; Kafka.Offset := 9 |} in
  processMessage envelope_decoder payload_decoder worker (outage None) garbled start
  = (Some "invalid character", (fst start, [Kafka.CommitOffset garbled])).
Proof.
  cbv zeta.
  exact (poison_message_is_skipped envelope_decoder payload_decoder worker (outage None)
           {| Kafka.Key := "20"; Kafka.Value := "{"; Kafka.Headers := [];
              Kafka.Partition := 0; Kafka.Offset := 9 |}
           (fst start) [] "invalid character" eq_refl).
Defined.

Lemma no_attempts_drops_message_witness :
  let lazy := {| maxRetries := 0; retryBackoff := 2; dlqTopic := "transactions.dlq" |} in
  let calm := {| attempt_faults := fun _ => Processor.no_faults; attempt_clock := fun n => n;
                 dlq_fault := None; commit_fault := None |} in
  processMessage envelope_decoder payload_decoder lazy calm poison start
  = (None, (fst start, [Kafka.CommitOffset poison])).
Proof.
  cbv zeta.
  pose proof (no_attempts_drops_message envelope_decoder payload_decoder
                {| maxRetries := 0; retryBackoff := 2; dlqTopic := "transactions.dlq" |}
                {| attempt_faults := fun _ => Processor.no_faults;
                   attempt_clock := fun n => n; dlq_fault := None; commit_fault := None |}
                poison (Fixture.envelope_with 7%N) (fst start) []) as H.
  cbn [commit_fault maxRetries] in H. apply H; [lia | reflexivity].
Defined.

End ConsumerFacts.

(** ** The relay: ticks, batches and the outbox *)

Module RelayFacts.
Import Publisher Outbox.

Lemma Forall2_same {A : Type} (R : A -> A -> Prop) (l : list A) :
  (forall x, R x x) -> Forall2 R l l.
Proof. intros H. induction l; constructor; auto. Qed.

Lemma Forall2_map_right {A : Type} (R : A -> A -> Prop) (f : A -> A) (l : list A) :
  (forall x, R x (f x)) -> Forall2 R l (map f l).
Proof. intros H. induction l; simpl; constructor; auto. Qed.

Lemma Forall2_compose {A : Type} (R1 R2 R3 : A -> A -> Prop) (l1 l2 l3 : list A) :
  (forall a b c, R1 a b -> R2 b c -> R3 a c) ->
  Forall2 R1 l1 l2 -> Forall2 R2 l2 l3 -> Forall2 R3 l1 l3.
Proof.
  intros H H12. revert l3. induction H12 as [|a b l1 l2 Hab _ IH]; intros l3 H23.
  - inversion H23. constructor.
  - inversion H23 as [|b' c l2' l3' Hbc Hrest]; subst. constructor; eauto.
Qed.

Lemma In_insert_by_created_at (x o : OutboxEvent) (l : list OutboxEvent) :
  In x (insert_by_created_at o l) <-> x = o \/ In x l.
Proof.
  induction l as [|y l IH]; simpl.
  - intuition auto.
  - destruct (ob_created_at y <? ob_created_at o); simpl; [rewrite IH|]; intuition auto.
Qed.

Lemma In_order_by_created_at (x : OutboxEvent) (l : list OutboxEvent) :
  In x (order_by_created_at l) <-> In x l.
Proof.
  induction l as [|y l IH]; simpl; [tauto|].
  rewrite In_insert_by_created_at, IH. intuition auto.
Qed.

Lemma length_insert_by_created_at (o : OutboxEvent) (l : list OutboxEvent) :
  List.length (insert_by_created_at o l) = S (List.length l).
Proof.
  induction l as [|y l IH]; simpl; [reflexivity|].
  destruct (ob_created_at y <? ob_created_at o); simpl; [now rewrite IH | reflexivity].
Qed.

Lemma length_order_by_created_at (l : list OutboxEvent) :
  List.length (order_by_created_at l) = List.length l.
Proof.
  induction l as [|y l IH]; simpl; [reflexivity|].
  now rewrite length_insert_by_created_at, IH.
Qed.

Lemma oldest_first_insert (o : OutboxEvent) (l : list OutboxEvent) :
  oldest_first (map scan l) -> oldest_first (map scan (insert_by_created_at o l)).
Proof.
  induction l as [|y l IH]; simpl.
  - intros _. split; [intros u []|exact I].
  - intros [Hy Hl]. destruct (ob_created_at y <? ob_created_at o) eqn:E; simpl.
    + apply Z.ltb_lt in E. split; [|now apply IH].
      intros u Hu. apply in_map_iff in Hu. destruct Hu as [x [<- Hx]].
      apply In_insert_by_created_at in Hx. destruct Hx as [-> | Hx]; [simpl; lia|].
      apply Hy. now apply in_map.
    + apply Z.ltb_ge in E. split; [|now split].
      intros u [<- | Hu]; [simpl; lia|].
      specialize (Hy u Hu). simpl in *. lia.
Qed.

Lemma oldest_first_firstn (n : nat) (l : list outboxEvent) :
  oldest_first l -> oldest_first (firstn n l).
Proof.
  revert n. induction l as [|e l IH]; intros [|n]; simpl; auto.
  intros [He Hl]. split; [|now apply IH].
  intros u Hu. apply He. revert Hu. clear. revert n.
  induction l as [|x l IH]; intros [|n]; simpl; try tauto.
  intros [-> | H]; [now left | right; eauto].
Qed.

Lemma select_pending_scan (db : DB) (batchSize : Z) :
  select_pending db batchSize
  = map scan (firstn (Z.to_nat batchSize)
                (order_by_created_at (Relay.with_status "PENDING" db))).
Proof. reflexivity. Qed.

Section OneTick.

Variable json_Unmarshal : RawMessage -> result TransactionCreatedPayload.
Variable json_Marshal : EventEnvelope -> result string.
Variable uuid_String : UUID -> string.
Variable t : Tick.
Variable topic : string.

Abbreviation publish := (publishEvent json_Unmarshal json_Marshal uuid_String).
Abbreviation each := (publish_each json_Unmarshal json_Marshal uuid_String t topic).
Abbreviation message fresh event bytes := (Relay.message_of uuid_String fresh event bytes).

Lemma publishEvent_cases (fresh : UUID) (fault : option string) (event : outboxEvent)
    (log : list Kafka.Op) :
  (exists err, publish fresh fault topic event log = (Some err, log)) \/
  (exists bytes,
     json_Marshal (envelope_of json_Unmarshal fresh event) = Ok bytes /\ fault = None /\
     publish fresh fault topic event log
       = (None, (log ++ [Kafka.Produce topic (message fresh event bytes)])%list)).
Proof.
  unfold publishEvent. destruct (json_Marshal _) as [bytes|e]; [|left; eauto].
  destruct fault; [left; eauto|]. right. exists bytes. repeat split.
Qed.

Lemma updateEventError_frame (db : DB) (id : UUID) (err : string) :
  let db1 := snd (updateEventError t db id err) in
  accounts db1 = accounts db /\ transactions db1 = transactions db /\
  processed_events db1 = processed_events db /\
  Forall2 (fun o o1 =>
             Columns.of_outbox o1 = Columns.of_outbox o /\
             ob_status o1 = ob_status o /\ ob_published_at o1 = ob_published_at o /\
             ob_publish_attempts o <= ob_publish_attempts o1 /\
             (ob_last_error o <> None -> ob_last_error o1 <> None) /\
             (ob_id o = id -> error_fault t id = None ->
              ob_publish_attempts o < ob_publish_attempts o1 /\ ob_last_error o1 <> None))
          (outbox_events db) (outbox_events db1).
Proof.
  unfold updateEventError. destruct (error_fault t id) eqn:F; cbn [snd].
  - repeat (split; [reflexivity|]). apply Forall2_same.
    intros x. do 3 (split; [reflexivity|]). split; [lia|]. split; [tauto|].
    intros _ H. discriminate H.
  - repeat (split; [reflexivity|]). cbn [outbox_events with_outbox_events].
    apply Forall2_map_right. intros x. destruct (N.eqb (ob_id x) id) eqn:E.
    + do 3 (split; [reflexivity|]). split; [simpl; lia|]. split; [simpl; discriminate|].
      intros _ _. simpl. split; [lia | discriminate].
    + do 3 (split; [reflexivity|]). split; [lia|]. split; [tauto|].
      intros H. apply N.eqb_neq in E. contradiction.
Qed.

Lemma markAsPublished_frame (db : DB) (id : UUID) :
  let db1 := snd (markAsPublished t db id) in
  accounts db1 = accounts db /\ transactions db1 = transactions db /\
  processed_events db1 = processed_events db /\
  Forall2 (fun o o1 =>
             Columns.of_outbox o1 = Columns.of_outbox o /\
             ob_publish_attempts o1 = ob_publish_attempts o /\
             (ob_status o1 = ob_status o /\ ob_published_at o1 = ob_published_at o \/
              ob_status o1 = "PUBLISHED" /\ ob_published_at o1 = Some (tick_now t) /\
              ob_id o = id))
          (outbox_events db) (outbox_events db1).
Proof.
  unfold markAsPublished. destruct (mark_fault t id) eqn:F; cbn [snd].
  - repeat (split; [reflexivity|]). apply Forall2_same.
    intros x. repeat (split; [reflexivity|]). now left.
  - repeat (split; [reflexivity|]). cbn [outbox_events with_outbox_events].
    apply Forall2_map_right. intros x. destruct (N.eqb (ob_id x) id) eqn:E.
    + repeat (split; [reflexivity|]). right. apply N.eqb_eq in E. now repeat split.
    + repeat (split; [reflexivity|]). now left.
Qed.

Lemma advanced_more (events : list outboxEvent) (new : list Kafka.Op) (event : outboxEvent)
    (pre : list Kafka.Op) (o o' : OutboxEvent) :
  advanced json_Unmarshal json_Marshal uuid_String t topic events new o o' ->
  advanced json_Unmarshal json_Marshal uuid_String t topic (event :: events)
    (pre ++ new)%list o o'.
Proof.
  intros [Hc [Ha H]]. split; [exact Hc|]. split; [exact Ha|].
  destruct H as [H | [Hs [Hp [ev [bytes [Hin [Hid [Hm Hlog]]]]]]]]; [now left|].
  right. split; [exact Hs|]. split; [exact Hp|]. exists ev, bytes.
  split; [now right|]. split; [exact Hid|]. split; [exact Hm|].
  apply in_or_app. now right.
Qed.

Lemma publish_each_advanced (events : list outboxEvent) :
  forall db log, exists new,
    snd (each events db log) = (log ++ new)%list /\
    Forall (fun op => exists m, op = Kafka.Produce topic m) new /\
    (List.length new <= List.length events)%nat /\
    accounts (fst (each events db log)) = accounts db /\
    transactions (fst (each events db log)) = transactions db /\
    processed_events (fst (each events db log)) = processed_events db /\
    Forall2 (advanced json_Unmarshal json_Marshal uuid_String t topic events new)
      (outbox_events db) (outbox_events (fst (each events db log))).
Proof.
  induction events as [|event rest IH]; intros db log.
  - exists []. simpl. rewrite app_nil_r. repeat (split; [reflexivity || constructor || lia|]).
    apply Forall2_same. intros x. split; [reflexivity|]. split; [lia|]. now left.
  - cbn [publish_each].
    destruct (publishEvent_cases (fresh_uuid t (oe_ID event)) (write_fault t (oe_ID event))
                event log) as [[err E] | [bytes [Hm [_ E]]]]; rewrite E.
    + destruct (updateEventError_frame db (oe_ID event) err) as [Ha [Ht [Hp HF]]].
      destruct (IH (snd (updateEventError t db (oe_ID event) err)) log)
        as [new [Hlog [Hall [Hlen [Ha' [Ht' [Hp' HF']]]]]]].
      exists new. split; [exact Hlog|]. split; [exact Hall|]. split; [simpl; lia|].
      split; [congruence|]. split; [congruence|]. split; [congruence|].
      eapply Forall2_compose; [|exact HF|exact HF'].
      intros a b c [Hc [Hs [Hpa [Hat _]]]] Hbc.
      apply (advanced_more rest new event []) in Hbc. simpl in Hbc.
      destruct Hbc as [Hc' [Hat' H]]. split; [congruence|]. split; [lia|].
      destruct H as [[H1 H2] | [H1 [H2 [ev [bs [Hin [Hid H3]]]]]]]; [left; split; congruence|].
      right. split; [exact H1|]. split; [exact H2|]. exists ev, bs.
      split; [exact Hin|]. split; [|exact H3].
      unfold Columns.of_outbox in Hc. congruence.
    + destruct (markAsPublished_frame db (oe_ID event)) as [Ha [Ht [Hp HF]]].
      destruct (IH (snd (markAsPublished t db (oe_ID event)))
                  (log ++ [Kafka.Produce topic
                             (message (fresh_uuid t (oe_ID event)) event bytes)])%list)
        as [new [Hlog [Hall [Hlen [Ha' [Ht' [Hp' HF']]]]]]].
      exists (Kafka.Produce topic (message (fresh_uuid t (oe_ID event)) event bytes) :: new).
      split; [rewrite Hlog, <- app_assoc; reflexivity|].
      split; [constructor; [eauto | exact Hall]|]. split; [simpl; lia|].
      split; [congruence|]. split; [congruence|]. split; [congruence|].
      eapply Forall2_compose; [|exact HF|exact HF'].
      intros a b c [Hc [Hat H]] Hbc.
      apply (advanced_more rest new event
               [Kafka.Produce topic (message (fresh_uuid t (oe_ID event)) event bytes)])
        in Hbc. simpl in Hbc.
      destruct Hbc as [Hc' [Hat' H']]. split; [congruence|]. split; [lia|].
      destruct H' as [[H1 H2] | [H1 [H2 [ev [bs [Hin [Hid H3]]]]]]].
      * destruct H as [[H3 H4] | [H3 [H4 H5]]]; [left; split; congruence|].
        right. split; [congruence|]. split; [congruence|]. exists event, bytes.
        split; [now left|]. split; [now symmetry|]. split; [exact Hm|]. now left.
      * right. split; [exact H1|]. split; [exact H2|]. exists ev, bs.
        split; [exact Hin|]. split; [|exact H3].
        unfold Columns.of_outbox in Hc. congruence.
Qed.

Abbreviation batch := (publishBatch json_Unmarshal json_Marshal uuid_String).

Lemma length_select_pending (db : DB) (batchSize : Z) :
  (List.length (select_pending db batchSize) <= Z.to_nat batchSize)%nat.
Proof. unfold select_pending. rewrite length_map. apply firstn_le_length. Qed.

Lemma publishBatch_advanced (batchSize : Z) (db : DB) (log : list Kafka.Op) :
  let out := batch t batchSize topic db log in
  exists new,
    snd (snd out) = (log ++ new)%list /\
    Forall (fun op => exists m, op = Kafka.Produce topic m) new /\
    (List.length new <= Z.to_nat batchSize)%nat /\
    accounts (fst (snd out)) = accounts db /\
    transactions (fst (snd out)) = transactions db /\
    processed_events (fst (snd out)) = processed_events db /\
    Forall2 (advanced json_Unmarshal json_Marshal uuid_String t topic
               (select_pending db batchSize) new)
      (outbox_events db) (outbox_events (fst (snd out))).
Proof.
  unfold publishBatch. destruct (query_fault t); cbn [fst snd].
  - exists []. rewrite app_nil_r. split; [reflexivity|]. split; [constructor|].
    split; [simpl; lia|]. do 3 (split; [reflexivity|]).
    apply Forall2_same. intros x. split; [reflexivity|]. split; [lia|]. now left.
  - destruct (publish_each_advanced (select_pending db batchSize) db log)
      as [new [Hlog [Hall [Hlen H]]]].
    exists new. split; [exact Hlog|]. split; [exact Hall|]. split; [|exact H].
    pose proof (length_select_pending db batchSize). lia.
Qed.

(** X11: after a tick of the relay an outbox row is PUBLISHED only if it
    was so before the tick or if, during this tick, an event with its id was
    encoded and its message written to the topic; the tick changes no other
    column than the status, the publication time, the attempt count and the
    last error, and it appends to the log. *)
Theorem published_rows_were_written (batchSize : Z) (db : DB) (log : list Kafka.Op) :
  let out := batch t batchSize topic db log in
  exists new,
    snd (snd out) = (log ++ new)%list /\
    Forall2 (advanced json_Unmarshal json_Marshal uuid_String t topic
               (select_pending db batchSize) new)
      (outbox_events db) (outbox_events (fst (snd out))).
Proof.
  destruct (publishBatch_advanced batchSize db log) as [new [Hlog [_ [_ [_ [_ [_ H]]]]]]].
  exists new. split; [exact Hlog | exact H].
Qed.

Section Clean.

Variable encode : EventEnvelope -> string.
Hypothesis marshal_total : forall e, json_Marshal e = Ok (encode e).
Hypothesis writes : forall id, write_fault t id = None.
Hypothesis marks : forall id, mark_fault t id = None.

Abbreviation written := (Outbox.written json_Unmarshal uuid_String encode t topic).

Lemma clean_each (events : list outboxEvent) :
  forall db log,
    each events db log
    = (with_outbox_events db
         (update_where (selected events) (set_published (tick_now t)) (outbox_events db)),
       (log ++ map written events)%list).
Proof.
  induction events as [|event rest IH]; intros db log.
  - simpl. rewrite app_nil_r. f_equal. destruct db as [a tr o p].
    unfold with_outbox_events, update_where. cbn. f_equal. symmetry. apply map_id.
  - cbn [publish_each]. unfold publishEvent. rewrite marshal_total, writes.
    unfold markAsPublished. rewrite marks. cbn [snd]. rewrite IH.
    cbn [map]. rewrite <- app_assoc. cbn [app]. f_equal.
    destruct db as [a tr o p]. unfold with_outbox_events. cbn. f_equal.
    unfold update_where. rewrite map_map. apply map_ext. intros r.
    unfold selected. cbn [existsb].
    destruct (N.eqb (ob_id r) (oe_ID event)) eqn:E; cbn [orb].
    + cbn [ob_id set_published].
      destruct (existsb _ rest); reflexivity.
    + reflexivity.
Qed.

End Clean.

Lemma oldest_first_select_pending (db : DB) (batchSize : Z) :
  oldest_first (select_pending db batchSize).
Proof.
  rewrite select_pending_scan, <- firstn_map. apply oldest_first_firstn.
  induction (Relay.with_status "PENDING" db) as [|o l IH]; [exact I|].
  simpl. now apply oldest_first_insert.
Qed.

(** X12: on a tick where the query, every encoding, every write to the log
    and every [UPDATE] succeed, [publishBatch] writes one message per event
    of the batch, in the order of the batch, which is oldest first, and
    marks PUBLISHED, at the time of the tick, exactly the rows with the id
    of an event of the batch; nothing else changes. *)
Theorem clean_tick_publishes_batch_in_order (encode : EventEnvelope -> string)
    (batchSize : Z) (db : DB) (log : list Kafka.Op) :
  (forall e, json_Marshal e = Ok (encode e)) ->
  query_fault t = None ->
  (forall id, write_fault t id = None) ->
  (forall id, mark_fault t id = None) ->
  let events := select_pending db batchSize in
  batch t batchSize topic db log
  = (None,
     (with_outbox_events db
        (update_where (selected events) (set_published (tick_now t)) (outbox_events db)),
      (log ++ map (Outbox.written json_Unmarshal uuid_String encode t topic) events)%list)) /\
  oldest_first events.
Proof.
  intros Hm Hq Hw Hk events. split; [|apply oldest_first_select_pending].
  unfold publishBatch. rewrite Hq. f_equal. now apply clean_each.
Qed.

(** X13: if, in addition, the batch size is at least the number of PENDING
    rows, no row is PENDING after the tick and the tick has written as many
    messages as there were PENDING rows. *)
Theorem clean_tick_drains_outbox (encode : EventEnvelope -> string)
    (batchSize : Z) (db : DB) (log : list Kafka.Op) :
  (forall e, json_Marshal e = Ok (encode e)) ->
  query_fault t = None ->
  (forall id, write_fault t id = None) ->
  (forall id, mark_fault t id = None) ->
  (List.length (Relay.with_status "PENDING" db) <= Z.to_nat batchSize)%nat ->
  let out := batch t batchSize topic db log in
  Relay.with_status "PENDING" (fst (snd out)) = [] /\
  exists new,
    snd (snd out) = (log ++ new)%list /\
    List.length new = List.length (Relay.with_status "PENDING" db).
Proof.
  intros Hm Hq Hw Hk Hn out. subst out. unfold publishBatch. rewrite Hq.
  rewrite (clean_each encode Hm Hw Hk). cbn [fst snd]. split.
  - unfold Relay.with_status. cbn [outbox_events with_outbox_events].
    unfold update_where.
    assert (Hall : forall o, In o (outbox_events db) ->
              ob_status o = "PENDING" -> selected (select_pending db batchSize) o = true).
    { intros o Hin Hs. unfold selected. apply existsb_exists. exists (scan o).
      split; [|apply N.eqb_refl].
      rewrite select_pending_scan. apply in_map.
      rewrite firstn_all2 by (rewrite length_order_by_created_at; exact Hn).
      apply In_order_by_created_at. unfold Relay.with_status.
      apply filter_In. split; [exact Hin|]. now apply String.eqb_eq. }
    induction (outbox_events db) as [|o l IH]; [reflexivity|].
    cbn [map filter].
    assert (Ho : String.eqb
              (ob_status (if selected (select_pending db batchSize) o
                          then set_published (tick_now t) o else o)) "PENDING" = false).
    { destruct (selected (select_pending db batchSize) o) eqn:S; [reflexivity|].
      apply String.eqb_neq. intros Hs.
      rewrite (Hall o (or_introl eq_refl) Hs) in S. discriminate S. }
    rewrite Ho. apply IH. intros o' Hin. apply Hall. now right.
  - eexists. split; [reflexivity|].
    rewrite length_map, select_pending_scan, length_map.
    rewrite firstn_all2 by (rewrite length_order_by_created_at; exact Hn).
    apply length_order_by_created_at.
Qed.

Lemma failing_each (events : list outboxEvent) :
  (forall id, write_fault t id <> None) ->
  forall db log,
    snd (each events db log) = log /\
    Forall2 (deferred t events) (outbox_events db) (outbox_events (fst (each events db log))).
Proof.
  intros Hw. induction events as [|event rest IH]; intros db log.
  - split; [reflexivity|]. apply Forall2_same. intros x.
    do 3 (split; [reflexivity|]). split; [lia|]. split; [tauto|].
    intros H. discriminate H.
  - cbn [publish_each].
    destruct (publishEvent_cases (fresh_uuid t (oe_ID event)) (write_fault t (oe_ID event))
                event log) as [[err E] | [bytes [_ [Hnone _]]]];
      [|now apply Hw in Hnone].
    rewrite E.
    destruct (updateEventError_frame db (oe_ID event) err) as [_ [_ [_ HF]]].
    destruct (IH (snd (updateEventError t db (oe_ID event) err)) log) as [Hlog HF'].
    split; [exact Hlog|].
    eapply Forall2_compose; [|exact HF|exact HF'].
    intros a b c [Hc [Hs [Hp [Hat [Hle Hsel]]]]] [Hc' [Hs' [Hp' [Hat' [Hle' Hsel']]]]].
    split; [congruence|]. split; [congruence|]. split; [congruence|]. split; [lia|].
    split; [tauto|].
    assert (Hid : ob_id b = ob_id a) by (unfold Columns.of_outbox in Hc; congruence).
    intros Hin Hf. unfold selected in Hin. cbn [existsb] in Hin.
    destruct (selected rest b) eqn:Sb.
    + rewrite Hid in Hsel'. destruct (Hsel' eq_refl Hf) as [H1 H2]. split; [lia | exact H2].
    + apply orb_true_iff in Hin. destruct Hin as [Hin | Hin].
      * apply N.eqb_eq in Hin. rewrite <- Hin in Hsel.
        destruct (Hsel eq_refl Hf) as [H1 H2]. split; [lia | tauto].
      * unfold selected in Sb. rewrite Hid in Sb. rewrite Sb in Hin. discriminate Hin.
Qed.

(** X14: on a tick where the query succeeds and no write to the log does,
    [publishBatch] writes nothing and marks nothing: every row keeps its
    status and publication time, so the PENDING rows are fetched again by
    the next tick; a row of the batch whose error [UPDATE] goes through has
    its attempt count raised and its last error set. *)
Theorem outage_keeps_rows_pending (batchSize : Z) (db : DB) (log : list Kafka.Op) :
  query_fault t = None ->
  (forall id, write_fault t id <> None) ->
  let out := batch t batchSize topic db log in
  fst out = None /\
  snd (snd out) = log /\
  Forall2 (deferred t (select_pending db batchSize))
    (outbox_events db) (outbox_events (fst (snd out))).
Proof.
  intros Hq Hw out. subst out. unfold publishBatch. rewrite Hq. cbn [fst snd].
  split; [reflexivity|]. now apply failing_each.
Qed.

End OneTick.

Section Loop.

Variable json_Unmarshal : RawMessage -> result TransactionCreatedPayload.
Variable json_Marshal : EventEnvelope -> result string.
Variable uuid_String : UUID -> string.
Variable batchSize : Z.
Variable topic : string.

Abbreviation start := (Relay.Start json_Unmarshal json_Marshal uuid_String batchSize topic).

(** X15: however many ticks the relay runs and whatever fails on them,
    [Start] leaves accounts, transactions and processed events as they
    are, keeps the outbox rows and the columns written at insert, never
    turns a status into anything but PUBLISHED, never lowers an attempt
    count, and only appends messages of its topic to the log, at most
    [batchSize] per tick. *)
Theorem relay_only_marks_and_appends (ticks : list Tick) (db : DB) (log : list Kafka.Op) :
  let out := start ticks db log in
  accounts (fst out) = accounts db /\
  transactions (fst out) = transactions db /\
  processed_events (fst out) = processed_events db /\
  Forall2 (fun o o' =>
             Columns.of_outbox o' = Columns.of_outbox o /\
             (ob_status o' = ob_status o \/ ob_status o' = "PUBLISHED") /\
             ob_publish_attempts o <= ob_publish_attempts o')
    (outbox_events db) (outbox_events (fst out)) /\
  exists new,
    snd out = (log ++ new)%list /\
    Forall (fun op => exists m, op = Kafka.Produce topic m) new /\
    (List.length new <= List.length ticks * Z.to_nat batchSize)%nat.
Proof.
  revert db log. induction ticks as [|t rest IH]; intros db log.
  - cbn. do 3 (split; [reflexivity|]). split.
    + apply Forall2_same. intros x. split; [reflexivity|]. split; [now left | lia].
    + exists []. rewrite app_nil_r. split; [reflexivity|]. split; [constructor | simpl; lia].
  - cbn [Relay.Start].
    destruct (publishBatch_advanced json_Unmarshal json_Marshal uuid_String t topic
                batchSize db log) as [new [Hlog [Hall [Hlen [Ha [Ht [Hp HF]]]]]]].
    destruct (publishBatch json_Unmarshal json_Marshal uuid_String t batchSize topic db log)
      as [err [db1 log1]].
    cbn [fst snd] in *. subst log1.
    specialize (IH db1 (log ++ new)%list). cbv zeta in IH.
    destruct IH as [Ha' [Ht' [Hp' [HF' [new' [Hlog' [Hall' Hlen']]]]]]].
    split; [congruence|]. split; [congruence|]. split; [congruence|]. split.
    + eapply Forall2_compose; [|exact HF|exact HF'].
      intros a b c [Hc [Hat H]] [Hc' [H' Hat']].
      split; [congruence|]. split; [|lia].
      destruct H' as [H' | H']; [|now right].
      destruct H as [[H _] | [H _]]; [left | right]; congruence.
    + exists (new ++ new')%list. split; [rewrite Hlog', app_assoc; reflexivity|].
      split; [apply Forall_app; now split|].
      rewrite length_app. simpl. lia.
Qed.

End Loop.

(** The one-row outbox of the fixtures on a clean tick. *)
Lemma clean_tick_publishes_batch_in_order_witness :
  publishBatch RelayFixture.no_payload RelayFixture.id_only RelayFixture.plain
    (RelayFixture.tick 7%N None 6) 100 "transactions" RelayFixture.outbox []
  = (None,
     (with_outbox_events RelayFixture.outbox [set_published 6 RelayFixture.pending_row],
      [Kafka.Produce "transactions"
         (Relay.message_of RelayFixture.plain 7%N RelayFixture.row1 "7")])).
Proof.
  exact (proj1 (clean_tick_publishes_batch_in_order
                  RelayFixture.no_payload RelayFixture.id_only RelayFixture.plain
                  (RelayFixture.tick 7%N None 6) "transactions"
                  (fun e => Fmt.d (Z.of_N (EventID e))) 100 RelayFixture.outbox []
                  (fun _ => eq_refl) eq_refl (fun _ => eq_refl) (fun _ => eq_refl))).
Defined.

Lemma clean_tick_drains_outbox_witness :
  Relay.with_status "PENDING"
    (fst (snd (publishBatch RelayFixture.no_payload RelayFixture.id_only RelayFixture.plain
                 (RelayFixture.tick 7%N None 6) 100 "transactions" RelayFixture.outbox [])))
  = [].
Proof.
  refine (proj1 (clean_tick_drains_outbox
                   RelayFixture.no_payload RelayFixture.id_only RelayFixture.plain
                   (RelayFixture.tick 7%N None 6) "transactions"
                   (fun e => Fmt.d (Z.of_N (EventID e))) 100 RelayFixture.outbox []
                   (fun _ => eq_refl) eq_refl (fun _ => eq_refl) (fun _ => eq_refl) _)).
  simpl. lia.
Defined.

(** The same outbox while the brokers are down. *)
Lemma outage_keeps_rows_pending_witness :
  let down :=
    {| query_fault := None; fresh_uuid := fun _ => 7%N;
       write_fault := fun _ => Some "dial tcp: connection refused";
       mark_fault := fun _ => None; error_fault := fun _ => None; tick_now := 6 |} in
  let out :=
    publishBatch RelayFixture.no_payload RelayFixture.id_only RelayFixture.plain
      down 100 "transactions" RelayFixture.outbox [] in
  snd (snd out) = [] /\
  map ob_status (outbox_events (fst (snd out))) = ["PENDING"] /\
  map ob_publish_attempts (outbox_events (fst (snd out))) = [1].
Proof.
  cbv zeta.
  pose proof (outage_keeps_rows_pending
                RelayFixture.no_payload RelayFixture.id_only RelayFixture.plain
                {| query_fault := None; fresh_uuid := fun _ => 7%N;
                   write_fault := fun _ => Some "dial tcp: connection refused";
                   mark_fault := fun _ => None; error_fault := fun _ => None; tick_now := 6 |}
                "transactions" 100 RelayFixture.outbox [] eq_refl
                (fun _ H => match H with eq_refl => I end)) as [_ [H _]].
  split; [exact H|]. split; reflexivity.
Defined.

End RelayFacts.

(** ** The Ingress and the queries *)

Module IngressFacts.
Import Service ServiceProofs.

Lemma find_by_id (l : list Transaction) (t : Transaction) :
  NoDup (map ID l) -> In t l -> find (fun x => N.eqb (ID x) (ID t)) l = Some t.
Proof.
  induction l as [|x l IH]; intros Hnd Hin; [contradiction|].
  simpl in Hnd. inversion Hnd as [|k ks Hx Hnd']; subst. simpl.
  destruct Hin as [-> | Hin]; [now rewrite N.eqb_refl|].
  destruct (N.eqb_spec (ID x) (ID t)) as [E|_]; [|now apply IH].
  exfalso. apply Hx. rewrite E. now apply in_map.
Qed.

Section Calls.

Variable json_Marshal : TransactionCreatedPayload -> result RawMessage.

Lemma ended_primary_key (now : Z) (txID outboxID : UUID) (interleaved : DB -> DB)
    (db : DB) (req : CreateTransactionRequest) (out : result Transaction * DB) :
  (NoDup (map ID (transactions db)) -> NoDup (map ID (transactions (interleaved db)))) ->
  ended json_Marshal now txID outboxID interleaved db req out ->
  NoDup (map ID (transactions db)) -> NoDup (map ID (transactions (snd out))).
Proof.
  intros Hg Hend Hpk.
  destruct Hend as [t Hsel | e | e | bytes Hnone Hid Hkey Hob Hm]; cbn [snd];
    auto.
  cbn [inserted transactions with_outbox_events with_transactions].
  rewrite map_app. apply NoDup_snoc; [now apply Hg|].
  now apply txID_not_in.
Qed.

Lemma call_alone_primary_key (a : Args) (d : DB) :
  NoDup (map ID (transactions d)) ->
  NoDup (map ID (transactions (snd (call_alone json_Marshal a d)))).
Proof.
  unfold call_alone.
  apply (ended_primary_key (a_now a) (a_txID a) (a_outboxID a) (fun d => d) d (a_req a));
    [tauto | apply CreateTransaction_ended].
Qed.

Lemma call_primary_key (c : Call) (d : DB) :
  NoDup (map ID (transactions d)) ->
  NoDup (map ID (transactions (snd (call json_Marshal c d)))).
Proof.
  unfold call.
  apply (ended_primary_key (a_now (c_args c)) (a_txID (c_args c)) (a_outboxID (c_args c))
           (interleaving json_Marshal c) d (a_req (c_args c)));
    [|apply CreateTransaction_ended].
  unfold interleaving. destruct (c_concurrent c); [apply call_alone_primary_key | tauto].
Qed.

(** X16: a transaction that [CreateTransaction] returns, whether it was
    inserted by the call or found under the key, with or without another
    request committing while the call runs, is the row that
    [GetTransaction] reads back under its id from the database the call
    leaves. *)
Theorem created_transaction_can_be_read (c : Call) (db : DB) (t : Transaction) :
  NoDup (map ID (transactions db)) ->
  fst (call json_Marshal c db) = Ok t ->
  Queries.GetTransaction None (snd (call json_Marshal c db)) (ID t) = Ok t.
Proof.
  intros Hpk Hok.
  pose proof (call_primary_key c db Hpk) as Hpk'.
  destruct (call_keeps json_Marshal c db) as [_ Hsel]. specialize (Hsel t Hok).
  unfold select_by_key in Hsel. apply find_some in Hsel. destruct Hsel as [Hin _].
  unfold Queries.GetTransaction, select_transaction.
  now rewrite (find_by_id _ t Hpk' Hin).
Qed.

Lemma not_in_existsb {A : Type} (key : A -> N) (k : N) (l : list A) :
  ~ In k (map key l) -> existsb (fun a => N.eqb (key a) k) l = false.
Proof.
  intros Hk. destruct (existsb _ l) eqn:E; [|reflexivity].
  apply existsb_exists in E. destruct E as [a [Hin Ha]]. apply N.eqb_eq in Ha.
  exfalso. apply Hk. rewrite <- Ha. now apply in_map.
Qed.

Lemma CreateTransaction_inserts (f : Faults) (now : Z) (txID outboxID : UUID) (db : DB)
    (req : CreateTransactionRequest) (account : Account) (payloadBytes : RawMessage) :
  (forall s, f s = None) ->
  select_by_key db (req_AccountID req) (req_IdempotencyKey req) = None ->
  select_account db (req_AccountID req) = Some account ->
  acc_Status account = AccountStatusActive ->
  0 < req_AmountCents req ->
  ~ In txID (map ID (transactions db)) ->
  ~ In outboxID (map ob_id (outbox_events db)) ->
  json_Marshal (created_payload (new_transaction txID req now)) = Ok payloadBytes ->
  CreateTransaction json_Marshal f now txID outboxID (fun d => d) db req
  = (Ok (new_transaction txID req now), inserted now txID outboxID req db payloadBytes).
Proof.
  intros Hf Hkey Hacc Hact Hpos Htx Hob Hm. unfold CreateTransaction.
  rewrite !Hf, Hkey, Hacc, Hact. cbn [negb String.eqb].
  replace (negb (AccountStatusActive =? AccountStatusActive)%string) with false
    by (now rewrite String.eqb_refl).
  destruct (Z.leb_spec (req_AmountCents req) 0) as [H|_]; [lia|].
  unfold insert_transaction. rewrite ?Hf.
  change (ID (new_transaction txID req now)) with txID.
  change (AccountID (new_transaction txID req now)) with (req_AccountID req).
  change (IdempotencyKey (new_transaction txID req now)) with (req_IdempotencyKey req).
  rewrite (not_in_existsb ID txID _ Htx).
  replace (existsb (same_key (req_AccountID req) (req_IdempotencyKey req)) (transactions db))
    with false.
  2:{ symmetry. destruct (existsb _ (transactions db)) eqn:E; [|reflexivity].
      apply existsb_exists in E. destruct E as [x [Hin Hx]].
      unfold select_by_key in Hkey. apply (find_none _ _ Hkey) in Hin. congruence. }
  rewrite Hm. unfold insert_outbox. rewrite ?Hf.
  cbn [outbox_events with_transactions ob_id outbox_row].
  rewrite (not_in_existsb ob_id outboxID _ Hob). rewrite ?Hf. reflexivity.
Qed.

(** X17: [CreateTransaction] goes through whenever nothing stands in its
    way: no statement fails, the key is new for the account, the account
    exists and is ACTIVE, the amount is positive, the type is one the
    [transactions] table accepts, the two fresh ids are not taken, and the
    payload encodes.  It then returns the PENDING transaction of the
    request, and the database has this row and its PENDING outbox row
    appended and nothing else changed. *)
Theorem create_succeeds (f : Faults) (now : Z) (txID outboxID : UUID) (db : DB)
    (req : CreateTransactionRequest) (account : Account) (payloadBytes : RawMessage) :
  (forall s, f s = None) ->
  select_by_key db (req_AccountID req) (req_IdempotencyKey req) = None ->
  select_account db (req_AccountID req) = Some account ->
  acc_Status account = AccountStatusActive ->
  0 < req_AmountCents req ->
  req_Type req = TransactionTypeDebit \/ req_Type req = TransactionTypeCredit ->
  ~ In txID (map ID (transactions db)) ->
  ~ In outboxID (map ob_id (outbox_events db)) ->
  json_Marshal (created_payload (new_transaction txID req now)) = Ok payloadBytes ->
  let out := CreateTransaction json_Marshal f now txID outboxID (fun d => d) db req in
  fst out = Ok (new_transaction txID req now) /\
  Status (new_transaction txID req now) = TransactionStatusPending /\
  transactions (snd out) = (transactions db ++ [new_transaction txID req now])%list /\
  outbox_events (snd out)
    = (outbox_events db
         ++ [outbox_row outboxID (new_transaction txID req now) payloadBytes now])%list /\
  accounts (snd out) = accounts db /\
  processed_events (snd out) = processed_events db.
Proof.
  intros Hf Hkey Hacc Hact Hpos _ Htx Hob Hm out. subst out.
  rewrite (CreateTransaction_inserts f now txID outboxID db req account payloadBytes)
    by assumption.
  repeat split.
Qed.

End Calls.

Lemma created_transaction_can_be_read_witness :
  let c := {| c_args := IngressFixture.args 1 100 TransactionTypeCredit;
              c_concurrent := None |} in
  let created := new_transaction 21%N (IngressFixture.request 100 TransactionTypeCredit) 1 in
  fst (call IngressFixture.marshal c IngressFixture.empty_ledger) = Ok created /\
  Queries.GetTransaction None
    (snd (call IngressFixture.marshal c IngressFixture.empty_ledger)) 21%N = Ok created.
Proof.
  cbv zeta. split; [reflexivity|].
  apply (created_transaction_can_be_read IngressFixture.marshal
           {| c_args := IngressFixture.args 1 100 TransactionTypeCredit;
              c_concurrent := None |}
           IngressFixture.empty_ledger
           (new_transaction 21%N (IngressFixture.request 100 TransactionTypeCredit) 1)).
  - simpl. constructor.
  - reflexivity.
Defined.

Lemma create_succeeds_witness :
  let row := new_transaction 21%N (IngressFixture.request 100 TransactionTypeCredit) 1 in
  let out :=
    CreateTransaction IngressFixture.marshal no_faults 1 21%N 31%N (fun d => d)
      IngressFixture.empty_ledger (IngressFixture.request 100 TransactionTypeCredit) in
  fst out = Ok row /\ transactions (snd out) = [row] /\
  map ob_aggregate_id (outbox_events (snd out)) = [21%N].
Proof.
  cbv zeta.
  destruct (create_succeeds IngressFixture.marshal no_faults 1 21%N 31%N
              IngressFixture.empty_ledger (IngressFixture.request 100 TransactionTypeCredit)
              (Fixture.account 0) "payload")
    as [H1 [_ [H2 [H3 _]]]].
  - reflexivity.
  - reflexivity.
  - reflexivity.
  - reflexivity.
  - simpl. lia.
  - now right.
  - simpl. tauto.
  - simpl. tauto.
  - reflexivity.
  - split; [exact H1|]. split; [exact H2|]. rewrite H3. reflexivity.
Defined.

End IngressFacts.

(** ** Listing transactions *)

Module QueriesFacts.
Import Queries.

Lemma In_insert_by_created_at_desc (x t : Transaction) (l : list Transaction) :
  In x (insert_by_created_at_desc t l) <-> x = t \/ In x l.
Proof.
  induction l as [|y l IH]; simpl.
  - intuition auto.
  - destruct (CreatedAt t <? CreatedAt y); simpl; [rewrite IH|]; intuition auto.
Qed.

Lemma In_order_by_created_at_desc (x : Transaction) (l : list Transaction) :
  In x (order_by_created_at_desc l) <-> In x l.
Proof.
  induction l as [|y l IH]; simpl; [tauto|].
  rewrite In_insert_by_created_at_desc, IH. intuition auto.
Qed.

Lemma length_order_by_created_at_desc (l : list Transaction) :
  List.length (order_by_created_at_desc l) = List.length l.
Proof.
  induction l as [|y l IH]; simpl; [reflexivity|]. rewrite <- IH.
  generalize (order_by_created_at_desc l). intros s.
  induction s as [|x s IHs]; simpl; [reflexivity|].
  destruct (CreatedAt y <? CreatedAt x); simpl; [now rewrite IHs | reflexivity].
Qed.

Lemma newest_first_insert (t : Transaction) (l : list Transaction) :
  newest_first l -> newest_first (insert_by_created_at_desc t l).
Proof.
  induction l as [|y l IH]; simpl.
  - intros _. split; [intros u []|exact I].
  - intros [Hy Hl]. destruct (CreatedAt t <? CreatedAt y) eqn:E; simpl.
    + apply Z.ltb_lt in E. split; [|now apply IH].
      intros u Hu. apply In_insert_by_created_at_desc in Hu.
      destruct Hu as [-> | Hu]; [lia | now apply Hy].
    + apply Z.ltb_ge in E. split; [|now split].
      intros u [<- | Hu]; [lia|]. specialize (Hy u Hu). lia.
Qed.

Lemma newest_first_order (l : list Transaction) : newest_first (order_by_created_at_desc l).
Proof. induction l; simpl; [exact I | now apply newest_first_insert]. Qed.

Lemma In_firstn {A : Type} (n : nat) (l : list A) (x : A) : In x (firstn n l) -> In x l.
Proof.
  revert n. induction l as [|a l IH]; intros [|n]; simpl; try tauto.
  intros [-> | H]; [now left | right; eauto].
Qed.

Lemma In_skipn {A : Type} (n : nat) (l : list A) (x : A) : In x (skipn n l) -> In x l.
Proof.
  revert n. induction l as [|a l IH]; intros [|n]; simpl; try tauto.
  intros H. right. eauto.
Qed.

Lemma newest_first_firstn (n : nat) (l : list Transaction) :
  newest_first l -> newest_first (firstn n l).
Proof.
  revert n. induction l as [|t l IH]; intros [|n]; simpl; auto.
  intros [Ht Hl]. split; [|now apply IH].
  intros u Hu. apply Ht. now apply In_firstn in Hu.
Qed.

Lemma newest_first_skipn (n : nat) (l : list Transaction) :
  newest_first l -> newest_first (skipn n l).
Proof.
  revert n. induction l as [|t l IH]; intros [|n]; simpl; auto.
  intros [_ Hl]. now apply IH.
Qed.

Lemma ListTransactions_answers (f : ListFaults) (db : DB) (accountID : option UUID)
    (limit offset : Z) :
  query_fault f = None -> scan_fault f = None -> 0 <= limit -> 0 <= offset ->
  exists page,
    ListTransactions f db accountID limit offset = Ok page /\
    (List.length page <= Z.to_nat limit)%nat /\
    (forall t, In t page ->
       In t (transactions db) /\ forall id, accountID = Some id -> AccountID t = id) /\
    newest_first page.
Proof.
  intros Hq Hs Hl Ho. unfold ListTransactions. rewrite Hq, Hs.
  destruct (Z.ltb_spec limit 0) as [H|_]; [lia|].
  destruct (Z.ltb_spec offset 0) as [H|_]; [lia|].
  set (rows := match accountID with
               | Some id => filter (fun t => N.eqb (AccountID t) id) (transactions db)
               | None => transactions db
               end).
  set (page := firstn (Z.to_nat limit)
                 (skipn (Z.to_nat offset) (order_by_created_at_desc rows))).
  exists page. split; [now destruct page|].
  split; [apply firstn_le_length|]. split.
  - intros t Hin. subst page. apply In_firstn, In_skipn in Hin.
    apply (proj1 (In_order_by_created_at_desc _ _)) in Hin. subst rows.
    destruct accountID as [id|].
    + apply filter_In in Hin. destruct Hin as [Hin Hid]. split; [exact Hin|].
      intros id' [= <-]. now apply N.eqb_eq.
    + split; [exact Hin | discriminate].
  - apply newest_first_firstn, newest_first_skipn, newest_first_order.
Qed.

(** X18: asked without fault for a page with a limit and an offset that are
    not negative, [ListTransactions] answers with at most [limit] rows, all
    of them rows of the table and, when an account is given, of that
    account, newest first; and the first page has every such row when the
    limit is at least the number of rows of the table. *)
Theorem ListTransactions_page (f : ListFaults) (db : DB) (accountID : option UUID)
    (limit offset : Z) :
  query_fault f = None -> scan_fault f = None -> 0 <= limit -> 0 <= offset ->
  exists page,
    ListTransactions f db accountID limit offset = Ok page /\
    (List.length page <= Z.to_nat limit)%nat /\
    (forall t, In t page ->
       In t (transactions db) /\ forall id, accountID = Some id -> AccountID t = id) /\
    newest_first page /\
    (offset = 0 ->
     forall t, In t (transactions db) ->
       (forall id, accountID = Some id -> AccountID t = id) ->
       (List.length (transactions db) <= Z.to_nat limit)%nat ->
       In t page).
Proof.
  intros Hq Hs Hl Ho.
  destruct (ListTransactions_answers f db accountID limit offset Hq Hs Hl Ho)
    as [page [Heq [Hlen [Hin Hnew]]]].
  exists page. split; [exact Heq|]. split; [exact Hlen|]. split; [exact Hin|].
  split; [exact Hnew|].
  intros -> t Ht Hacc Hall. revert Heq. unfold ListTransactions. rewrite Hq, Hs.
  destruct (Z.ltb_spec limit 0) as [H|_]; [lia|]. cbn [Z.ltb Z.compare Z.to_nat skipn].
  set (rows := match accountID with
               | Some id => filter (fun t => N.eqb (AccountID t) id) (transactions db)
               | None => transactions db
               end).
  assert (Hrows : In t rows).
  { subst rows. destruct accountID as [id|]; [|exact Ht].
    apply filter_In. split; [exact Ht|]. apply N.eqb_eq. now apply Hacc. }
  assert (Hn : (List.length rows <= Z.to_nat limit)%nat).
  { subst rows. destruct accountID as [id|]; [|exact Hall].
    pose proof (filter_length_le (fun t => N.eqb (AccountID t) id) (transactions db)). lia. }
  rewrite firstn_all2 by (now rewrite length_order_by_created_at_desc).
  intros Heq. assert (page = order_by_created_at_desc rows) as ->.
  { destruct (order_by_created_at_desc rows); now inversion Heq. }
  now apply In_order_by_created_at_desc.
Qed.

Section Endpoint.

Variable uuid_Parse : string -> result UUID.

(** X19: behind the handler the service is never asked for a negative
    limit or offset: when the query and the scans succeed, GET
    /v1/transactions answers 200, and what it writes to the body is the
    document with the limit and the offset applied and a page of at most
    that limit, hence of at most 100 transactions, all of them rows of the
    table, newest first. *)
Theorem listing_endpoint_serves_a_page (f : ListFaults) (db : DB)
    (r : HTTP.Request) (w : HTTP.ResponseWriter) :
  query_fault f = None -> scan_fault f = None ->
  let limit := Handler.parse_limit (HTTP.Get (HTTP.Query r) "limit") in
  let offset := Handler.parse_offset (HTTP.Get (HTTP.Query r) "offset") in
  exists page,
    Endpoints.ListTransactions uuid_Parse f db r w
      = Handler.respondJSON w HTTP.StatusOK (HTTP.Listing page limit offset) /\
    (HTTP.rw_Status w = None ->
     HTTP.rw_Status (Endpoints.ListTransactions uuid_Parse f db r w) = Some HTTP.StatusOK) /\
    HTTP.rw_Body (Endpoints.ListTransactions uuid_Parse f db r w)
      = (HTTP.rw_Body w ++ [HTTP.Encoded (HTTP.Listing page limit offset)])%list /\
    (List.length page <= Z.to_nat limit)%nat /\ (List.length page <= 100)%nat /\
    (forall t, In t page -> In t (transactions db)) /\
    newest_first page.
Proof.
  intros Hq Hs limit offset.
  pose proof (HandlerProofs.parse_limit_bounds (HTTP.Get (HTTP.Query r) "limit")) as Hl.
  pose proof (HandlerProofs.parse_offset_bounds (HTTP.Get (HTTP.Query r) "offset")) as Ho.
  fold limit in Hl. fold offset in Ho.
  destruct (ListTransactions_answers f db
              (Handler.parse_account_id uuid_Parse (HTTP.Get (HTTP.Query r) "account_id"))
              limit offset Hq Hs) as [page [Heq [Hlen [Hin Hnew]]]]; [lia | lia |].
  assert (Hresp : Endpoints.ListTransactions uuid_Parse f db r w
                  = Handler.respondJSON w HTTP.StatusOK (HTTP.Listing page limit offset)).
  { unfold Endpoints.ListTransactions, Handler.ListTransactions.
    fold limit. fold offset. now rewrite Heq. }
  exists page. split; [exact Hresp|]. rewrite Hresp. split; [|split].
  - intros Hw. unfold Handler.respondJSON. simpl. now rewrite Hw.
  - reflexivity.
  - split; [exact Hlen|]. split; [lia|]. split; [|exact Hnew].
    intros t Ht. now apply Hin.
Qed.

End Endpoint.

(** The ledger of the fixtures, asked for the transactions of its account. *)
Lemma ListTransactions_page_witness :
  let t := Fixture.pending TransactionTypeCredit 50 "USD" 10%N in
  exists page,
    ListTransactions no_list_faults (Fixture.database 100 t) (Some 10%N) 50 0 = Ok page /\
    (List.length page <= 50)%nat /\ In t page.
Proof.
  cbv zeta.
  destruct (ListTransactions_page no_list_faults
              (Fixture.database 100 (Fixture.pending TransactionTypeCredit 50 "USD" 10%N))
              (Some 10%N) 50 0 eq_refl eq_refl)
    as [page [Heq [Hlen [_ [_ Hall]]]]]; [lia | lia |].
  exists page. split; [exact Heq|]. split; [exact Hlen|].
  apply Hall; [reflexivity | simpl; now left | now intros id [= <-] | simpl; lia].
Defined.

(** A limit above the maximum is served as a page of at most 50. *)
Lemma listing_endpoint_serves_a_page_witness :
  let r := {| HTTP.Header := []; HTTP.Query := [("limit", "1000"); ("offset", "-3")] |} in
  let db := Fixture.database 100 (Fixture.pending TransactionTypeCredit 50 "USD" 10%N) in
  exists page,
    HTTP.rw_Status
      (Endpoints.ListTransactions (fun _ => Err "invalid UUID length") no_list_faults db r
         HTTP.empty_response) = Some HTTP.StatusOK /\
    HTTP.rw_Body
      (Endpoints.ListTransactions (fun _ => Err "invalid UUID length") no_list_faults db r
         HTTP.empty_response) = [HTTP.Encoded (HTTP.Listing page 50 0)] /\
    (List.length page <= 50)%nat.
Proof.
  cbv zeta.
  destruct (listing_endpoint_serves_a_page (fun _ => Err "invalid UUID length")
              no_list_faults
              (Fixture.database 100 (Fixture.pending TransactionTypeCredit 50 "USD" 10%N))
              {| HTTP.Header := []; HTTP.Query := [("limit", "1000"); ("offset", "-3")] |}
              HTTP.empty_response eq_refl eq_refl)
    as [page [_ [Hstatus [Hbody [Hlen _]]]]].
  exists page. split; [exact (Hstatus eq_refl)|]. split; [exact Hbody | exact Hlen].
Defined.

End QueriesFacts.

(** ** The endpoints over their services *)

Module EndpointFacts.
Import HTTP Service.

Lemma respondError_status (w : ResponseWriter) (status : Z) (message : string)
    (err : option string) :
  rw_Status w = None ->
  rw_Status (Handler.respondError w status message err) = Some status /\
  rw_Body (Handler.respondError w status message err)
    = (rw_Body w ++ [Encoded (Failure message err)])%list.
Proof. intros Hw. unfold Handler.respondError. simpl. now rewrite Hw. Qed.

Section WithCodecs.

Variable decode_transaction : string -> result CreateTransactionRequest.
Variable decode_account : string -> result string.
Variable encode_transaction : Transaction -> string.
Variable encode_account : Account -> string.
Variable uuid_Parse : string -> result UUID.
Variable json_Marshal : TransactionCreatedPayload -> result RawMessage.

Lemma respondDocument_status (w : ResponseWriter) (status : Z) (document : string) :
  rw_Status w = None ->
  rw_Status (Endpoints.respondDocument w status document) = Some status /\
  rw_Body (Endpoints.respondDocument w status document) = (rw_Body w ++ [Bytes document])%list.
Proof. intros Hw. unfold Endpoints.respondDocument. simpl. now rewrite Hw. Qed.

(** What the error texts of [CreateTransaction] say about the database. *)
Lemma CreateTransaction_error_texts (f : Faults) (now : Z) (txID outboxID : UUID) (db : DB)
    (req : CreateTransactionRequest) :
  let out := CreateTransaction json_Marshal f now txID outboxID (fun d => d) db req in
  match fst out with
  | Ok t => select_by_key (snd out) (req_AccountID req) (req_IdempotencyKey req) = Some t
  | Err e =>
    snd out = db /\
    (e = "account not found" -> select_account db (req_AccountID req) = None) /\
    (e = "account is not active" ->
     exists account, select_account db (req_AccountID req) = Some account /\
                     acc_Status account <> AccountStatusActive)
  end.
Proof.
  cbv zeta.
  pose proof (ServiceProofs.CreateTransaction_ended json_Marshal f now txID outboxID
                (fun d => d) db req) as Hend.
  destruct (ServiceProofs.ended_keeps json_Marshal f now txID outboxID (fun d => d) db req _
              ServiceProofs.keeps_refl Hend) as [_ Hsel].
  clear Hend. revert Hsel. unfold CreateTransaction.
  destruct (f BeginTx);
    [intros _; cbn [fst snd]; split; [reflexivity|]; split; intros H; discriminate H|].
  destruct (f CheckExisting);
    [intros _; cbn [fst snd]; split; [reflexivity|]; split; intros H; discriminate H|].
  destruct (select_by_key db _ _) as [existingTx|] eqn:Hk;
    [intros Hsel; cbn [fst snd] in *; now apply Hsel|].
  destruct (f SelectAccount);
    [intros _; cbn [fst snd]; split; [reflexivity|]; split; intros H; discriminate H|].
  destruct (select_account db _) as [account|] eqn:Ha;
    [|intros _; cbn [fst snd]; split; [reflexivity|]; split; [reflexivity|];
      intros H; discriminate H].
  destruct (String.eqb_spec (acc_Status account) AccountStatusActive) as [E|E]; cbn [negb].
  2:{ intros _. cbn [fst snd]. split; [reflexivity|]. split; [intros H; discriminate H|].
      intros _. now exists account. }
  destruct (req_AmountCents req <=? 0);
    [intros _; cbn [fst snd]; split; [reflexivity|]; split; intros H; discriminate H|].
  destruct (insert_transaction f db _) as [[transaction tx]|e].
  - destruct (json_Marshal _);
      [|intros _; cbn [fst snd]; split; [reflexivity|]; split; intros H; discriminate H].
    destruct (insert_outbox f tx _);
      [|intros _; cbn [fst snd]; split; [reflexivity|]; split; intros H; discriminate H].
    destruct (f Commit);
      [intros _; cbn [fst snd]; split; [reflexivity|]; split; intros H; discriminate H|].
    intros Hsel. cbn [fst snd] in *. now apply Hsel.
  - destruct (String.eqb e unique_violation);
      [|intros _; cbn [fst snd]; split; [reflexivity|]; split; intros H; discriminate H].
    destruct (f ReRead);
      (intros _; cbn [fst snd]; split; [reflexivity|]; split; intros H; discriminate H).
Qed.

Abbreviation post_transaction :=
  (Endpoints.CreateTransaction decode_transaction encode_transaction json_Marshal).

Ltac refused w Hw :=
  cbn [fst snd];
  match goal with
  | |- context [Handler.respondError w ?s ?m ?e] =>
    destruct (respondError_status w s m e Hw) as [-> _]
  end.

(** X20: POST /v1/transactions answers 201, 400, 404 or 500.  Unless the
    answer is 201 the database is as before.  A 404 means that the account
    of the request does not exist, so the error text the handler compares
    with is the one the service gives.  A 201 means that the request passed
    the validations of the handler, and its body is the encoding of the
    transaction now stored under the key of the request. *)
Theorem post_transaction_answers (f : Faults) (now : Z) (txID outboxID : UUID)
    (body : string) (db : DB) (w : ResponseWriter) :
  rw_Status w = None ->
  let out := post_transaction f now txID outboxID body db w in
  let status := rw_Status (fst out) in
  (status = Some Endpoints.StatusCreated \/ status = Some StatusBadRequest \/
   status = Some Endpoints.StatusNotFound \/ status = Some StatusInternalServerError) /\
  (status <> Some Endpoints.StatusCreated -> snd out = db) /\
  (status = Some Endpoints.StatusNotFound ->
   exists req, decode_transaction body = Ok req /\
               select_account db (req_AccountID req) = None) /\
  (status = Some Endpoints.StatusCreated ->
   exists req t,
     decode_transaction body = Ok req /\
     req_AccountID req <> uuid_Nil /\ 0 < req_AmountCents req /\
     req_Currency req <> "" /\ req_IdempotencyKey req <> "" /\
     (req_Type req = TransactionTypeDebit \/ req_Type req = TransactionTypeCredit) /\
     select_by_key (snd out) (req_AccountID req) (req_IdempotencyKey req) = Some t /\
     rw_Body (fst out) = (rw_Body w ++ [Bytes (encode_transaction t)])%list).
Proof using decode_transaction encode_transaction json_Marshal.
  intros Hw. cbv zeta. unfold Endpoints.CreateTransaction.
  destruct (decode_transaction body) as [req|e] eqn:Hd.
  2:{ refused w Hw. split; [auto 6|]. split; [reflexivity|]. split; intros Habs; discriminate Habs. }
  destruct (N.eqb_spec (req_AccountID req) uuid_Nil) as [|Hacc].
  { refused w Hw. split; [auto 6|]. split; [reflexivity|]. split; intros Habs; discriminate Habs. }
  destruct (Z.leb_spec (req_AmountCents req) 0) as [|Hpos].
  { refused w Hw. split; [auto 6|]. split; [reflexivity|]. split; intros Habs; discriminate Habs. }
  destruct (String.eqb_spec (req_Currency req) "") as [|Hcur].
  { refused w Hw. split; [auto 6|]. split; [reflexivity|]. split; intros Habs; discriminate Habs. }
  destruct (String.eqb_spec (req_IdempotencyKey req) "") as [|Hkey].
  { refused w Hw. split; [auto 6|]. split; [reflexivity|]. split; intros Habs; discriminate Habs. }
  destruct (negb (String.eqb (req_Type req) TransactionTypeDebit)
            && negb (String.eqb (req_Type req) TransactionTypeCredit)) eqn:Hty.
  { refused w Hw. split; [auto 6|]. split; [reflexivity|]. split; intros Habs; discriminate Habs. }
  assert (Htype : req_Type req = TransactionTypeDebit \/ req_Type req = TransactionTypeCredit).
  { destruct (String.eqb_spec (req_Type req) TransactionTypeDebit) as [E|_]; [now left|].
    destruct (String.eqb_spec (req_Type req) TransactionTypeCredit) as [E|_]; [now right|].
    discriminate Hty. }
  pose proof (CreateTransaction_error_texts f now txID outboxID db req) as Ht.
  cbv zeta in Ht.
  destruct (CreateTransaction json_Marshal f now txID outboxID (fun d => d) db req)
    as [[t|e] db'].
  - cbn [fst snd] in *.
    destruct (respondDocument_status w Endpoints.StatusCreated (encode_transaction t) Hw)
      as [-> Hb].
    split; [auto 6|]. split; [intros Habs; now contradiction Habs|].
    split; [intros Habs; discriminate Habs|].
    intros _. exists req, t. repeat (split; [assumption || reflexivity|]). exact Hb.
  - cbn [fst snd] in Ht. destruct Ht as [-> [Hnf Hna]].
    destruct (String.eqb_spec e "account not found") as [E|_].
    { refused w Hw. split; [auto 6|]. split; [reflexivity|].
      split; [|intros Habs; discriminate Habs]. intros _. exists req. split; [reflexivity|].
      now apply Hnf. }
    destruct (String.eqb_spec e "account is not active") as [E|_].
    { refused w Hw. split; [auto 6|]. split; [reflexivity|]. split; intros Habs; discriminate Habs. }
    refused w Hw. split; [auto 6|]. split; [reflexivity|]. split; intros Habs; discriminate Habs.
Qed.

(** X21: the two read endpoints answer 400 to an id that does not parse,
    500 to a failure of the query, 404 when no row has the id, and 200 with
    the encoding of the row otherwise: the error texts the handlers compare
    with are the ones the services give for a missing row, and no failure
    of the driver is taken for one. *)
Theorem read_endpoints_answer (fault : option string) (idParam : string) (db : DB)
    (w : ResponseWriter) :
  rw_Status w = None ->
  let transaction := Endpoints.GetTransaction encode_transaction uuid_Parse fault idParam db w in
  let account := Endpoints.GetAccount encode_account uuid_Parse fault idParam db w in
  match uuid_Parse idParam, fault with
  | Err _, _ =>
    rw_Status transaction = Some StatusBadRequest /\ rw_Status account = Some StatusBadRequest
  | Ok _, Some _ =>
    rw_Status transaction = Some StatusInternalServerError /\
    rw_Status account = Some StatusInternalServerError
  | Ok id, None =>
    match select_transaction db id with
    | None => rw_Status transaction = Some Endpoints.StatusNotFound
    | Some t =>
      rw_Status transaction = Some StatusOK /\
      rw_Body transaction = (rw_Body w ++ [Bytes (encode_transaction t)])%list
    end /\
    match select_account db id with
    | None => rw_Status account = Some Endpoints.StatusNotFound
    | Some a =>
      rw_Status account = Some StatusOK /\
      rw_Body account = (rw_Body w ++ [Bytes (encode_account a)])%list
    end
  end.
Proof using encode_transaction encode_account uuid_Parse.
  intros Hw. cbv zeta. unfold Endpoints.GetTransaction, Endpoints.GetAccount.
  destruct (uuid_Parse idParam) as [id|e].
  2:{ split; apply respondError_status; exact Hw. }
  unfold Queries.GetTransaction, AccountService.GetAccount.
  destruct fault as [cause|].
  - split; apply respondError_status; exact Hw.
  - split.
    + destruct (select_transaction db id) as [t|].
      * now apply respondDocument_status.
      * apply respondError_status; exact Hw.
    + destruct (select_account db id) as [a|].
      * now apply respondDocument_status.
      * apply respondError_status; exact Hw.
Qed.

End WithCodecs.

(** A first credit posted to the ledger of the fixtures. *)
Lemma post_transaction_answers_witness :
  let decode := fun _ : string => Ok (IngressFixture.request 100 TransactionTypeCredit) in
  let encode := fun t : Transaction => IdempotencyKey t in
  let out :=
    Endpoints.CreateTransaction decode encode IngressFixture.marshal no_faults 1 21%N 31%N
      "body" IngressFixture.empty_ledger empty_response in
  rw_Status (fst out) = Some Endpoints.StatusCreated /\
  exists t,
    select_by_key (snd out) 10%N "k1" = Some t /\ rw_Body (fst out) = [Bytes (encode t)].
Proof.
  cbv zeta. split; [reflexivity|].
  destruct (post_transaction_answers
              (fun _ : string => Ok (IngressFixture.request 100 TransactionTypeCredit))
              (fun t : Transaction => IdempotencyKey t) IngressFixture.marshal
              no_faults 1 21%N 31%N "body" IngressFixture.empty_ledger empty_response eq_refl)
    as [_ [_ [_ H]]].
  destruct (H eq_refl) as [req [t [Hd [_ [_ [_ [_ [_ [Hsel Hb]]]]]]]]].
  injection Hd as <-. exists t. split; [exact Hsel | exact Hb].
Defined.

(** An id nobody has, asked of both read endpoints. *)
Lemma read_endpoints_answer_witness :
  let parse := fun _ : string => @Ok UUID 99%N in
  let db := IngressFixture.empty_ledger in
  rw_Status (Endpoints.GetTransaction (fun _ => "tx") parse None "99" db empty_response)
    = Some Endpoints.StatusNotFound /\
  rw_Status (Endpoints.GetAccount (fun _ => "account") parse None "99" db empty_response)
    = Some Endpoints.StatusNotFound.
Proof.
  cbv zeta.
  exact (read_endpoints_answer (fun _ => "tx") (fun _ => "account") (fun _ : string => @Ok UUID 99%N)
           None "99" IngressFixture.empty_ledger empty_response eq_refl).
Defined.

End EndpointFacts.

(** ** Accounts *)

Module AccountFacts.
Import AccountService.

Lemma find_account_snoc (l : list Account) (a : Account) (id : UUID) :
  find (fun x => N.eqb (acc_ID x) id) (l ++ [a])
  = match find (fun x => N.eqb (acc_ID x) id) l with
    | Some x => Some x
    | None => if N.eqb (acc_ID a) id then Some a else None
    end.
Proof.
  induction l as [|x l IH]; simpl; [reflexivity|].
  destruct (N.eqb (acc_ID x) id); [reflexivity | exact IH].
Qed.

(** X22: [CreateAccount] either fails and leaves the database as it was,
    or appends one account, ACTIVE, with balance zero, the currency asked
    for and the fresh id: [GetAccount] reads this account back under the
    id, reads every other id as before, and no other table changes. *)
Theorem created_account_can_be_read (fault : option string) (id : UUID) (now : Z) (db : DB)
    (currency : string) :
  let out := CreateAccount fault id now db currency in
  match fst out with
  | Err _ => snd out = db
  | Ok a =>
    acc_ID a = id /\ acc_BalanceCents a = 0 /\ acc_Status a = AccountStatusActive /\
    acc_Currency a = currency /\
    accounts (snd out) = (accounts db ++ [a])%list /\
    transactions (snd out) = transactions db /\
    outbox_events (snd out) = outbox_events db /\
    processed_events (snd out) = processed_events db /\
    GetAccount None db id = Err ("account not found: " ++ Service.ErrNoRows) /\
    GetAccount None (snd out) id = Ok a /\
    (forall other, other <> id -> GetAccount None (snd out) other = GetAccount None db other)
  end.
Proof.
  cbv zeta. unfold CreateAccount. destruct fault; [reflexivity|].
  destruct (existsb _ (accounts db)) eqn:E; [reflexivity|].
  cbn [fst snd]. do 8 (split; [reflexivity|]).
  assert (Hnone : find (fun a => N.eqb (acc_ID a) id) (accounts db) = None).
  { now apply ProcessorProofs.find_none_existsb. }
  unfold GetAccount, select_account. cbn [accounts with_accounts].
  split; [now rewrite Hnone|]. split.
  - rewrite find_account_snoc, Hnone. cbn [acc_ID]. now rewrite N.eqb_refl.
  - intros other Hne. rewrite find_account_snoc. cbn [acc_ID].
    destruct (find (fun x => N.eqb (acc_ID x) other) (accounts db)); [reflexivity|].
    destruct (N.eqb_spec id other) as [E'|_]; [congruence | reflexivity].
Qed.

End AccountFacts.

(** ** From the request to the balance *)

Module PipelineFacts.
Import Publisher Consumer.

Lemma marking_leaves_none_pending (cond : OutboxEvent -> bool) (now : Z)
    (l : list OutboxEvent) :
  filter (fun o => String.eqb (ob_status o) "PENDING") l = [] ->
  filter (fun o => String.eqb (ob_status o) "PENDING")
    (map (fun r => if cond r then set_published now r else r) l) = [].
Proof.
  induction l as [|o l IH]; [reflexivity|].
  cbn [filter map]. destruct (String.eqb (ob_status o) "PENDING") eqn:Eo; [discriminate|].
  intros Hl. destruct (cond o).
  - cbn. now apply IH.
  - rewrite Eo. now apply IH.
Qed.

Section Pipeline.

Variable marshal_payload : TransactionCreatedPayload -> result RawMessage.
Variable unmarshal_payload : RawMessage -> result TransactionCreatedPayload.
Variable marshal_envelope : EventEnvelope -> result string.
Variable unmarshal_envelope : string -> result EventEnvelope.
Variable uuid_String : UUID -> string.

(** X23: the three services in a row.  A request that the Ingress accepts
    on an outbox with nothing pending, then one tick of the relay on which
    nothing fails, then the worker reading the message of the topic with an
    attempt on which nothing fails: the relay writes one message, the one
    of the new outbox row; the worker decodes it, commits its offset and
    returns no error; the transaction is PROCESSED and the balance of the
    account is the one the request asks for, provided the codecs decode
    what they encoded, the envelope id is new, the account has the currency
    of the request and, for a debit, covers it. *)
Theorem created_transaction_is_applied
    (encode : EventEnvelope -> string)
    (db : DB) (req : CreateTransactionRequest) (account : Account) (payloadBytes : RawMessage)
    (now : Z) (txID outboxID : UUID)
    (t : Tick) (batchSize : Z) (topic : string)
    (c : KafkaConsumer) (e : Environment) :
  let row := Service.new_transaction txID req now in
  let event := Outbox.scan (Service.outbox_row outboxID row payloadBytes now) in
  let envelope := envelope_of unmarshal_payload (fresh_uuid t outboxID) event in
  let message := Relay.message_of uuid_String (fresh_uuid t outboxID) event (encode envelope) in
  Service.select_by_key db (req_AccountID req) (req_IdempotencyKey req) = None ->
  select_account db (req_AccountID req) = Some account ->
  acc_Status account = AccountStatusActive ->
  0 < req_AmountCents req ->
  ~ In txID (map ID (transactions db)) ->
  ~ In outboxID (map ob_id (outbox_events db)) ->
  marshal_payload (Service.created_payload row) = Ok payloadBytes ->
  unmarshal_payload payloadBytes = Ok (Service.created_payload row) ->
  (forall env, marshal_envelope env = Ok (encode env)) ->
  unmarshal_envelope (encode envelope) = Ok envelope ->
  Relay.with_status "PENDING" db = [] ->
  0 < batchSize ->
  query_fault t = None ->
  (forall id, write_fault t id = None) ->
  (forall id, mark_fault t id = None) ->
  0 < maxRetries c ->
  (forall s, attempt_faults e 0 s = None) ->
  commit_fault e = None ->
  ~ In (fresh_uuid t outboxID) (map pe_event_id (processed_events db)) ->
  acc_Currency account = req_Currency req ->
  req_Type req = TransactionTypeCredit \/
  (req_Type req = TransactionTypeDebit /\
   0 <= Int64.sub (acc_BalanceCents account) (req_AmountCents req)) ->
  let created :=
    Service.CreateTransaction marshal_payload Service.no_faults now txID outboxID
      (fun d => d) db req in
  let published :=
    publishBatch unmarshal_payload marshal_envelope uuid_String t batchSize topic
      (snd created) [] in
  let consumed :=
    processMessage unmarshal_envelope unmarshal_payload c e message (snd published) in
  fst created = Ok row /\
  snd (snd published) = [Kafka.Produce topic message] /\
  fst consumed = None /\
  snd (snd consumed) = [Kafka.Produce topic message; Kafka.CommitOffset message] /\
  Processor.status_of (fst (snd consumed)) txID = Some TransactionStatusProcessed /\
  Processor.balance_of (fst (snd consumed)) (req_AccountID req)
    = Some (Processor.new_balance (Service.created_payload row) (acc_BalanceCents account)) /\
  Relay.with_status "PENDING" (fst (snd consumed)) = [].
Proof.
  intros row event envelope message Hkey Hacc Hact Hpos Htx Hob Hmp Hup Hme Hue Hpend Hbatch
    Hq Hw Hk Hmax Hf Hc Hnew Hcur Hty created published consumed.
  assert (Hcreated : created
                     = (Ok row, Service.inserted now txID outboxID req db payloadBytes)).
  { subst created. now apply (IngressFacts.CreateTransaction_inserts marshal_payload
                                Service.no_faults now txID outboxID db req account). }
  set (db1 := Service.inserted now txID outboxID req db payloadBytes) in *.
  assert (Hsel : select_pending db1 batchSize = [event]).
  { unfold select_pending, db1.
    cbn [Service.inserted outbox_events with_outbox_events with_transactions].
    rewrite filter_app. unfold Relay.with_status in Hpend. rewrite Hpend.
    cbn [app filter Service.outbox_row ob_status String.eqb Ascii.eqb Bool.eqb].
    cbn [order_by_created_at fold_right insert_by_created_at].
    destruct (Z.to_nat batchSize) as [|n] eqn:En; [lia|]. now destruct n. }
  set (db2 := with_outbox_events db1
                (update_where (Outbox.selected [event]) (set_published (tick_now t))
                   (outbox_events db1))).
  assert (Hpublished : published = (None, (db2, [Kafka.Produce topic message]))).
  { subst published. rewrite Hcreated. cbn [snd]. unfold publishBatch. rewrite Hq.
    rewrite (RelayFacts.clean_each unmarshal_payload marshal_envelope uuid_String t topic
               encode Hme Hw Hk).
    rewrite Hsel. reflexivity. }
  set (payload := Service.created_payload row) in *.
  set (at0 := attempt_clock e 0).
  assert (Hlock : Processor.lock_account db2 (p_AccountID payload)
                  = Some (acc_BalanceCents account, p_Currency payload)).
  { unfold Processor.lock_account, select_account in *.
    change (accounts db2) with (accounts db).
    change (p_AccountID payload) with (req_AccountID req).
    change (p_Currency payload) with (req_Currency req).
    rewrite Hacc. cbn [option_map]. now rewrite Hcur. }
  assert (Hunrec : Processor.select_processed_event db2 (EventID envelope) = None).
  { unfold Processor.select_processed_event.
    change (processed_events db2) with (processed_events db).
    change (EventID envelope) with (fresh_uuid t outboxID).
    replace (find _ (processed_events db)) with (@None ProcessedEvent); [reflexivity|].
    symmetry. apply ProcessorProofs.find_none_existsb.
    now apply (IngressFacts.not_in_existsb pe_event_id). }
  assert (Hrun : Processor.ProcessTransactionCreated unmarshal_payload (attempt_faults e 0)
                   at0 db2 envelope
                 = ((false, None),
                    Processor.applied db2 envelope payload at0 (acc_BalanceCents account))).
  { apply ApplierFacts.run_is_applied; auto. }
  set (db3 := Processor.applied db2 envelope payload at0 (acc_BalanceCents account)) in *.
  assert (Hconsumed : consumed
                      = (None, (db3, [Kafka.Produce topic message;
                                      Kafka.CommitOffset message]))).
  { subst consumed. rewrite Hpublished. cbn [snd]. unfold processMessage.
    change (Kafka.Value message) with (encode envelope). rewrite Hue.
    destruct (Z.to_nat (maxRetries c)) as [|n] eqn:En; [lia|].
    cbn [retry_loop negb Z.ltb Z.compare]. fold at0. rewrite Hrun. cbn [negb].
    unfold CommitMessages. rewrite Hc. reflexivity. }
  rewrite Hcreated, Hpublished, Hconsumed. cbn [fst snd].
  do 4 (split; [reflexivity|]). split; [|split].
  - change txID with (p_TransactionID payload). unfold db3.
    rewrite ProcessorProofs.status_of_applied.
    replace (Processor.status_of db2 (p_TransactionID payload))
      with (Some TransactionStatusPending); [reflexivity|].
    unfold Processor.status_of, select_transaction.
    change (transactions db2) with (transactions db ++ [row])%list.
    rewrite ProcessorProofs.find_app_none.
    + cbn. now rewrite N.eqb_refl.
    + apply ProcessorProofs.find_none_existsb.
      now apply (IngressFacts.not_in_existsb ID).
  - change (req_AccountID req) with (p_AccountID payload). unfold db3.
    exact (ProcessorProofs.balance_of_applied db2 envelope payload at0
             (acc_BalanceCents account) (p_Currency payload) Hlock).
  - unfold Relay.with_status.
    replace (outbox_events db3) with (outbox_events db2).
    2:{ unfold db3, Processor.applied, Processor.mark_processed, Processor.update_balance.
        cbn [outbox_events with_transactions with_accounts].
        now rewrite ApplierFacts.outbox_claimed. }
    unfold db2. cbn [outbox_events with_outbox_events]. unfold db1.
    cbn [Service.inserted outbox_events with_outbox_events with_transactions].
    unfold update_where. rewrite map_app, filter_app.
    replace (filter _ (map _ (outbox_events db))) with (@nil OutboxEvent).
    + cbn. now rewrite N.eqb_refl.
    + symmetry. now apply marking_leaves_none_pending.
Qed.

End Pipeline.

(** A credit of 100 on the empty ledger of the fixtures, through the three
    services. *)
Lemma created_transaction_is_applied_witness :
  let req := IngressFixture.request 100 TransactionTypeCredit in
  let row := Service.new_transaction 21%N req 1 in
  let decode_payload := fun _ : RawMessage => Ok (Service.created_payload row) in
  let event := Outbox.scan (Service.outbox_row 31%N row "payload" 1) in
  let envelope := envelope_of decode_payload 7%N event in
  let message := Relay.message_of RelayFixture.plain 7%N event "7" in
  let calm :=
    {| attempt_faults := fun _ => Processor.no_faults; attempt_clock := fun n => n;
       dlq_fault := None; commit_fault := None |} in
  let created :=
    Service.CreateTransaction IngressFixture.marshal Service.no_faults 1 21%N 31%N
      (fun d => d) IngressFixture.empty_ledger req in
  let published :=
    publishBatch decode_payload RelayFixture.id_only RelayFixture.plain
      (RelayFixture.tick 7%N None 6) 100 "transactions" (snd created) [] in
  let consumed :=
    processMessage (fun _ => Ok envelope) decode_payload WorkerFixture.worker calm message
      (snd published) in
  fst consumed = None /\
  Processor.status_of (fst (snd consumed)) 21%N = Some TransactionStatusProcessed /\
  Processor.balance_of (fst (snd consumed)) 10%N = Some 100.
Proof.
  cbv zeta.
  pose proof (created_transaction_is_applied
                IngressFixture.marshal
                (fun _ : RawMessage =>
                   Ok (Service.created_payload
                         (Service.new_transaction 21%N
                            (IngressFixture.request 100 TransactionTypeCredit) 1)))
                RelayFixture.id_only
                (fun _ : string =>
                   Ok (envelope_of
                         (fun _ : RawMessage =>
                            Ok (Service.created_payload
                                  (Service.new_transaction 21%N
                                     (IngressFixture.request 100 TransactionTypeCredit) 1)))
                         7%N
                         (Outbox.scan
                            (Service.outbox_row 31%N
                               (Service.new_transaction 21%N
                                  (IngressFixture.request 100 TransactionTypeCredit) 1)
                               "payload" 1))))
                RelayFixture.plain
                (fun env => Fmt.d (Z.of_N (EventID env)))
                IngressFixture.empty_ledger
                (IngressFixture.request 100 TransactionTypeCredit)
                (Fixture.account 0) "payload" 1 21%N 31%N
                (RelayFixture.tick 7%N None 6) 100 "transactions"
                WorkerFixture.worker
                {| attempt_faults := fun _ => Processor.no_faults;
                   attempt_clock := fun n => n; dlq_fault := None; commit_fault := None |})
    as H.
  cbv zeta in H.
  specialize (H eq_refl eq_refl eq_refl eq_refl (fun x => x) (fun x => x) eq_refl eq_refl
                (fun _ => eq_refl) eq_refl eq_refl eq_refl eq_refl (fun _ => eq_refl)
                (fun _ => eq_refl) eq_refl (fun _ => eq_refl) eq_refl (fun x => x) eq_refl
                (or_introl eq_refl)).
  destruct H as [_ [_ [H1 [_ [H2 [H3 _]]]]]].
  split; [exact H1|]. split; [exact H2 | exact H3].
Defined.

End PipelineFacts.

(** ** The worker loop *)

Module WorkerFacts.
Import Consumer Worker.

Lemma kept_refl (db : DB) : kept db db.
Proof.
  split; [reflexivity|]. split; [reflexivity|]. split; [reflexivity|].
  exists []. now rewrite app_nil_r.
Qed.

Lemma kept_trans (d1 d2 d3 : DB) : kept d1 d2 -> kept d2 d3 -> kept d1 d3.
Proof.
  intros (Ho & Ha & Ht & x & Hp) (Ho' & Ha' & Ht' & x' & Hp').
  split; [congruence|]. split; [congruence|]. split; [congruence|].
  exists (x ++ x')%list. now rewrite Hp', Hp, app_assoc.
Qed.

Section WithCodecs.

Variable json_Unmarshal_envelope : string -> result EventEnvelope.
Variable json_Unmarshal_payload : RawMessage -> result TransactionCreatedPayload.

Lemma run_kept (f : Processor.Faults) (now : Z) (db : DB) (envelope : EventEnvelope) :
  kept db (snd (Processor.ProcessTransactionCreated json_Unmarshal_payload f now db envelope)).
Proof.
  destruct (ApplierFacts.run_database json_Unmarshal_payload f now db envelope)
    as [-> | (payload & bal & Hp & Hnew & _ & _ & Hdb)]; [apply kept_refl|].
  assert (Hcase : snd (Processor.ProcessTransactionCreated json_Unmarshal_payload f now db
                         envelope)
                  = Processor.applied db envelope payload now bal \/
                  snd (Processor.ProcessTransactionCreated json_Unmarshal_payload f now db
                         envelope)
                  = Processor.refused db envelope payload now bal) by tauto.
  destruct (ApplierFacts.frame_committed db envelope payload now bal _ Hcase)
    as (Ho & Ha & Ht & _ & _ & Hpe).
  split; [exact Ho|]. split; [exact Ha|]. split; [exact Ht|].
  rewrite Hpe, (ProcessorProofs.insert_processed_fresh _ _ _ _ Hnew).
  cbn [snd processed_events with_processed_events]. eexists. reflexivity.
Qed.

Lemma retry_loop_kept (c : KafkaConsumer) (e : Environment) (envelope : EventEnvelope)
    (remaining : nat) :
  forall attempt shouldRetry lastErr db log,
    kept db (fst (snd (retry_loop json_Unmarshal_payload c e envelope remaining attempt
                         shouldRetry lastErr (db, log)))).
Proof.
  induction remaining as [|n IH]; intros attempt shouldRetry lastErr db log.
  - apply kept_refl.
  - cbn [retry_loop]. destruct shouldRetry; cbn [negb]; [|apply kept_refl].
    pose proof (run_kept (attempt_faults e attempt) (attempt_clock e attempt) db envelope)
      as Hk.
    destruct (Processor.ProcessTransactionCreated _ _ _ _ _) as [[sr le] db1].
    cbn [snd] in Hk. destruct sr; cbn [negb].
    + apply kept_trans with (d2 := db1); [exact Hk | apply IH].
    + exact Hk.
Qed.

Lemma processMessage_acknowledges (c : KafkaConsumer) (e : Environment) (msg : Kafka.Message)
    (db : DB) (log : list Kafka.Op) :
  let out := processMessage json_Unmarshal_envelope json_Unmarshal_payload c e msg (db, log) in
  kept db (fst (snd out)) /\
  exists new,
    snd (snd out) = (log ++ new)%list /\
    Forall (acknowledges c [msg]) new /\
    (List.length (filter Kafka.is_commit new) <= 1)%nat.
Proof.
  cbv zeta. unfold processMessage.
  destruct (json_Unmarshal_envelope (Kafka.Value msg)) as [envelope|err].
  2:{ unfold CommitMessages. cbn [fst snd]. destruct (commit_fault e); cbn [fst snd].
      - split; [apply kept_refl|]. exists []. rewrite app_nil_r.
        split; [reflexivity|]. split; [constructor | simpl; lia].
      - split; [apply kept_refl|]. exists [Kafka.CommitOffset msg].
        split; [reflexivity|]. split; [|simpl; lia].
        constructor; [now left | constructor]. }
  pose proof (retry_loop_kept c e envelope (Z.to_nat (maxRetries c)) 0 true None db log) as Hk.
  destruct (retry_loop json_Unmarshal_payload c e envelope (Z.to_nat (maxRetries c)) 0 true
              None (db, log)) as [[sr le] [db1 log1]] eqn:Hloop.
  cbn [fst snd] in Hk.
  destruct (ConsumerProofs.retry_loop_only_sleeps _ _ _ _ _ _ _ _ _ _ _ _ _ Hloop)
    as [pauses [-> Hp]].
  assert (Hsleep : Forall (acknowledges c [msg]) pauses /\ filter Kafka.is_commit pauses = []).
  { clear Hloop. induction pauses as [|o os IH]; [split; [constructor | reflexivity]|].
    simpl in Hp. apply andb_true_iff in Hp. destruct Hp as [Ho Hos].
    apply andb_true_iff in Ho. destruct Ho as [Hc Hpr].
    destruct (IH Hos) as [IH1 IH2]. destruct o; try discriminate.
    split; [constructor; [exact I | exact IH1] | exact IH2]. }
  destruct Hsleep as [Hall Hnone].
  assert (Hcommit : forall (log0 extra : list Kafka.Op),
            Forall (acknowledges c [msg]) extra -> filter Kafka.is_commit extra = [] ->
            let out := match CommitMessages e msg (log ++ extra)%list with
                       | (Some err, log) =>
                         (Some ("failed to commit message: " ++ err), (db1, log))
                       | (None, log) => (None, (db1, log))
                       end in
            kept db (fst (snd out)) /\
            exists new,
              snd (snd out) = (log ++ new)%list /\
              Forall (acknowledges c [msg]) new /\
              (List.length (filter Kafka.is_commit new) <= 1)%nat).
  { intros _ extra Hex Hno. cbv zeta. unfold CommitMessages.
    destruct (commit_fault e); cbn [fst snd]; (split; [exact Hk|]).
    - exists extra. split; [reflexivity|]. split; [exact Hex | rewrite Hno; simpl; lia].
    - exists (extra ++ [Kafka.CommitOffset msg])%list.
      split; [now rewrite app_assoc|]. split.
      + apply Forall_app. split; [exact Hex|]. constructor; [now left | constructor].
      + rewrite filter_app, Hno. simpl. lia. }
  destruct sr, le as [err|]; try (exact (Hcommit log pauses Hall Hnone)).
  unfold sendToDLQ. destruct (dlq_fault e).
  - cbn [fst snd]. split; [exact Hk|]. exists pauses.
    split; [reflexivity|]. split; [exact Hall | rewrite Hnone; simpl; lia].
  - rewrite <- app_assoc. apply (Hcommit log).
    + apply Forall_app. split; [exact Hall|]. constructor; [|constructor].
      split; [reflexivity|]. exists msg, err. split; [now left | reflexivity].
    + rewrite filter_app, Hnone. reflexivity.
Qed.

Lemma acknowledges_more (c : KafkaConsumer) (fetched fetched' : list Kafka.Message)
    (o : Kafka.Op) :
  (forall m, In m fetched -> In m fetched') ->
  acknowledges c fetched o -> acknowledges c fetched' o.
Proof.
  intros Hin. destruct o as [topic m | m | d]; simpl; auto.
  intros [Ht [original [err [Ho Hm]]]]. split; [exact Ht|]. exists original, err. auto.
Qed.

(** X24: however long the worker runs and whatever fails, [Start] adds,
    removes and moves no row of the accounts, the transactions and the
    outbox, changes no column of them but balance, status, failure reason
    and [updated_at], and only adds to the processed events; on the log it
    only pauses, commits offsets of messages it fetched, at most one commit
    per message, and writes dead letters of such messages to the DLQ
    topic. *)
Theorem worker_only_applies_and_acknowledges (c : KafkaConsumer)
    (fetched : list (result Kafka.Message * Environment)) (db : DB) (log : list Kafka.Op) :
  let w := Start json_Unmarshal_envelope json_Unmarshal_payload c fetched (db, log) in
  kept db (fst w) /\
  exists new,
    snd w = (log ++ new)%list /\
    Forall (acknowledges c (messages fetched)) new /\
    (List.length (filter Kafka.is_commit new) <= List.length (messages fetched))%nat.
Proof.
  cbv zeta. revert db log.
  induction fetched as [|[[msg|err] e] rest IH]; intros db log.
  - split; [apply kept_refl|]. exists []. rewrite app_nil_r.
    split; [reflexivity|]. split; [constructor | simpl; lia].
  - cbn [Start messages].
    destruct (processMessage_acknowledges c e msg db log)
      as [Hk [new [Hlog [Hall Hlen]]]].
    destruct (processMessage json_Unmarshal_envelope json_Unmarshal_payload c e msg (db, log))
      as [r [db1 log1]].
    cbn [fst snd] in *. subst log1.
    destruct (IH db1 (log ++ new)%list) as [Hk' [new' [Hlog' [Hall' Hlen']]]].
    split; [now apply kept_trans with (d2 := db1)|].
    exists (new ++ new')%list. split; [now rewrite Hlog', app_assoc|]. split.
    + apply Forall_app. split.
      * eapply Forall_impl; [|exact Hall]. intros o. apply acknowledges_more.
        intros m [<- | []]. now left.
      * eapply Forall_impl; [|exact Hall']. intros o. apply acknowledges_more.
        intros m Hm. now right.
    + rewrite filter_app, length_app. simpl. lia.
  - cbn [Start messages]. apply IH.
Qed.

End WithCodecs.

End WorkerFacts.

(** ** Two envelopes for one transaction *)

Module RedeliveryFacts.
Import Processor ProcessorProofs.

Lemma lock_account_applied (db : DB) (envelope : EventEnvelope)
    (payload : TransactionCreatedPayload) (now balance : Z) (currency : string) :
  lock_account db (p_AccountID payload) = Some (balance, currency) ->
  lock_account (applied db envelope payload now balance) (p_AccountID payload)
  = Some (new_balance payload balance, currency).
Proof.
  unfold lock_account, select_account, applied, mark_processed, update_balance.
  cbn [accounts with_transactions with_accounts].
  rewrite accounts_claimed.
  rewrite (find_update_where acc_ID (p_AccountID payload)) by reflexivity.
  destruct (find _ (accounts db)) as [a|] eqn:F; [|discriminate].
  apply find_some in F. destruct F as [_ F]. cbn [option_map]. rewrite F.
  now intros [= <- <-].
Qed.

Lemma unrecorded_after_other (db : DB) (envelope : EventEnvelope)
    (payload : TransactionCreatedPayload) (now balance : Z) (other : UUID) :
  select_processed_event db (EventID envelope) = None ->
  select_processed_event db other = None ->
  other <> EventID envelope ->
  select_processed_event (applied db envelope payload now balance) other = None.
Proof.
  intros Hnew Hother Hne. unfold select_processed_event in *.
  rewrite processed_events_applied, (insert_processed_fresh _ _ _ _ Hnew).
  cbn [snd processed_events with_processed_events].
  destruct (find (fun r => N.eqb (pe_event_id r) other) (processed_events db)) eqn:F;
    [discriminate|].
  rewrite (find_app_none _ _ _ F). cbn [find pe_event_id].
  destruct (N.eqb_spec (EventID envelope) other) as [E|_]; [congruence | reflexivity].
Qed.

(** X26: the applier deduplicates envelopes, not transactions.  Two
    envelopes with different ids that carry the same payload, neither
    recorded, each processed by a run in which nothing fails: both runs
    return success, both envelope ids are recorded, and the amount is
    applied twice, so a CREDIT is added to the balance two times (and a
    DEBIT taken two times when the balance covers both). *)
Theorem second_envelope_applies_again
    (json_Unmarshal : RawMessage -> result TransactionCreatedPayload)
    (f f' : Faults) (now now' : Z) (db : DB) (first second : EventEnvelope)
    (payload : TransactionCreatedPayload) (balance : Z) :
  json_Unmarshal (Payload first) = Ok payload ->
  json_Unmarshal (Payload second) = Ok payload ->
  EventID second <> EventID first ->
  select_processed_event db (EventID first) = None ->
  select_processed_event db (EventID second) = None ->
  (forall s, f s = None) -> (forall s, f' s = None) ->
  lock_account db (p_AccountID payload) = Some (balance, p_Currency payload) ->
  p_Type payload = TransactionTypeCredit \/
  (p_Type payload = TransactionTypeDebit /\
   0 <= Int64.sub balance (p_AmountCents payload) /\
   0 <= Int64.sub (Int64.sub balance (p_AmountCents payload)) (p_AmountCents payload)) ->
  let run1 := ProcessTransactionCreated json_Unmarshal f now db first in
  let run2 := ProcessTransactionCreated json_Unmarshal f' now' (snd run1) second in
  fst run1 = (false, None) /\ fst run2 = (false, None) /\
  balance_of (snd run1) (p_AccountID payload) = Some (new_balance payload balance) /\
  balance_of (snd run2) (p_AccountID payload)
    = Some (new_balance payload (new_balance payload balance)) /\
  select_processed_event (snd run2) (EventID first) <> None /\
  select_processed_event (snd run2) (EventID second) <> None.
Proof.
  intros Hp1 Hp2 Hne Hn1 Hn2 Hf Hf' Hl Hty. cbv zeta.
  assert (Hty1 : p_Type payload = TransactionTypeCredit \/
                 (p_Type payload = TransactionTypeDebit /\
                  0 <= Int64.sub balance (p_AmountCents payload))) by tauto.
  rewrite (ApplierFacts.run_is_applied json_Unmarshal f now db first payload balance
             Hp1 Hf Hn1 Hl Hty1).
  cbn [fst snd].
  set (db1 := applied db first payload now balance).
  assert (Hl1 : lock_account db1 (p_AccountID payload)
                = Some (new_balance payload balance, p_Currency payload))
    by (now apply lock_account_applied).
  assert (Hn2' : select_processed_event db1 (EventID second) = None)
    by (now apply unrecorded_after_other).
  assert (Hty2 : p_Type payload = TransactionTypeCredit \/
                 (p_Type payload = TransactionTypeDebit /\
                  0 <= Int64.sub (new_balance payload balance) (p_AmountCents payload))).
  { destruct Hty as [Hc | [Hd [_ H2]]]; [now left|]. right. split; [exact Hd|].
    now rewrite (new_balance_debit _ _ Hd). }
  rewrite (ApplierFacts.run_is_applied json_Unmarshal f' now' db1 second payload
             (new_balance payload balance) Hp2 Hf' Hn2' Hl1 Hty2).
  cbn [fst snd]. split; [reflexivity|]. split; [reflexivity|]. split; [|split; [|split]].
  - exact (balance_of_applied db first payload now balance _ Hl).
  - exact (balance_of_applied db1 second payload now' (new_balance payload balance) _ Hl1).
  - pose proof (recorded_applied db first payload now balance) as Hr. fold db1 in Hr.
    unfold select_processed_event at 1.
    rewrite processed_events_applied, (insert_processed_fresh _ _ _ _ Hn2').
    cbn [snd processed_events with_processed_events].
    unfold select_processed_event in Hr.
    destruct (find (fun r => N.eqb (pe_event_id r) (EventID first)) (processed_events db1))
      as [r|] eqn:F; [|now contradiction Hr].
    rewrite (find_app_some _ _ _ _ F). discriminate.
  - apply recorded_applied.
Qed.

(** A credit of 50 on 100, carried by the envelopes 7 and 8. *)
Lemma second_envelope_applies_again_witness :
  let t := Fixture.pending TransactionTypeCredit 50 "USD" 10%N in
  let process := ProcessTransactionCreated (Fixture.decoder t) no_faults in
  let db1 := snd (process 2 (Fixture.database 100 t) (Fixture.envelope_with 7%N)) in
  let db2 := snd (process 3 db1 (Fixture.envelope_with 8%N)) in
  balance_of db1 10%N = Some 150 /\ balance_of db2 10%N = Some 200.
Proof.
  cbv zeta.
  destruct (second_envelope_applies_again
              (Fixture.decoder (Fixture.pending TransactionTypeCredit 50 "USD" 10%N))
              no_faults no_faults 2 3
              (Fixture.database 100 (Fixture.pending TransactionTypeCredit 50 "USD" 10%N))
              (Fixture.envelope_with 7%N) (Fixture.envelope_with 8%N)
              (Fixture.payload_of (Fixture.pending TransactionTypeCredit 50 "USD" 10%N)) 100
              eq_refl eq_refl)
    as [_ [_ [H1 [H2 _]]]]; try reflexivity; try discriminate; [now left|].
  split; [exact H1 | exact H2].
Defined.

End RedeliveryFacts.

(** ** A row that is published twice *)

Module RepublishProofs.
Import Publisher Outbox.

Lemma batch_covers (db : DB) (batchSize : Z) (o : OutboxEvent) :
  In o (outbox_events db) -> ob_status o = "PENDING" ->
  (List.length (Relay.with_status "PENDING" db) <= Z.to_nat batchSize)%nat ->
  In (scan o) (select_pending db batchSize).
Proof.
  intros Hin Hs Hn. rewrite RelayFacts.select_pending_scan. apply in_map.
  rewrite firstn_all2 by (rewrite RelayFacts.length_order_by_created_at; exact Hn).
  apply RelayFacts.In_order_by_created_at. unfold Relay.with_status.
  apply filter_In. split; [exact Hin|]. now apply String.eqb_eq.
Qed.

Lemma pending_after_marking (cond : OutboxEvent -> bool) (now : Z) (l : list OutboxEvent) :
  (List.length (filter (fun o => String.eqb (ob_status o) "PENDING")
                  (map (fun r => if cond r then set_published now r else r) l))
   <= List.length (filter (fun o => String.eqb (ob_status o) "PENDING") l))%nat.
Proof.
  induction l as [|r l IH]; [simpl; lia|].
  cbn [map filter]. destruct (cond r).
  - cbn [ob_status set_published String.eqb Ascii.eqb Bool.eqb].
    destruct (String.eqb (ob_status r) "PENDING"); simpl; lia.
  - destruct (String.eqb (ob_status r) "PENDING"); simpl; lia.
Qed.

Section TwoTicks.

Variable json_Unmarshal : RawMessage -> result TransactionCreatedPayload.
Variable json_Marshal : EventEnvelope -> result string.
Variable uuid_String : UUID -> string.
Variable encode : EventEnvelope -> string.
Variable topic : string.

Hypothesis marshal_total : forall e, json_Marshal e = Ok (encode e).

Abbreviation batch := (publishBatch json_Unmarshal json_Marshal uuid_String).
Abbreviation message := (Relay.message_of uuid_String).

(** A tick on which every write to the log succeeds, whatever the
    [UPDATE]s do: every event of the batch is written, and the rows marked
    are those of the batch whose [UPDATE] goes through. *)
Lemma written_each (t : Tick) (events : list outboxEvent) :
  (forall id, write_fault t id = None) ->
  forall db log,
    publish_each json_Unmarshal json_Marshal uuid_String t topic events db log
    = (with_outbox_events db
         (update_where (fun r => selected events r && negb (mark_fails t r))
            (set_published (tick_now t)) (outbox_events db)),
       (log ++ map (Outbox.written json_Unmarshal uuid_String encode t topic) events)%list).
Proof.
  intros Hw. induction events as [|event rest IH]; intros db log.
  - simpl. rewrite app_nil_r. f_equal. destruct db as [a tr o p].
    unfold with_outbox_events, update_where. cbn. f_equal. symmetry. apply map_id.
  - cbn [publish_each]. unfold publishEvent. rewrite marshal_total, Hw.
    unfold markAsPublished. destruct (mark_fault t (oe_ID event)) as [cause|] eqn:M;
      cbn [snd]; rewrite IH; cbn [map]; rewrite <- app_assoc; cbn [app]; f_equal;
      destruct db as [a tr o p]; unfold with_outbox_events; cbn; f_equal;
      unfold update_where; rewrite ?map_map; apply map_ext; intros r;
      unfold selected, mark_fails; cbn [existsb];
      destruct (N.eqb_spec (ob_id r) (oe_ID event)) as [E|E]; cbn [orb].
    + rewrite E, M. cbn [negb]. now rewrite andb_false_r.
    + reflexivity.
    + cbn [ob_id set_published]. rewrite E, M. cbn [negb andb].
      destruct (existsb _ rest && true); reflexivity.
    + reflexivity.
Qed.

(** C5, amended: the envelope id is the value of [uuid.New()] drawn at the
    publish, whatever the id of the outbox row.  A PENDING row whose
    message a first tick writes without being able to mark the row is still
    PENDING and is published again by the next tick on which the writes
    succeed: the log holds two messages for it, under the same key, whose
    envelopes have the same event type, occurrence time, aggregate id,
    idempotency key and payload, and the ids drawn on the two ticks; when
    these two draws differ, the envelope ids differ, and the applier, which
    looks the envelope id up in [processed_events], does not find the
    second envelope recorded after it has applied the first. *)
Theorem republished_row_gets_a_new_event_id (t1 t2 : Tick) (batchSize : Z)
    (db : DB) (log : list Kafka.Op) (o : OutboxEvent) :
  In o (outbox_events db) -> ob_status o = "PENDING" ->
  (List.length (Relay.with_status "PENDING" db) <= Z.to_nat batchSize)%nat ->
  query_fault t1 = None -> (forall id, write_fault t1 id = None) ->
  mark_fault t1 (ob_id o) <> None ->
  query_fault t2 = None -> (forall id, write_fault t2 id = None) ->
  let first := batch t1 batchSize topic db log in
  let second := batch t2 batchSize topic (fst (snd first)) (snd (snd first)) in
  let e1 := envelope_of json_Unmarshal (fresh_uuid t1 (ob_id o)) (scan o) in
  let e2 := envelope_of json_Unmarshal (fresh_uuid t2 (ob_id o)) (scan o) in
  let m1 := message (fresh_uuid t1 (ob_id o)) (scan o) (encode e1) in
  let m2 := message (fresh_uuid t2 (ob_id o)) (scan o) (encode e2) in
  In o (outbox_events (fst (snd first))) /\
  (exists new1 new2,
     snd (snd first) = (log ++ new1)%list /\
     snd (snd second) = ((log ++ new1) ++ new2)%list /\
     In (Kafka.Produce topic m1) new1 /\ In (Kafka.Produce topic m2) new2) /\
  Kafka.Key m1 = Kafka.Key m2 /\
  Kafka.Value m1 = encode e1 /\ Kafka.Value m2 = encode e2 /\
  EventID e1 = fresh_uuid t1 (ob_id o) /\ EventID e2 = fresh_uuid t2 (ob_id o) /\
  EventType e1 = EventType e2 /\ OccurredAt e1 = OccurredAt e2 /\
  AggregateID e1 = AggregateID e2 /\ env_IdempotencyKey e1 = env_IdempotencyKey e2 /\
  Payload e1 = Payload e2 /\
  (fresh_uuid t1 (ob_id o) <> fresh_uuid t2 (ob_id o) ->
   EventID e1 <> EventID e2 /\
   forall ledger payload now balance,
     Processor.select_processed_event ledger (EventID e1) = None ->
     Processor.select_processed_event ledger (EventID e2) = None ->
     Processor.select_processed_event
       (Processor.applied ledger e1 payload now balance) (EventID e1) <> None /\
     Processor.select_processed_event
       (Processor.applied ledger e1 payload now balance) (EventID e2) = None).
Proof.
  intros Hin Hs Hn Hq1 Hw1 Hm1 Hq2 Hw2. cbv zeta.
  assert (Hfirst : batch t1 batchSize topic db log
                   = (None,
                      publish_each json_Unmarshal json_Marshal uuid_String t1 topic
                        (select_pending db batchSize) db log))
    by (unfold publishBatch; now rewrite Hq1).
  rewrite Hfirst, (written_each t1 (select_pending db batchSize) Hw1 db log). cbn [fst snd].
  set (db1 := with_outbox_events db
                (update_where
                   (fun r => selected (select_pending db batchSize) r && negb (mark_fails t1 r))
                   (set_published (tick_now t1)) (outbox_events db))).
  assert (Hin1 : In o (outbox_events db1)).
  { unfold db1. cbn [outbox_events with_outbox_events]. unfold update_where.
    apply in_map_iff. exists o. split; [|exact Hin].
    unfold mark_fails. destruct (mark_fault t1 (ob_id o)); [|now contradiction Hm1].
    cbn [negb]. now rewrite andb_false_r. }
  assert (Hn1 : (List.length (Relay.with_status "PENDING" db1) <= Z.to_nat batchSize)%nat).
  { unfold Relay.with_status, db1. cbn [outbox_events with_outbox_events].
    unfold update_where. eapply Nat.le_trans; [apply pending_after_marking | exact Hn]. }
  unfold publishBatch. rewrite Hq2.
  rewrite (written_each t2 (select_pending db1 batchSize) Hw2 db1). cbn [fst snd].
  split; [exact Hin1|]. split.
  - eexists. eexists. split; [reflexivity|]. split; [reflexivity|]. split.
    + apply in_map_iff. exists (scan o). split; [reflexivity | now apply batch_covers].
    + apply in_map_iff. exists (scan o). split; [reflexivity | now apply batch_covers].
  - do 10 (split; [reflexivity|]).
    intros Hne. split; [exact Hne|].
    intros ledger payload now balance H1 H2. split.
    + apply ProcessorProofs.recorded_applied.
    + apply RedeliveryFacts.unrecorded_after_other; [exact H1 | exact H2|].
      intros E. apply Hne. symmetry. exact E.
Qed.

End TwoTicks.

(** The row of the fixtures: the first tick draws 7 and loses its
    connection before the mark, the second draws 8. *)
Lemma republished_row_gets_a_new_event_id_witness :
  let publish := publishBatch RelayFixture.no_payload RelayFixture.id_only RelayFixture.plain in
  let first :=
    publish (RelayFixture.tick 7%N (Some "driver: bad connection") 6) 100 "transactions"
      RelayFixture.outbox [] in
  let second :=
    publish (RelayFixture.tick 8%N None 7) 100 "transactions"
      (fst (snd first)) (snd (snd first)) in
  (exists new1 new2,
     snd (snd second) = (([] ++ new1) ++ new2)%list /\
     In (Kafka.Produce "transactions"
           (Relay.message_of RelayFixture.plain 7%N RelayFixture.row1 "7")) new1 /\
     In (Kafka.Produce "transactions"
           (Relay.message_of RelayFixture.plain 8%N RelayFixture.row1 "8")) new2) /\
  EventID (envelope_of RelayFixture.no_payload 7%N RelayFixture.row1)
    <> EventID (envelope_of RelayFixture.no_payload 8%N RelayFixture.row1).
Proof.
  cbv zeta.
  pose proof (republished_row_gets_a_new_event_id
                RelayFixture.no_payload RelayFixture.id_only RelayFixture.plain
                (fun e => Fmt.d (Z.of_N (EventID e))) "transactions" (fun _ => eq_refl)
                (RelayFixture.tick 7%N (Some "driver: bad connection") 6)
                (RelayFixture.tick 8%N None 7) 100 RelayFixture.outbox []
                RelayFixture.pending_row (or_introl eq_refl) eq_refl) as H.
  cbv zeta in H.
  assert (Hn : (List.length (Relay.with_status "PENDING" RelayFixture.outbox)
                <= Z.to_nat 100)%nat) by (simpl; lia).
  specialize (H Hn eq_refl (fun _ => eq_refl)).
  assert (Hm : mark_fault (RelayFixture.tick 7%N (Some "driver: bad connection") 6)
                 (ob_id RelayFixture.pending_row) <> None) by discriminate.
  specialize (H Hm eq_refl (fun _ => eq_refl)).
  destruct H as [_ [[new1 [new2 [_ [H2 [H3 H4]]]]] [_ [_ [_ [_ [_ [_ [_ [_ [_ [_ H]]]]]]]]]]]].
  split.
  - exists new1, new2. split; [exact H2|]. split; [exact H3 | exact H4].
  - apply H. discriminate.
Defined.

End RepublishProofs.
